(** * Graph telemetry service: a shallow embedding of
      [services/graph-telemetry/graph_telemetry_service.py]

    The service reads a screenshot of a screen-time bar chart and answers
    how many minutes were used on one day.  The embedding follows the
    Python source function by function and keeps its names.

    Modelling conventions.
    - Python [int] is [Z].  Python [float] is modelled by the exact
      rationals [Q]: every float operation the source performs (true
      division, multiplication by a float constant, comparison,
      [round(_, 1)], [int(_)]) is the exact operation, so binary64
      rounding error is outside the model.  Values stored in results are
      kept in lowest terms ([Qred]) so that they can be compared with [=].
      Where the decimals of the minutes matter, the compositor is also
      given on the numbers of the program ([Binary64], [Compositor64]):
      IEEE 754 doubles with their rounding, and the int 0.
    - Text is ASCII: [str.strip] and the digit class of the regular
      expression are modelled on ASCII white space and ASCII digits.
    - The answer of the label source has the types of its contract:
      a list of labels, each a day name and a boolean.
    - OpenCV, NumPy's [std], PIL and the Gemini client are libraries, not
      code of the repository: they are the fields of the interfaces
      [Vision] and [Gemini] below, and every theorem holds for all their
      implementations.  [Synthetic] gives executable instances.
    - Python [dict]s keyed by day name are [gmap string _].
    - The detectors' calls are logged with a writer monad ([Traced]), the
      call-count instrumentation the specification asks tests to use. *)

From Stdlib Require Import ZArith QArith Qround Qabs Qminmax.
From Stdlib Require Import String Ascii List Lia Lqa PrimFloat SpecFloat Sorted.
From stdpp Require Import gmap strings.

Local Open Scope string_scope.
Local Open Scope list_scope.
Local Open Scope Z_scope.

(** ** Python numerics *)
Module PyNum.

Definition Qltb (a b : Q) : bool := negb (Qle_bool b a).

(** [int(q)]: truncation towards zero. *)
Definition py_int (q : Q) : Z :=
  if Qle_bool 0 q then Qfloor q else Qceiling q.

(** Nearest integer, ties to the even neighbour. *)
Definition round_half_even (q : Q) : Z :=
  let f := Qfloor q in
  let r := (q - inject_Z f)%Q in
  if Qltb r (1 # 2) then f
  else if Qltb (1 # 2) r then f + 1
  else if Z.even f then f else f + 1.

(** [round(q, 1)]. *)
Definition py_round1 (q : Q) : Q :=
  Qred (round_half_even (q * 10) # 10).

(** [x / n] for a float [x] and an int [n]; [None] is
    [ZeroDivisionError]. *)
Definition py_truediv (x : Q) (n : Z) : option Q :=
  if n =? 0 then None else Some (Qred (x / inject_Z n)).

(** [max(a, b)] of Python: the first argument unless the second is
    strictly larger. *)
Definition py_max (a b : Q) : Q := if Qltb a b then b else a.

(** Stable sort by an integer key, as [list.sort(key=...)] and
    [sorted(..., key=...)]; [reverse=True] keeps equal keys in their
    original order too. *)
Section Sorting.
Context {A : Type} (key : A -> Z).

Fixpoint insert_asc (x : A) (l : list A) : list A :=
  match l with
  | [] => [x]
  | y :: l' => if key x <=? key y then x :: l else y :: insert_asc x l'
  end.

Fixpoint insert_desc (x : A) (l : list A) : list A :=
  match l with
  | [] => [x]
  | y :: l' => if key y <=? key x then x :: l else y :: insert_desc x l'
  end.

Definition sort_by (l : list A) : list A := fold_right insert_asc [] l.
Definition sort_by_reverse (l : list A) : list A :=
  fold_right insert_desc [] l.
End Sorting.

(** [np.median] of a list of ints: the middle element of the sorted
    list, or the mean of the two middle ones. *)
Definition np_median (l : list Z) : Q :=
  let s := sort_by (fun z => z) l in
  let n := length s in
  if Nat.even n
  then Qred ((inject_Z (nth (n / 2 - 1) s 0) + inject_Z (nth (n / 2) s 0)) / 2)
  else inject_Z (nth (n / 2) s 0).

(** [np.diff]. *)
Fixpoint np_diff (l : list Z) : list Z :=
  match l with
  | a :: (b :: _) as t => (b - a) :: np_diff t
  | _ => []
  end.

Definition sum_Z (l : list Z) : Z := fold_right Z.add 0 l.

(** [max(l, key=f)]: the first element whose key is maximal. *)
Fixpoint py_max_by {A : Type} (f : A -> Q) (best : A) (l : list A) : A :=
  match l with
  | [] => best
  | x :: l' => py_max_by f (if Qltb (f best) (f x) then x else best) l'
  end.

End PyNum.
Export PyNum.

(** ** Parsing the top axis value *)
Module TopValue.

Definition is_digit (c : ascii) : bool :=
  let n := nat_of_ascii c in ((48 <=? n) && (n <=? 57))%nat.

Definition is_dot (c : ascii) : bool := Ascii.eqb c ".".

(** [re.sub(r"[^\d\.]", "", s)] (on ASCII text). *)
Fixpoint strip_non_numeric (s : string) : string :=
  match s with
  | EmptyString => EmptyString
  | String c s' =>
      if is_digit c || is_dot c then String c (strip_non_numeric s')
      else strip_non_numeric s'
  end.

Definition digit_val (c : ascii) : Z := Z.of_nat (nat_of_ascii c) - 48.

(** Reads the digits of [s] up to the first dot: the number read so
    far and what follows the dot, if any. *)
Fixpoint read_digits (acc : Z) (n : nat) (s : string)
  : Z * nat * option string :=
  match s with
  | EmptyString => (acc, n, None)
  | String c s' =>
      if is_dot c then (acc, n, Some s')
      else read_digits (acc * 10 + digit_val c) (S n) s'
  end.

(** [float(s)] for a string of digits and dots; [None] is
    [ValueError]: more than one dot, or no digit at all. *)
Definition py_float (s : string) : option Q :=
  match read_digits 0 0 s with
  | (i, ni, None) => if (ni =? 0)%nat then None else Some (inject_Z i)
  | (i, ni, Some rest) =>
      match read_digits 0 0 rest with
      | (f, nf, None) =>
          if ((ni + nf) =? 0)%nat then None
          else Some (Qred (inject_Z (i * 10 ^ Z.of_nat nf + f)
                           / inject_Z (10 ^ Z.of_nat nf)))
      | (_, _, Some _) => None
      end
  end.

(** Lines 832-837: strip, then convert; empty or malformed gives 0. *)
Definition parse_top_value (raw_top_value : string) : Q :=
  let clean_val := strip_non_numeric raw_top_value in
  match clean_val with
  | EmptyString => 0%Q
  | _ => match py_float clean_val with
         | Some v => v
         | None => 0%Q
         end
  end.

End TopValue.
Export TopValue.

(** ** Data model *)

(** A contour, through what the source reads of it:
    [cv2.boundingRect] and [cv2.contourArea]. *)
Record Contour := {
  cnt_x : Z; cnt_y : Z; cnt_w : Z; cnt_h : Z;
  cnt_area : Q
}.

(** A bar position as returned to the caller (the dictionary without its
    ['cnt'] key). *)
Record BarPosition := {
  center_x : Z; center_y : Z; y_top : Z;
  bbox : Z * Z * Z * Z;
  bar_type : string
}.

(** A bar position inside the detector: the dictionary with ['cnt']. *)
Record BarItem := { item_pos : BarPosition; item_cnt : Contour }.

(** One line segment of [cv2.HoughLinesP]: [x1, y1, x2, y2]. *)
Record Segment := { seg_x1 : Z; seg_y1 : Z; seg_x2 : Z; seg_y2 : Z }.

(** One element of ["X-axis"] and the answer of the label source, typed
    as their contract states them. *)
Record Label := { label : string; has_bar : bool }.
Record SemanticData := { X_axis : list Label; Y_axisTopValue : string }.

(** A value of [day_value_map]: [{"minutes": _, "pixels": _}]. *)
Record Entry := { minutes : Q; pixels : Z }.

(** ** External libraries *)

(** OpenCV, PIL and NumPy as the source calls them.  Each contour finder
    stands for the thresholding, the morphology and [cv2.findContours]
    of one detector; [hough_lines_p] for grey conversion, the optional
    closing, [cv2.Canny] and [cv2.HoughLinesP] ([None] when it finds no
    line). *)
Class Vision (Image : Type) := {
  (* img.shape[0] and img.shape[1] *)
  img_height : Image -> Z;
  img_width : Image -> Z;
  (* img[top:bottom, 0:image_width]: the rows top .. bottom - 1, every column *)
  crop_rows : Image -> Z -> Z -> Image;
  (* img[top:bottom, 0:image_width] = patch *)
  paste_rows : Image -> Z -> Z -> Image -> Image;
  (* cv2.imread, and Image.open of PIL; None when the file cannot be decoded *)
  cv2_imread : string -> option Image;
  pil_open : string -> option Image;
  (* cv2.imwrite to a fresh temporary file: its path *)
  cv2_imwrite_temp : Image -> string;
  find_contours_ios : Image -> list Contour;
  find_contours_dark : Image -> list Contour;
  find_contours_light : Image -> list Contour;
  (* image, Canny thresholds, use_morphology, threshold, minLineLength,
     maxLineGap *)
  hough_lines_p :
    Image -> Z * Z -> bool -> Z -> Z -> Z -> option (list Segment);
  (* the rectangles, dots and numbers of _draw_final_bars *)
  draw_bars : Image -> list BarItem -> string -> list Contour -> Image;
  (* np.std, which is never negative *)
  np_std : list Z -> Q;
  np_std_nonneg : forall l, (0 <= np_std l)%Q
}.

(** The generative model behind [SinglePromptGraphExtractor]:
    [genai_configure] tells whether the client can be set up with a key,
    [gemini_extract] is the call followed by the parsing of its answer. *)
Class Gemini (Image : Type) := {
  genai_configure : string -> bool;
  gemini_extract : string -> Image -> SemanticData
}.

(** ** Call log *)

(** The calls the pipeline makes to its stages, each with the argument
    it receives. *)
Inductive Call (Image : Type) :=
| CallLoadImage (image_path : string)
| CallFindGraphArea (img : Image)
| CallExtractGraphData (img : Image)
| CallDetectIos (img : Image)
| CallDetectAndroidDark (img : Image)
| CallDetectAndroidLight (img : Image).
Arguments CallLoadImage {Image} _.
Arguments CallFindGraphArea {Image} _.
Arguments CallExtractGraphData {Image} _.
Arguments CallDetectIos {Image} _.
Arguments CallDetectAndroidDark {Image} _.
Arguments CallDetectAndroidLight {Image} _.

(** A computation that records the calls it makes, in order. *)
Definition Traced (Image A : Type) : Type := (A * list (Call Image))%type.

Definition tret {Image A} (a : A) : Traced Image A := (a, []).
Definition tbind {Image A B} (m : Traced Image A) (f : A -> Traced Image B)
  : Traced Image B :=
  let '(a, l1) := m in
  let '(b, l2) := f a in
  (b, l1 ++ l2).
Definition traced {Image A} (c : Call Image) (a : A) : Traced Image A :=
  (a, [c]).
Definition value {Image A} (m : Traced Image A) : A := fst m.
Definition calls {Image A} (m : Traced Image A) : list (Call Image) := snd m.

Notation "'let*' x ':=' m 'in' k" := (tbind m (fun x => k))
  (at level 10, x name, m at level 100, k at level 200).

(** ** Bar detector *)
Module Bars.
Section Detectors.
Context {Image : Type} `{V : Vision Image}.

(** Lines 73-95.  The second component is the set of reclaimed
    contours used to colour them. *)
Definition _process_contours_to_positions
    (final_contours : list Contour) (detection_type : string)
    (reclaimed_contours_data : list Contour)
  : list BarItem * list Contour :=
  (map (fun contour =>
          let x := cnt_x contour in
          let y := cnt_y contour in
          let w := cnt_w contour in
          let h := cnt_h contour in
          {| item_pos :=
               {| center_x := py_int (inject_Z x + inject_Z w / 2);
                  center_y := py_int (inject_Z y + inject_Z h / 2);
                  y_top := y;
                  bbox := (x, y, w, h);
                  bar_type := detection_type |};
             item_cnt := contour |})
       final_contours,
   reclaimed_contours_data).

(** Lines 100-112. *)
Definition detect_ios_bars (image : Image) : list BarItem :=
  let contours_ios := find_contours_ios image in
  let valid_ios :=
    List.filter (fun c => Qltb 300 (cnt_area c)) contours_ios in
  if (3 <=? length valid_ios)%nat
  then fst (_process_contours_to_positions valid_ios "iOS" [])
  else [].

(** Lines 137-147 and 262-272: drop the contour of largest area when
    it covers more than 80% of the image (a decoded image has a positive
    area, so the quotient is defined). *)
Fixpoint argmax_from (i : nat) (best_i : nat) (best : Q) (l : list Q) : nat :=
  match l with
  | [] => best_i
  | a :: l' =>
      if Qltb best a then argmax_from (S i) i a l'
      else argmax_from (S i) best_i best l'
  end.

Definition np_argmax (l : list Q) : nat :=
  match l with
  | [] => 0%nat
  | a :: l' => argmax_from 1 0 a l'
  end.

Fixpoint remove_index {A} (i : nat) (l : list A) : list A :=
  match l, i with
  | [], _ => []
  | _ :: l', O => l'
  | a :: l', S i' => a :: remove_index i' l'
  end.

Definition drop_frame (total_area : Z) (contours : list Contour)
  : list Contour :=
  match contours with
  | [] => contours
  | c0 :: rest =>
      let areas := map cnt_area contours in
      let max_area := fold_left py_max (map cnt_area rest) (cnt_area c0) in
      let max_area_contour_index := np_argmax areas in
      if Qltb (8 # 10) (max_area / inject_Z total_area)
      then remove_index max_area_contour_index contours
      else contours
  end.

(** The dictionary of line 168, with the fields read later. *)
Record DarkItem := {
  d_cnt : Contour; d_bottom : Z; d_width : Z;
  d_reason : option string
}.

Definition dark_item (img_width : Z) (cnt : Contour) : DarkItem :=
  let w := cnt_w cnt in
  let h := cnt_h cnt in
  let reason :=
    if (h <? 5) || (w <? 5) || Qltb (inject_Z img_width * (9 # 10)) (inject_Z w)
    then Some "Size"
    else if Qltb (inject_Z h * (25 # 10)) (inject_Z w)
         then Some "Ratio"
         else None in
  {| d_cnt := cnt; d_bottom := cnt_y cnt + h; d_width := w;
     d_reason := reason |}.

Definition is_suspect (d : DarkItem) : bool :=
  match d_reason d with Some _ => true | None => false end.

(** Lines 185-193: rows of candidates whose bottoms are less than 30
    pixels apart from the previous member. *)
Fixpoint group_rows (current_row : list DarkItem) (last_bottom : Z)
    (candidates : list DarkItem) : list (list DarkItem) :=
  match candidates with
  | [] => [current_row]
  | c :: rest =>
      if d_bottom c - last_bottom <? 30
      then group_rows (current_row ++ [c]) (d_bottom c) rest
      else current_row :: group_rows [c] (d_bottom c) rest
  end.

Definition row_width (r : list DarkItem) : Q :=
  inject_Z (sum_Z (map d_width r)).

(** Lines 211 and 224. *)
Definition width_ok (median_width : Q) (w : Z) : bool :=
  Qle_bool (Qabs (inject_Z w - median_width))
           (py_max 12 (median_width * (1 # 2))).

(** Line 225. *)
Definition baseline_ok (baseline_y : Q) (bottom : Z) : bool :=
  Qle_bool (Qabs (inject_Z bottom - baseline_y)) 30.

(** The state of [detect_android_dark_bars] when it reaches line 200:
    the baseline row and the suspects. *)
Record DarkStage := {
  best_row : list DarkItem;
  suspect_contours : list DarkItem
}.

(** Lines 118-198; [None] stands for the two early [return [], []].
    [RANGES] has the single entry ["Dark"], so its loop body runs
    once. *)
Definition dark_stage (image : Image) : option DarkStage :=
  let img_width := img_width image in
  let total_area := img_height image * img_width in
  let contours := find_contours_dark image in
  let filtered_contours := drop_frame total_area contours in
  let items := map (dark_item img_width) filtered_contours in
  let suspects := List.filter is_suspect items in
  let candidates := List.filter (fun d => negb (is_suspect d)) items in
  let best_candidates :=
    if (3 <=? length candidates)%nat then candidates else [] in
  if (length best_candidates <? 3)%nat then None
  else
    match sort_by d_bottom best_candidates with
    | [] => None
    | c0 :: rest =>
        let rows := group_rows [c0] (d_bottom c0) rest in
        match rows with
        | [] => None
        | r0 :: rows' =>
            match py_max_by row_width r0 rows' with
            | [] => None
            | row => Some {| best_row := row; suspect_contours := suspects |}
            end
        end
    end.

Definition median_width (st : DarkStage) : Q :=
  np_median (map d_width (best_row st)).
Definition baseline_y (st : DarkStage) : Q :=
  np_median (map d_bottom (best_row st)).

(** Lines 205-212. *)
Definition kept_of_row (st : DarkStage) : list DarkItem :=
  List.filter (fun item => width_ok (median_width st) (d_width item))
              (best_row st).

(** Lines 217-229. *)
Definition reclaimed_contours_data (st : DarkStage) : list DarkItem :=
  List.filter
    (fun item =>
       let is_width_ok := width_ok (median_width st) (d_width item) in
       let is_baseline_ok := baseline_ok (baseline_y st) (d_bottom item) in
       is_width_ok && is_baseline_ok)
    (suspect_contours st).

Definition final_contours (st : DarkStage) : list Contour :=
  map d_cnt (kept_of_row st) ++ map d_cnt (reclaimed_contours_data st).

(** Lines 115-234. *)
Definition detect_android_dark_bars (image : Image)
  : list BarItem * list Contour :=
  match dark_stage image with
  | None => ([], [])
  | Some st =>
      _process_contours_to_positions
        (final_contours st) "Android"
        (map d_cnt (reclaimed_contours_data st))
  end.

(** Lines 237-320. *)
Record Dome := { dome_cnt : Contour; dome_center_x : Z; dome_top_y : Z }.

Definition is_dome (img_height img_width : Z) (cnt : Contour) : bool :=
  let y := cnt_y cnt in
  let w := cnt_w cnt in
  let h := cnt_h cnt in
  let area := cnt_area cnt in
  let aspect_ratio := if 0 <? h then (inject_Z w / inject_Z h)%Q else 0%Q in
  (* a decoded image has img_height > 0, so this division is defined *)
  let relative_y := (inject_Z y / inject_Z img_height)%Q in
  if Qltb area 100 then false
  else if Qltb aspect_ratio 2 || Qltb 10 aspect_ratio then false
  else if h <? 5 then false
  else if Qltb (9 # 10) relative_y then false
  else if (w <? 10) || Qltb (inject_Z img_width * (3 # 10)) (inject_Z w)
       then false
       else true.

Definition detect_android_light_bars (image : Image) : list BarItem :=
  let img_height := img_height image in
  let img_width := img_width image in
  let total_area := img_height * img_width in
  let contours := find_contours_light image in
  let filtered_contours := drop_frame total_area contours in
  let dome_candidates :=
    map (fun cnt =>
           {| dome_cnt := cnt;
              dome_center_x := cnt_x cnt + cnt_w cnt / 2;
              dome_top_y := cnt_y cnt |})
        (List.filter (is_dome img_height img_width) filtered_contours) in
  if (3 <=? length dome_candidates)%nat
  then
    map (fun d =>
           {| item_pos :=
                {| center_x := dome_center_x d;
                   center_y := dome_top_y d;
                   y_top := dome_top_y d;
                   bbox := (cnt_x (dome_cnt d), cnt_y (dome_cnt d),
                            cnt_w (dome_cnt d), cnt_h (dome_cnt d));
                   bar_type := "Android-Light" |};
              item_cnt := dome_cnt d |})
        (sort_by dome_center_x dome_candidates)
  else [].

(** Lines 32-70.  [bar_positions.sort] sorts the caller's list in
    place, so the sorted list is returned next to the drawing. *)
Definition _draw_final_bars (image : Image) (bar_positions : list BarItem)
    (detection_type : string) (reclaimed_contours_bytes : list Contour)
  : Image * list BarItem :=
  let sorted := sort_by (fun b => center_x (item_pos b)) bar_positions in
  (draw_bars image sorted detection_type reclaimed_contours_bytes, sorted).

(** What the fallback chain of lines 334-360 settles. *)
Record Selection := {
  final_positions : list BarItem;
  detection_type : string;
  reclaimed_contours_bytes : list Contour
}.

Definition select_variant (image : Image) : Traced Image Selection :=
  let* bar_positions_ios := traced (CallDetectIos image) (detect_ios_bars image) in
  match bar_positions_ios with
  | _ :: _ =>
      tret {| final_positions := bar_positions_ios;
              detection_type := "iOS";
              reclaimed_contours_bytes := [] |}
  | [] =>
      let* dark :=
        traced (CallDetectAndroidDark image)
               (detect_android_dark_bars image) in
      let '(bar_positions_android_dark, reclaimed) := dark in
      if (3 <=? length bar_positions_android_dark)%nat
      then tret {| final_positions := bar_positions_android_dark;
                   detection_type := "Android";
                   reclaimed_contours_bytes := reclaimed |}
      else
        let* bar_positions_android_light :=
          traced (CallDetectAndroidLight image)
                 (detect_android_light_bars image) in
        match bar_positions_android_light with
        | _ :: _ =>
            tret {| final_positions := bar_positions_android_light;
                    detection_type := "Android-Light";
                    reclaimed_contours_bytes := [] |}
        | [] =>
            tret {| final_positions := [];
                    detection_type := "None";
                    reclaimed_contours_bytes := [] |}
        end
  end.

(** Lines 325-371. *)
Definition detect_bars_positions (image : Image)
  : Traced Image (list BarPosition * Image) :=
  let* sel := select_variant image in
  let '(final_debug_image, drawn_positions) :=
    _draw_final_bars image (final_positions sel) (detection_type sel)
                     (reclaimed_contours_bytes sel) in
  let cleaned_final_positions := map item_pos drawn_positions in
  tret (cleaned_final_positions, final_debug_image).

End Detectors.
End Bars.
Export Bars.

(** ** Grid detector *)
Module Grid.
Section GridDetector.
Context {Image : Type} `{V : Vision Image}.

(** [int(np.mean(current_cluster))]. *)
Definition mean_int (current_cluster : list Z) : Z :=
  py_int (inject_Z (sum_Z current_cluster)
          / inject_Z (Z.of_nat (length current_cluster))).

(** The loop of lines 566-575. *)
Fixpoint cluster_positions (current_cluster : list Z) (last_pos : Z)
    (positions : list Z) : list Z :=
  match positions with
  | [] => [mean_int current_cluster]
  | pos :: rest =>
      if Z.abs (pos - last_pos) <? 10
      then cluster_positions (current_cluster ++ [pos]) pos rest
      else mean_int current_cluster :: cluster_positions [pos] pos rest
  end.

(** Lines 557-576. *)
Definition _cluster_lines (lines : list Segment) (orientation : string)
  : list Z :=
  let key := if String.eqb orientation "horizontal" then seg_y1 else seg_x1 in
  match sort_by key lines with
  | [] => []
  | l0 :: rest => cluster_positions [key l0] (key l0) (map key rest)
  end.

Record GridData := { horizontal : list Z; vertical : list Z }.

(** Lines 582-645. *)
Definition _find_graph_grid_internal (img : Image)
    (canny_thresholds : Z * Z) (use_morphology : bool)
    (hough_params : option (gmap string Z)) : GridData :=
  let w := img_width img in
  let default_hough : gmap string Z :=
    <["threshold" := 20]>
      (<["minLineLength" := w / 10]> (<["maxLineGap" := 30]> ∅)) in
  let default_hough :=
    match hough_params with
    | Some params => params ∪ default_hough
    | None => default_hough
    end in
  match hough_lines_p img canny_thresholds use_morphology
          (default 0 (default_hough !! "threshold"))
          (default 0 (default_hough !! "minLineLength"))
          (default 0 (default_hough !! "maxLineGap")) with
  | None => {| horizontal := []; vertical := [] |}
  | Some lines =>
      let is_h := fun l => Z.abs (seg_y1 l - seg_y2 l) <? 10 in
      let is_v := fun l => negb (is_h l) && (Z.abs (seg_x1 l - seg_x2 l) <? 10) in
      {| horizontal := _cluster_lines (List.filter is_h lines) "horizontal";
         vertical := _cluster_lines (List.filter is_v lines) "vertical" |}
  end.

Record Strategy := {
  name : string; canny : Z * Z; morph : bool;
  hough : option (gmap string Z)
}.

Definition strategies (image_width : Z) : list Strategy :=
  [ {| name := "Pass 1: Standard"; canny := (50, 150); morph := false;
       hough := None |};
    {| name := "Pass 2: Sensitive"; canny := (20, 60); morph := false;
       hough := None |};
    {| name := "Pass 3: Dark Mode"; canny := (5, 25); morph := false;
       hough := None |};
    {| name := "Pass 4: Android/Dotted"; canny := (10, 30); morph := true;
       hough := Some (<["minLineLength" := image_width / 20]>
                        (<["maxLineGap" := 60]> ∅)) |} ].

Definition MIN_SPACING : Z := 25.
Definition MAX_LINES_IN_CLUSTER : nat := 9.
Definition DELTA_TOLERANCE : Z := 6.

(** Lines 712-719: extend the running cluster over the later lines. *)
Fixpoint extend_cluster (delta : Z) (current_cluster : list Z)
    (current_line : Z) (later : list Z) : list Z :=
  match later with
  | [] => current_cluster
  | next_line_candidate :: later' =>
      let expected_line := current_line + delta in
      if Z.abs (next_line_candidate - expected_line) <? DELTA_TOLERANCE
      then extend_cluster delta (current_cluster ++ [next_line_candidate])
                          next_line_candidate later'
      else if expected_line + DELTA_TOLERANCE <? next_line_candidate
           then current_cluster
           else extend_cluster delta current_cluster current_line later'
  end.

(** Line 728. *)
Definition base_score (current_cluster : list Z) : Q :=
  let std_dev := np_std (np_diff current_cluster) in
  let cubed := Z.of_nat (length current_cluster) ^ 3 * 100 in
  (inject_Z cubed / (std_dev + (1 # 2)))%Q.

(** Line 731. *)
Definition cluster_bottom_relative (image_height : Z)
    (current_cluster : list Z) : Q :=
  let bottom := List.last current_cluster 0 in
  (inject_Z bottom / inject_Z image_height)%Q.

(** Lines 734-743. *)
Definition location_multiplier (image_height : Z)
    (current_cluster : list Z) : Q :=
  let rel := cluster_bottom_relative image_height current_cluster in
  if Qltb (75 # 100) rel then (1 # 10)
  else if Qltb (65 # 100) rel then (8 # 10)
  else (12 # 10).

(** Line 745. *)
Definition final_score (image_height : Z) (current_cluster : list Z) : Q :=
  (base_score current_cluster
   * location_multiplier image_height current_cluster)%Q.

(** The dictionary of lines 749-755, without its strings for the
    log. *)
Record Candidate := { cluster : list Z; score : Q; pass_name : string }.

Definition Best : Type := (option Candidate * Q)%type.

(** Lines 703-755, for one [line_start]. *)
Fixpoint scan_next (image_height : Z) (pass : string) (line_start : Z)
    (later : list Z) (best : Best) : Best :=
  match later with
  | [] => best
  | line_next :: later' =>
      let delta := line_next - line_start in
      let best' :=
        if (MIN_SPACING <? delta) && (delta <? 300) then
          let current_cluster :=
            extend_cluster delta [line_start; line_next] line_next later' in
          if (3 <=? length current_cluster)%nat then
            if (MAX_LINES_IN_CLUSTER <? length current_cluster)%nat
            then best
            else
              let s := final_score image_height current_cluster in
              if Qltb (snd best) s
              then (Some {| cluster := current_cluster; score := s;
                            pass_name := pass |}, s)
              else best
          else best
        else best in
      scan_next image_height pass line_start later' best'
  end.

(** Lines 698-755. *)
Fixpoint scan_start (image_height : Z) (pass : string)
    (lines_sorted : list Z) (best : Best) : Best :=
  match lines_sorted with
  | [] => best
  | line_start :: later =>
      let Y_MIN_BOUND := (inject_Z image_height * (10 # 100))%Q in
      let Y_MAX_BOUND := (inject_Z image_height * (98 # 100))%Q in
      let best' :=
        if Qltb Y_MIN_BOUND (inject_Z line_start)
           && Qltb (inject_Z line_start) Y_MAX_BOUND
        then scan_next image_height pass line_start later best
        else best in
      scan_start image_height pass later best'
  end.

(** One pass of the loop of lines 679-758: its best cluster, if any. *)
Definition run_pass (img : Image) (s : Strategy) : option Candidate :=
  let grid_data :=
    _find_graph_grid_internal img (canny s) (morph s) (hough s) in
  let lines_sorted := sort_by (fun y => y) (horizontal grid_data) in
  if (length lines_sorted <? 3)%nat then None
  else fst (scan_start (img_height img) (name s) lines_sorted (None, 0%Q)).

(** The dictionary [find_graph_area] returns; the lists of all lines
    seen, kept for debugging, are left out. *)
Record GridInfo := {
  grid_y_top : option Z;
  grid_y_bottom : option Z;
  grid_lines : list Z;
  avg_delta : Q
}.

(** Lines 650-794. *)
Definition find_graph_area (img : Image) : GridInfo :=
  let all_passes_candidates :=
    omap (run_pass img) (strategies (img_width img)) in
  match all_passes_candidates with
  | [] =>
      {| grid_y_top := None; grid_y_bottom := None; grid_lines := [];
         avg_delta := 0 |}
  | c0 :: rest =>
      let best_candidate := py_max_by score c0 rest in
      let best_cluster := cluster best_candidate in
      {| grid_y_top := Some (fold_right Z.min (hd 0 best_cluster) best_cluster);
         grid_y_bottom := Some (fold_right Z.max (hd 0 best_cluster) best_cluster);
         grid_lines := best_cluster;
         avg_delta := np_median (np_diff best_cluster) |}
  end.

End GridDetector.
End Grid.
Export Grid.

(** ** Semantic label source *)
Module Labels.

(** Lines 11-22. *)
Definition MOCK_GEMINI_OUTPUT : SemanticData :=
  {| X_axis :=
       [ {| label := "שבת"; has_bar := false |};
         {| label := "שישי"; has_bar := false |};
         {| label := "חמישי"; has_bar := false |};
         {| label := "רביעי"; has_bar := false |};
         {| label := "שלישי"; has_bar := true |};
         {| label := "שני"; has_bar := true |};
         {| label := "ראשון"; has_bar := true |} ];
     Y_axisTopValue := "240" |}.

(** ASCII white space: what [str.strip] removes from ASCII text. *)
Definition is_space (c : ascii) : bool :=
  let n := nat_of_ascii c in
  ((9 <=? n) && (n <=? 13) || (28 <=? n) && (n <=? 32))%nat.

Fixpoint is_blank (s : string) : bool :=
  match s with
  | EmptyString => true
  | String c s' => is_space c && is_blank s'
  end.

Section Extractor.
Context {Image : Type} `{G : Gemini Image}.

(** Lines 379-394: the mock is used without a key, with a blank key,
    and when the client cannot be configured. *)
Definition use_mock (google_api_key : option string) : bool :=
  match google_api_key with
  | None => true
  | Some k => is_blank k || negb (genai_configure k)
  end.

(** Lines 495-517. *)
Definition extract_graph_data (google_api_key : option string)
    (image : Image) : SemanticData :=
  match google_api_key with
  | Some k =>
      if use_mock google_api_key then MOCK_GEMINI_OUTPUT
      else gemini_extract k image
  | None => MOCK_GEMINI_OUTPUT
  end.
End Extractor.

End Labels.
Export Labels.

(** ** Compositor *)
Module Compositor.

(** Lines 840-841.  The conditional expression evaluates its
    condition first and the quotient only when the condition holds;
    [None] is the [ZeroDivisionError] of the quotient. *)
Definition scale_factor (max_value_minutes : Q) (pixel_span : Z)
  : option Q :=
  if (0 <? pixel_span) && Qltb 0 max_value_minutes
  then py_truediv max_value_minutes pixel_span
  else Some 0%Q.

(** Lines 821-822. *)
Definition crop_window (image_height max_line_y zero_line_y : Z) : Z * Z :=
  (Z.max 0 (max_line_y - 50), Z.min image_height (zero_line_y + 100)).

(** The body of the loop of lines 858-889: the state is [bar_index]
    and [day_value_map].  The numbers are exact rationals here;
    [Compositor64] has the same loop on the numbers of the program. *)
Definition map_label (zero_line_y crop_top : Z) (scale_minutes_per_px : Q)
    (bars_rtl : list BarPosition)
    (st : nat * gmap string Entry) (label_obj : Label)
  : nat * gmap string Entry :=
  let '(bar_index, day_value_map) := st in
  let day_name := label label_obj in
  let '(calculated_minutes, bar_pixel_height, bar_index') :=
    if has_bar label_obj then
      match bars_rtl !! bar_index with
      | Some current_bar =>
          let bar_top_y_cropped := y_top current_bar in
          let bar_top_y_normalized := bar_top_y_cropped + crop_top in
          let bar_pixel_height := zero_line_y - bar_top_y_normalized in
          ((inject_Z bar_pixel_height * scale_minutes_per_px)%Q,
           bar_pixel_height, S bar_index)
      | None => (0%Q, 0, bar_index)
      end
    else (0%Q, 0, bar_index) in
  (bar_index',
   <[day_name := {| minutes := py_round1 calculated_minutes;
                    pixels := bar_pixel_height |}]> day_value_map).

(** Lines 854-889. *)
Definition walk_labels (zero_line_y crop_top : Z) (scale_minutes_per_px : Q)
    (bars_rtl : list BarPosition) (labels_rtl : list Label)
  : nat * gmap string Entry :=
  fold_left (map_label zero_line_y crop_top scale_minutes_per_px bars_rtl)
            labels_rtl (0%nat, ∅).

Definition build_day_value_map (zero_line_y crop_top : Z)
    (scale_minutes_per_px : Q) (bars_rtl : list BarPosition)
    (labels_rtl : list Label) : gmap string Entry :=
  snd (walk_labels zero_line_y crop_top scale_minutes_per_px bars_rtl
                   labels_rtl).

End Compositor.
Export Compositor.

(** ** Binary64 *)

(** The numbers of the compositor as Python has them: an [int], or a
    [float], which is an IEEE 754 binary64 value with its infinities,
    its signed zeros and NaN.  Operations on floats round to nearest,
    ties to even.  [Compositor] above works on exact rationals;
    [Compositor64] below is the same code on these numbers. *)
Module Binary64.

Definition prec : Z := 53.
Definition emax : Z := 1024.

Inductive PyNumber :=
| NInt (n : Z)
| NFloat (x : spec_float).

(** The double nearest to [n / d], with the sign [s]: the conversion
    of a decimal to a float. *)
Definition b64_of_ratio (s : bool) (n d : positive) : spec_float :=
  let '(mz, ez, lz) := SFdiv_core_binary prec emax (Zpos n) 0 (Zpos d) 0 in
  binary_round_aux prec emax s mz ez lz.

(** [float(s)] for the decimal that [s] writes. *)
Definition b64_of_Q (q : Q) : spec_float :=
  match Qnum q with
  | Z0 => S754_zero false
  | Zpos n => b64_of_ratio false n (Qden q)
  | Zneg n => b64_of_ratio true n (Qden q)
  end.

(** The magnitude [m * 2^e] of a finite double, exactly. *)
Definition b64_abs_Q (m : positive) (e : Z) : Q :=
  match e with
  | Z0 => Zpos m # 1
  | Zpos k => Zpos (Pos.shiftl m (Npos k)) # 1
  | Zneg k => Zpos m # Pos.shiftl 1 (Npos k)
  end.

(** The conversion of an int operand of a mixed operation; [None] is
    [OverflowError]. *)
Definition b64_of_Z (n : Z) : option spec_float :=
  match binary_normalize prec emax n 0 false with
  | S754_infinity _ => None
  | x => Some x
  end.

(** [round(x, 1)] on a float: the decimal with one digit after the
    point nearest to the exact value of [x], a tie going to the even
    digit, then the double nearest to that decimal.  Zeros, infinities
    and NaN round to themselves, and so does a double whose exponent
    is not negative, which is an integer.  The [OverflowError] of
    [round], for a decimal too large for a double, cannot come: the
    doubles that are not integers are below [2^53]. *)
Definition b64_round1 (x : spec_float) : spec_float :=
  match x with
  | S754_finite s m e =>
      if 0 <=? e then x
      else
        match round_half_even (b64_abs_Q m e * 10) with
        | Zpos n => b64_of_ratio s n 10
        | _ => S754_zero s
        end
  | _ => x
  end.

(** [round(y, 1)]: an int rounds to itself. *)
Definition py_round1_number (y : PyNumber) : PyNumber :=
  match y with
  | NInt n => NInt n
  | NFloat x => NFloat (b64_round1 x)
  end.

(** [n * y] for an int [n]. *)
Definition py_mul_int (n : Z) (y : PyNumber) : option PyNumber :=
  match y with
  | NInt k => Some (NInt (n * k))
  | NFloat x =>
      match b64_of_Z n with
      | Some fn => Some (NFloat (SFmul prec emax fn x))
      | None => None
      end
  end.

(** [x / n] for an int [n]; [None] is [OverflowError] or
    [ZeroDivisionError]. *)
Definition py_truediv_int (x : PyNumber) (n : Z) : option PyNumber :=
  match x with
  | NFloat fx =>
      match b64_of_Z n with
      | Some fn =>
          if n =? 0 then None else Some (NFloat (SFdiv prec emax fx fn))
      | None => None
      end
  | NInt k =>
      if n =? 0 then None
      else
        match k with
        | Z0 => Some (NFloat (S754_zero (n <? 0)))
        | _ =>
            match b64_of_ratio (xorb (k <? 0) (n <? 0))
                               (Z.to_pos (Z.abs k)) (Z.to_pos (Z.abs n)) with
            | S754_infinity _ => None
            | r => Some (NFloat r)
            end
        end
  end.

(** [x > 0] and [x < 0]. *)
Definition py_gt0 (x : PyNumber) : bool :=
  match x with
  | NInt n => 0 <? n
  | NFloat fx => SFltb (S754_zero false) fx
  end.

Definition py_lt0 (x : PyNumber) : bool :=
  match x with
  | NInt n => n <? 0
  | NFloat fx => SFltb fx (S754_zero false)
  end.

End Binary64.
Export Binary64.

(** ** Compositor, in binary64 *)
Module Compositor64.

(** A value of [day_value_map]. *)
Record Entry64 := { minutes64 : PyNumber; pixels64 : Z }.

(** Lines 840-841: the quotient of a float and an int, or the int 0;
    [None] is an exception of the quotient. *)
Definition scale_factor64 (max_value_minutes : PyNumber) (pixel_span : Z)
  : option PyNumber :=
  if (0 <? pixel_span) && py_gt0 max_value_minutes
  then py_truediv_int max_value_minutes pixel_span
  else Some (NInt 0).

(** The body of the loop of lines 858-889; [None] is the
    [OverflowError] of the product, which ends the loop and the
    call. *)
Definition map_label64 (zero_line_y crop_top : Z)
    (scale_minutes_per_px : PyNumber) (bars_rtl : list BarPosition)
    (st : nat * gmap string Entry64) (label_obj : Label)
  : option (nat * gmap string Entry64) :=
  let '(bar_index, day_value_map) := st in
  let day_name := label label_obj in
  let computed :=
    if has_bar label_obj then
      match bars_rtl !! bar_index with
      | Some current_bar =>
          let bar_top_y_cropped := y_top current_bar in
          let bar_top_y_normalized := bar_top_y_cropped + crop_top in
          let bar_pixel_height := zero_line_y - bar_top_y_normalized in
          match py_mul_int bar_pixel_height scale_minutes_per_px with
          | Some calculated_minutes =>
              Some (calculated_minutes, bar_pixel_height, S bar_index)
          | None => None
          end
      | None => Some (NFloat (S754_zero false), 0, bar_index)
      end
    else Some (NFloat (S754_zero false), 0, bar_index) in
  match computed with
  | Some (calculated_minutes, bar_pixel_height, bar_index') =>
      Some (bar_index',
            <[day_name := {| minutes64 := py_round1_number calculated_minutes;
                             pixels64 := bar_pixel_height |}]>
              day_value_map)
  | None => None
  end.

(** Lines 854-889. *)
Fixpoint walk_from64 (zero_line_y crop_top : Z)
    (scale_minutes_per_px : PyNumber) (bars_rtl : list BarPosition)
    (st : nat * gmap string Entry64) (labels_rtl : list Label)
  : option (nat * gmap string Entry64) :=
  match labels_rtl with
  | [] => Some st
  | label_obj :: rest =>
      match map_label64 zero_line_y crop_top scale_minutes_per_px bars_rtl
                        st label_obj with
      | Some st' =>
          walk_from64 zero_line_y crop_top scale_minutes_per_px bars_rtl
                      st' rest
      | None => None
      end
  end.

Definition walk_labels64 (zero_line_y crop_top : Z)
    (scale_minutes_per_px : PyNumber) (bars_rtl : list BarPosition)
    (labels_rtl : list Label) : option (nat * gmap string Entry64) :=
  walk_from64 zero_line_y crop_top scale_minutes_per_px bars_rtl
              (0%nat, ∅) labels_rtl.

Definition build_day_value_map64 (zero_line_y crop_top : Z)
    (scale_minutes_per_px : PyNumber) (bars_rtl : list BarPosition)
    (labels_rtl : list Label) : option (gmap string Entry64) :=
  match walk_labels64 zero_line_y crop_top scale_minutes_per_px bars_rtl
                      labels_rtl with
  | Some st => Some (snd st)
  | None => None
  end.

End Compositor64.
Export Compositor64.

(** ** Responses *)

(** The dictionary of lines 911-920. *)
Record FullResult (Image : Type) := {
  res_target_day : string;
  res_minutes : Q;
  res_raw_max_value : Q;
  res_zero_line_y_original : Z;
  res_pixels_height : Z;
  res_scale_factor : Q;
  res_full_map : gmap string Entry;
  res_debug_image : Image
}.
Arguments res_target_day {Image} _.
Arguments res_minutes {Image} _.
Arguments res_raw_max_value {Image} _.
Arguments res_zero_line_y_original {Image} _.
Arguments res_pixels_height {Image} _.
Arguments res_scale_factor {Image} _.
Arguments res_full_map {Image} _.
Arguments res_debug_image {Image} _.

(** The dictionary of lines 971-979. *)
Record LegacyResult := {
  leg_day : string;
  leg_minutes : Q;
  leg_found : bool;
  leg_scale_min_per_px : Q;
  leg_max_val_y : Q
}.

(** What a call hands back: one of the dictionaries the source builds,
    or an exception that nothing catches. *)
Inductive Response (Image : Type) :=
| RespError (error : string)
| RespFull (r : FullResult Image)
| RespLegacy (r : LegacyResult)
| RespRaised (exn : string).
Arguments RespError {Image} _.
Arguments RespFull {Image} _.
Arguments RespLegacy {Image} _.
Arguments RespRaised {Image} _.

(** The record [{ error: string }], and nothing else. *)
Definition is_error_record {Image} (r : Response Image) : bool :=
  match r with RespError _ => true | _ => false end.

(** ** The pipeline and the service *)
Module Service.
Section Pipeline.
Context {Image : Type} `{V : Vision Image} `{G : Gemini Image}.

(** Lines 543-554. *)
Definition _load_image (path : string) : option Image :=
  match cv2_imread path with
  | Some img => Some img
  | None => pil_open path
  end.

(** Lines 797-920. *)
Definition calculate_minutes_for_day (image_path target_day : string)
    (google_api_key : option string) : Traced Image (Response Image) :=
  let* loaded := traced (CallLoadImage image_path) (_load_image image_path) in
  match loaded with
  | None => tret (RespError "Image could not be loaded")
  | Some img =>
      let image_height := img_height img in
      let* grid_info := traced (CallFindGraphArea img) (find_graph_area img) in
      match grid_y_bottom grid_info, grid_y_top grid_info with
      | Some zero_line_y, Some max_line_y =>
          let '(crop_top, crop_bottom) :=
            crop_window image_height max_line_y zero_line_y in
          let cropped_img := crop_rows img crop_top crop_bottom in
          let* semantic_data :=
            traced (CallExtractGraphData cropped_img)
                   (extract_graph_data google_api_key cropped_img) in
          let max_value_minutes :=
            parse_top_value (Y_axisTopValue semantic_data) in
          let pixel_span := zero_line_y - max_line_y in
          match scale_factor max_value_minutes pixel_span with
          | None => tret (RespRaised "ZeroDivisionError")
          | Some scale_minutes_per_px =>
              let* detected := detect_bars_positions cropped_img in
              let '(detected_bars_cropped, debug_img_cropped) := detected in
              let bars_rtl := sort_by_reverse center_x detected_bars_cropped in
              let day_value_map :=
                build_day_value_map zero_line_y crop_top scale_minutes_per_px
                                    bars_rtl (X_axis semantic_data) in
              let result_data := day_value_map !! target_day in
              let final_minutes :=
                match result_data with
                | Some e => minutes e
                | None => 0%Q
                end in
              tret (RespFull
                {| res_target_day := target_day;
                   res_minutes := final_minutes;
                   res_raw_max_value := max_value_minutes;
                   res_zero_line_y_original := zero_line_y;
                   res_pixels_height :=
                     match result_data with
                     | Some e => pixels e
                     | None => 0
                     end;
                   res_scale_factor := scale_minutes_per_px;
                   res_full_map := day_value_map;
                   res_debug_image :=
                     paste_rows img crop_top crop_bottom debug_img_cropped |})
          end
      | _, _ => tret (RespError "Failed to detect graph grid lines")
      end
  end.

(** [result.get(key, default)] for the keys [process_day] reads. *)
Definition get_target_day (result : Response Image) (dflt : string) : string :=
  match result with RespFull r => res_target_day r | _ => dflt end.
Definition get_minutes (result : Response Image) (dflt : Q) : Q :=
  match result with RespFull r => res_minutes r | _ => dflt end.
Definition get_full_map (result : Response Image)
    (dflt : gmap string Entry) : gmap string Entry :=
  match result with RespFull r => res_full_map r | _ => dflt end.
Definition get_scale_factor (result : Response Image) (dflt : Q) : Q :=
  match result with RespFull r => res_scale_factor r | _ => dflt end.
Definition get_raw_max_value (result : Response Image) (dflt : Q) : Q :=
  match result with RespFull r => res_raw_max_value r | _ => dflt end.

(** The argument of [process_day]: an array, a path, or anything
    else. *)
Inductive ImageInput :=
| InputArray (a : Image)
| InputPath (path : string)
| InputOther.

(** Lines 950-981, for a service built with [google_api_key]. *)
Definition process_day (google_api_key : option string)
    (image_input : ImageInput) (target_day : string)
  : Traced Image (Response Image) :=
  match image_input with
  | InputArray a =>
      let temp_path := cv2_imwrite_temp a in
      calculate_minutes_for_day temp_path target_day google_api_key
  | InputPath path =>
      let* result :=
        calculate_minutes_for_day path target_day google_api_key in
      match result with
      | RespRaised exn => tret (RespRaised exn)
      | _ =>
          tret (RespLegacy
            {| leg_day := get_target_day result target_day;
               leg_minutes := get_minutes result 0%Q;
               leg_found :=
                 Qltb 0 (get_minutes result 0%Q)
                 || bool_decide (is_Some (get_full_map result ∅ !! target_day));
               leg_scale_min_per_px := get_scale_factor result 0%Q;
               leg_max_val_y := get_raw_max_value result 0%Q |})
      end
  | InputOther => tret (RespError "Invalid image input")
  end.

End Pipeline.
End Service.
Export Service.

(** ** Synthetic images

    An executable implementation of the two interfaces, for images drawn
    from horizontal lines and filled blobs in the colour of one theme:
    the line finder returns the lines drawn, the contour finder of the
    picture's theme the blobs, and the other two contour finders nothing.
    There is no Gemini client, so the label source is the canned
    answer. *)
Module Synthetic.

Inductive Theme := Bright | Dark | Light.

Record Picture := {
  pic_theme : Theme;
  pic_height : Z;
  pic_width : Z;
  pic_lines : list Z;
  pic_blobs : list Contour
}.

Definition blobs_of (t : Theme) (p : Picture) : list Contour :=
  match t, pic_theme p with
  | Bright, Bright | Dark, Dark | Light, Light => pic_blobs p
  | _, _ => []
  end.

Definition line_segment (width y : Z) : Segment :=
  {| seg_x1 := 0; seg_y1 := y; seg_x2 := width - 1; seg_y2 := y |}.

Definition shift_blob (dy : Z) (c : Contour) : Contour :=
  {| cnt_x := cnt_x c; cnt_y := cnt_y c - dy; cnt_w := cnt_w c;
     cnt_h := cnt_h c; cnt_area := cnt_area c |}.

(** Rows [top] to [bottom - 1]: lines and blobs inside the window, in
    the coordinates of the window. *)
Definition crop (p : Picture) (top bottom : Z) : Picture :=
  {| pic_theme := pic_theme p;
     pic_height := bottom - top;
     pic_width := pic_width p;
     pic_lines :=
       map (fun y => y - top)
           (List.filter (fun y => (top <=? y) && (y <? bottom)) (pic_lines p));
     pic_blobs :=
       map (shift_blob top)
           (List.filter
              (fun c => (top <=? cnt_y c) && (cnt_y c + cnt_h c <=? bottom))
              (pic_blobs p)) |}.

(** Population standard deviation, to six decimals. *)
Definition std_approx (l : list Z) : Q :=
  match l with
  | [] => 0%Q
  | _ =>
      let n := Z.of_nat (length l) in
      let s := sum_Z l in
      let num := sum_Z (map (fun x => (n * x - s) ^ 2) l) in
      Z.sqrt (num * 10 ^ 12 / n ^ 3) # 1000000
  end.

Lemma std_approx_nonneg l : (0 <= std_approx l)%Q.
Proof.
  unfold std_approx. destruct l as [|a l]; [apply Qle_refl|].
  unfold Qle. cbn [Qnum Qden]. rewrite Z.mul_0_l, Z.mul_1_r.
  apply Z.sqrt_nonneg.
Qed.

(** A chart of 900 rows with gridlines at rows 100 to 500, two bars
    standing on the zero line and a third blob under it. *)
Definition week_chart : Picture :=
  {| pic_theme := Bright; pic_height := 900; pic_width := 800;
     pic_lines := [100; 200; 300; 400; 500];
     pic_blobs :=
       [ {| cnt_x := 600; cnt_y := 300; cnt_w := 40; cnt_h := 200;
            cnt_area := 8000 |};
         {| cnt_x := 500; cnt_y := 550; cnt_w := 40; cnt_h := 30;
            cnt_area := 1200 |};
         {| cnt_x := 400; cnt_y := 400; cnt_w := 40; cnt_h := 100;
            cnt_area := 4000 |} ] |}.

(** A chart of 1000 rows whose gridlines end 50 rows above the bottom
    edge. *)
Definition low_chart : Picture :=
  {| pic_theme := Bright; pic_height := 1000; pic_width := 800;
     pic_lines := [750; 850; 950];
     pic_blobs := [] |}.

(** A dark-theme crop, 550 rows: three bars on the baseline at row
    450 and two flat shapes the shape filter suspects, one as wide as
    the bars and one wider. *)
Definition dark_crop : Picture :=
  {| pic_theme := Dark; pic_height := 550; pic_width := 800;
     pic_lines := [];
     pic_blobs :=
       [ {| cnt_x := 100; cnt_y := 250; cnt_w := 40; cnt_h := 200;
            cnt_area := 8000 |};
         {| cnt_x := 200; cnt_y := 350; cnt_w := 40; cnt_h := 100;
            cnt_area := 4000 |};
         {| cnt_x := 300; cnt_y := 300; cnt_w := 42; cnt_h := 150;
            cnt_area := 6300 |};
         {| cnt_x := 400; cnt_y := 440; cnt_w := 40; cnt_h := 10;
            cnt_area := 400 |};
         {| cnt_x := 500; cnt_y := 440; cnt_w := 90; cnt_h := 10;
            cnt_area := 900 |} ] |}.

(** A picture without any line. *)
Definition blank : Picture :=
  {| pic_theme := Bright; pic_height := 600; pic_width := 800;
     pic_lines := []; pic_blobs := [] |}.

(** The files that can be read. *)
Definition disk (path : string) : option Picture :=
  if String.eqb path "week.png" then Some week_chart
  else if String.eqb path "low.png" then Some low_chart
  else if String.eqb path "blank.png" then Some blank
  else None.

#[export] Instance synthetic_vision : Vision Picture := {|
  img_height := pic_height;
  img_width := pic_width;
  crop_rows := crop;
  paste_rows := fun img _ _ _ => img;
  cv2_imread := disk;
  pil_open := fun _ => None;
  cv2_imwrite_temp := fun _ => "tmp.png";
  find_contours_ios := blobs_of Bright;
  find_contours_dark := blobs_of Dark;
  find_contours_light := blobs_of Light;
  hough_lines_p := fun img _ _ _ _ _ =>
    match pic_lines img with
    | [] => None
    | ys => Some (map (line_segment (pic_width img)) ys)
    end;
  draw_bars := fun img _ _ _ => img;
  np_std := std_approx;
  np_std_nonneg := std_approx_nonneg
|}.

#[export] Instance no_gemini : Gemini Picture := {|
  genai_configure := fun _ => false;
  gemini_extract := fun _ _ =>
    {| X_axis := []; Y_axisTopValue := "API_CALL_FAILED" |}
|}.

End Synthetic.
Import Synthetic.


(** * Properties *)

(** ** The definitions on small inputs *)

Example round1_down : py_round1 (12 # 100) = 1 # 10.
Proof. reflexivity. Qed.

Example round1_negative : py_round1 (-2996 # 100) = (-30)%Q.
Proof. reflexivity. Qed.

Example round1_tie_to_even :
  py_round1 (25 # 100) = 1 # 5 /\ py_round1 (75 # 100) = 4 # 5.
Proof. split; reflexivity. Qed.

Example int_truncates : py_int (7 # 2) = 3 /\ py_int (-7 # 2) = -3.
Proof. split; reflexivity. Qed.

Example top_value_plain : parse_top_value "240" = 240%Q.
Proof. reflexivity. Qed.

Example top_value_with_unit : parse_top_value "1.5k" = 3 # 2.
Proof. reflexivity. Qed.

Example top_value_sentinel : parse_top_value "JSON_PARSE_FAILED" = 0%Q.
Proof. reflexivity. Qed.

Example top_value_two_dots : parse_top_value "1.2.3" = 0%Q.
Proof. reflexivity. Qed.

Example top_value_lone_dot : parse_top_value "." = 0%Q.
Proof. reflexivity. Qed.

Example sort_is_stable :
  sort_by fst [(2, "a"); (1, "b"); (2, "c"); (1, "d")]
  = [(1, "b"); (1, "d"); (2, "a"); (2, "c")]
  /\ sort_by_reverse fst [(2, "a"); (1, "b"); (2, "c"); (1, "d")]
     = [(2, "a"); (2, "c"); (1, "b"); (1, "d")].
Proof. split; reflexivity. Qed.

Example median_of_four : np_median [40; 42; 40; 44] = 41%Q.
Proof. reflexivity. Qed.

Example cluster_lines_merges_neighbours :
  _cluster_lines
    [ {| seg_x1 := 0; seg_y1 := 204; seg_x2 := 90; seg_y2 := 204 |};
      {| seg_x1 := 0; seg_y1 := 100; seg_x2 := 90; seg_y2 := 101 |};
      {| seg_x1 := 5; seg_y1 := 199; seg_x2 := 80; seg_y2 := 199 |} ]
    "horizontal"
  = [100; 201].
Proof. reflexivity. Qed.

Example extend_cluster_stops_late :
  extend_cluster 100 [100; 200] 200 [250; 303; 350; 500; 600]
  = [100; 200; 303].
Proof. reflexivity. Qed.

Example grid_of_week_chart :
  find_graph_area week_chart
  = {| grid_y_top := Some 100; grid_y_bottom := Some 500;
       grid_lines := [100; 200; 300; 400; 500]; avg_delta := 100 |}.
Proof. vm_compute. reflexivity. Qed.

Example grid_of_blank :
  find_graph_area blank
  = {| grid_y_top := None; grid_y_bottom := None; grid_lines := [];
       avg_delta := 0 |}.
Proof. vm_compute. reflexivity. Qed.

Example mock_without_key :
  extract_graph_data None week_chart = MOCK_GEMINI_OUTPUT
  /\ extract_graph_data (Some "  ") week_chart = MOCK_GEMINI_OUTPUT.
Proof. split; reflexivity. Qed.

(** The products of the worked examples come out the same in binary64:
    the scale is the double nearest to 0.6, and 200, 100 and -50 pixels
    at that scale are exactly 120, 60 and -30 minutes. *)
Example worked_examples_in_binary64 :
  (240 / 400)%float = 0x1.3333333333333p-1%float
  /\ (200 * (240 / 400))%float = 120%float
  /\ (100 * (240 / 400))%float = 60%float
  /\ (-50 * (240 / 400))%float = (-30)%float.
Proof. repeat split; vm_compute; reflexivity. Qed.

(** ** Numerics *)

Lemma Qltb_lt (a b : Q) : Qltb a b = true <-> (a < b)%Q.
Proof.
  unfold Qltb. rewrite negb_true_iff.
  destruct (Qle_bool b a) eqn:E.
  - apply Qle_bool_iff in E. split; [discriminate | intros H; exfalso; lra].
  - split; [intros _ | reflexivity].
    destruct (Qlt_le_dec a b) as [H | H]; [exact H |].
    apply Qle_bool_iff in H. congruence.
Qed.

Lemma Qltb_ge (a b : Q) : Qltb a b = false <-> (b <= a)%Q.
Proof.
  unfold Qltb. rewrite negb_false_iff. apply Qle_bool_iff.
Qed.

Lemma py_max_Qmax (a b : Q) : (py_max a b == Qmax a b)%Q.
Proof.
  unfold py_max. destruct (Qltb a b) eqn:E.
  - apply Qltb_lt in E. symmetry. apply Q.max_r. lra.
  - apply Qltb_ge in E. symmetry. apply Q.max_l. exact E.
Qed.

(** ** Sorting keeps the elements *)

Section SortLength.
Context {A : Type} (key : A -> Z).

Lemma length_insert_asc x (l : list A) :
  length (insert_asc key x l) = S (length l).
Proof.
  induction l as [|y l IH]; simpl; [reflexivity|].
  destruct (key x <=? key y); simpl; [reflexivity | now rewrite IH].
Qed.

Lemma length_insert_desc x (l : list A) :
  length (insert_desc key x l) = S (length l).
Proof.
  induction l as [|y l IH]; simpl; [reflexivity|].
  destruct (key y <=? key x); simpl; [reflexivity | now rewrite IH].
Qed.

Lemma length_sort_by (l : list A) : length (sort_by key l) = length l.
Proof.
  induction l as [|x l IH]; simpl; [reflexivity|].
  now rewrite length_insert_asc, IH.
Qed.

Lemma length_sort_by_reverse (l : list A) :
  length (sort_by_reverse key l) = length l.
Proof.
  induction l as [|x l IH]; simpl; [reflexivity|].
  now rewrite length_insert_desc, IH.
Qed.
End SortLength.

(** ** The fallback chain of the bar detector *)

Section ChainFacts.
Context {Image : Type} `{V : Vision Image}.

Lemma detect_ios_bars_all_or_nothing (image : Image) :
  detect_ios_bars image = [] \/ (3 <= length (detect_ios_bars image))%nat.
Proof.
  unfold detect_ios_bars.
  destruct (3 <=? length _)%nat eqn:E; [right | now left].
  apply Nat.leb_le in E. simpl. now rewrite length_map.
Qed.

Lemma detect_android_light_bars_all_or_nothing (image : Image) :
  detect_android_light_bars image = []
  \/ (3 <= length (detect_android_light_bars image))%nat.
Proof.
  unfold detect_android_light_bars.
  destruct (3 <=? length _)%nat eqn:E; [right | now left].
  apply Nat.leb_le in E.
  now rewrite length_map, length_sort_by.
Qed.

Lemma nonempty_of_three {A} (l : list A) : (3 <= length l)%nat -> l <> [].
Proof. destruct l; simpl; [lia | discriminate]. Qed.

(** The four ways through the chain. *)
Lemma select_variant_cases (image : Image) :
  let ios := detect_ios_bars image in
  let dark := detect_android_dark_bars image in
  let light := detect_android_light_bars image in
  (ios <> [] /\
   select_variant image =
     ({| final_positions := ios; detection_type := "iOS";
         reclaimed_contours_bytes := [] |},
      [CallDetectIos image]))
  \/ (ios = [] /\ (3 <= length (fst dark))%nat /\
      select_variant image =
        ({| final_positions := fst dark; detection_type := "Android";
            reclaimed_contours_bytes := snd dark |},
         [CallDetectIos image; CallDetectAndroidDark image]))
  \/ (ios = [] /\ (length (fst dark) < 3)%nat /\ light <> [] /\
      select_variant image =
        ({| final_positions := light; detection_type := "Android-Light";
            reclaimed_contours_bytes := [] |},
         [CallDetectIos image; CallDetectAndroidDark image;
          CallDetectAndroidLight image]))
  \/ (ios = [] /\ (length (fst dark) < 3)%nat /\ light = [] /\
      select_variant image =
        ({| final_positions := []; detection_type := "None";
            reclaimed_contours_bytes := [] |},
         [CallDetectIos image; CallDetectAndroidDark image;
          CallDetectAndroidLight image])).
Proof.
  cbv zeta. unfold select_variant, traced, tbind, tret.
  destruct (detect_ios_bars image) as [|b bs] eqn:Eios.
  - right.
    destruct (detect_android_dark_bars image) as [dark rb] eqn:Edark.
    cbn [fst snd].
    destruct (3 <=? length dark)%nat eqn:E3.
    + left. apply Nat.leb_le in E3. split; [reflexivity |].
      split; [exact E3 | reflexivity].
    + right. apply Nat.leb_gt in E3.
      destruct (detect_android_light_bars image) as [|c cs] eqn:Elight.
      * right. split; [reflexivity |]. split; [exact E3 |].
        split; reflexivity.
      * left. split; [reflexivity |]. split; [exact E3 |].
        split; [discriminate | reflexivity].
  - left. split; [discriminate | reflexivity].
Qed.

Lemma select_variant_all_or_nothing (image : Image) :
  final_positions (value (select_variant image)) = []
  \/ (3 <= length (final_positions (value (select_variant image))))%nat.
Proof.
  destruct (select_variant_cases image)
    as [[Hn E] | [[Hi [Hd E]] | [[Hi [Hd [Hl E]]] | [Hi [Hd [Hl E]]]]]];
    rewrite E; unfold value; cbn [fst final_positions].
  - destruct (detect_ios_bars_all_or_nothing image); [contradiction | now right].
  - now right.
  - destruct (detect_android_light_bars_all_or_nothing image);
      [contradiction | now right].
  - now left.
Qed.

Lemma length_detect_bars_positions (image : Image) :
  length (fst (value (detect_bars_positions image)))
  = length (final_positions (value (select_variant image))).
Proof.
  unfold detect_bars_positions, value, tbind, tret, _draw_final_bars.
  destruct (select_variant image) as [sel log]. cbn [fst].
  now rewrite length_map, length_sort_by.
Qed.

(** Only detector calls on the image itself are logged. *)
Definition detector_call_on (image : Image) (c : Call Image) : Prop :=
  c = CallDetectIos image \/ c = CallDetectAndroidDark image
  \/ c = CallDetectAndroidLight image.

Lemma calls_detect_bars_positions (image : Image) :
  calls (detect_bars_positions image) = calls (select_variant image).
Proof.
  unfold detect_bars_positions, calls, tbind, tret, _draw_final_bars.
  destruct (select_variant image) as [sel log]. cbn [snd].
  apply app_nil_r.
Qed.

Lemma calls_select_variant_on (image : Image) :
  Forall (detector_call_on image) (calls (select_variant image)).
Proof.
  unfold detector_call_on.
  destruct (select_variant_cases image)
    as [[Hn E] | [[Hi [Hd E]] | [[Hi [Hd [Hl E]]] | [Hi [Hd [Hl E]]]]]];
    rewrite E; unfold calls; cbn [snd];
    repeat (apply List.Forall_cons; [tauto |]); apply List.Forall_nil.
Qed.
End ChainFacts.

(** C4: the bar detector tries the bright-bar (iOS) variant, then the
    dark-theme variant, then the light-theme variant, in that order.  The
    positions of a variant are the result only when it found at least
    three bars, no later variant is called once an earlier one has
    succeeded (the call log stops there), and when all three fail the
    result is the empty list with detection type "None". *)
Theorem detect_bars_fallback_chain {Image : Type} `{V : Vision Image}
    (image : Image) :
  let ios := detect_ios_bars image in
  let dark := fst (detect_android_dark_bars image) in
  let light := detect_android_light_bars image in
  let sel := value (select_variant image) in
  let log := calls (detect_bars_positions image) in
  ((3 <= length ios)%nat ->
     final_positions sel = ios /\ detection_type sel = "iOS"
     /\ log = [CallDetectIos image])
  /\ ((length ios < 3)%nat -> (3 <= length dark)%nat ->
     final_positions sel = dark /\ detection_type sel = "Android"
     /\ log = [CallDetectIos image; CallDetectAndroidDark image])
  /\ ((length ios < 3)%nat -> (length dark < 3)%nat -> (3 <= length light)%nat ->
     final_positions sel = light /\ detection_type sel = "Android-Light"
     /\ log = [CallDetectIos image; CallDetectAndroidDark image;
               CallDetectAndroidLight image])
  /\ ((length ios < 3)%nat -> (length dark < 3)%nat -> (length light < 3)%nat ->
     final_positions sel = [] /\ detection_type sel = "None"
     /\ log = [CallDetectIos image; CallDetectAndroidDark image;
               CallDetectAndroidLight image])
  /\ ((3 <= length (List.filter (fun c => Qltb 300 (cnt_area c))
                               (find_contours_ios image)))%nat ->
     log = [CallDetectIos image])
  /\ (final_positions sel = [] \/ (3 <= length (final_positions sel))%nat).
Proof.
  cbv zeta. rewrite calls_detect_bars_positions.
  assert (Hios3 : (3 <= length (List.filter (fun c => Qltb 300 (cnt_area c))
                                  (find_contours_ios image)))%nat ->
                  (3 <= length (detect_ios_bars image))%nat).
  { intros H. unfold detect_ios_bars.
    apply Nat.leb_le in H. rewrite H. simpl. rewrite length_map.
    now apply Nat.leb_le. }
  pose proof (select_variant_all_or_nothing image) as Hall.
  destruct (detect_ios_bars_all_or_nothing image) as [Hi0 | Hi3];
    destruct (detect_android_light_bars_all_or_nothing image) as [Hl0 | Hl3];
    destruct (select_variant_cases image)
      as [[Hn E] | [[Hi [Hd E]] | [[Hi [Hd [Hl E]]] | [Hi [Hd [Hl E]]]]]];
    try contradiction;
    try (exfalso; apply (nonempty_of_three _ Hi3); assumption);
    try (exfalso; apply (nonempty_of_three _ Hl3); assumption);
    rewrite E in *; unfold value, calls in *; cbn [fst snd final_positions
      detection_type] in *;
    try rewrite Hi0 in *; try rewrite Hl0 in *; simpl length in *;
    repeat split; intros; try lia; try reflexivity; try assumption;
    try (exfalso; apply Hn; reflexivity).
Qed.

(** C9: the list of bar positions [detect_bars_positions] returns is
    empty or has at least three elements; it never has exactly one or
    two. *)
Theorem detect_bars_positions_all_or_nothing {Image : Type} `{V : Vision Image}
    (image : Image) :
  let n := length (fst (value (detect_bars_positions image))) in
  (n = 0 \/ 3 <= n)%nat /\ n <> 1%nat /\ n <> 2%nat.
Proof.
  cbv zeta. rewrite length_detect_bars_positions.
  destruct (select_variant_all_or_nothing image) as [H | H].
  - rewrite H. simpl. repeat split; [now left | discriminate | discriminate].
  - repeat split; [now right | lia | lia].
Qed.

(** ** Reclaiming suspects in the dark-theme variant *)

(** C5: once the dark-theme variant has its baseline row, a suspect
    contour is reclaimed if and only if its width is within
    max(12, half the median row width) of the median row width and its
    bottom is within 30 pixels of the median row baseline; a suspect
    whose width deviates by more than that tolerance is never reclaimed,
    whatever its baseline.  The variant's result is made of the row
    members kept and of the reclaimed suspects. *)
Theorem dark_reclaim_gate {Image : Type} `{V : Vision Image}
    (image : Image) (st : DarkStage) (s : DarkItem) :
  dark_stage image = Some st ->
  In s (suspect_contours st) ->
  let tolerance := Qmax 12 (median_width st * (1 # 2)) in
  let width_dev := Qabs (inject_Z (d_width s) - median_width st) in
  let baseline_dev := Qabs (inject_Z (d_bottom s) - baseline_y st) in
  (In s (reclaimed_contours_data st)
   <-> (width_dev <= tolerance)%Q /\ (baseline_dev <= 30)%Q)
  /\ ((tolerance < width_dev)%Q -> ~ In s (reclaimed_contours_data st))
  /\ fst (detect_android_dark_bars image)
     = fst (_process_contours_to_positions
              (map d_cnt (kept_of_row st)
               ++ map d_cnt (reclaimed_contours_data st))
              "Android" (map d_cnt (reclaimed_contours_data st))).
Proof.
  intros Hst Hin. cbv zeta.
  assert (Hiff : In s (reclaimed_contours_data st)
                 <-> (Qabs (inject_Z (d_width s) - median_width st)
                      <= Qmax 12 (median_width st * (1 # 2)))%Q
                     /\ (Qabs (inject_Z (d_bottom s) - baseline_y st) <= 30)%Q).
  { unfold reclaimed_contours_data. rewrite List.filter_In.
    unfold width_ok, baseline_ok. rewrite andb_true_iff.
    rewrite !Qle_bool_iff. rewrite (py_max_Qmax 12 (median_width st * (1 # 2))).
    tauto. }
  split; [exact Hiff |]. split.
  - intros Hdev Hrec. apply Hiff in Hrec. destruct Hrec as [Hw _]. lra.
  - unfold detect_android_dark_bars. rewrite Hst. reflexivity.
Qed.

(** The stage the dark-theme variant reaches on [dark_crop],
    and its two suspects. *)
Definition dark_crop_stage : DarkStage :=
  Eval vm_compute in
    match dark_stage dark_crop with
    | Some st => st
    | None => {| best_row := []; suspect_contours := [] |}
    end.

Definition narrow_suspect : DarkItem :=
  {| d_cnt := {| cnt_x := 400; cnt_y := 440; cnt_w := 40; cnt_h := 10;
                 cnt_area := 400 |};
     d_bottom := 450; d_width := 40; d_reason := Some "Ratio" |}.

Definition wide_suspect : DarkItem :=
  {| d_cnt := {| cnt_x := 500; cnt_y := 440; cnt_w := 90; cnt_h := 10;
                 cnt_area := 900 |};
     d_bottom := 450; d_width := 90; d_reason := Some "Ratio" |}.

Lemma dark_crop_stage_reached : dark_stage dark_crop = Some dark_crop_stage.
Proof. vm_compute. reflexivity. Qed.

(** On [dark_crop] the flat shape as wide as the bars is reclaimed and
    the wider one is not. *)
Lemma dark_reclaim_gate_witness :
  In narrow_suspect (reclaimed_contours_data dark_crop_stage)
  /\ ~ In wide_suspect (reclaimed_contours_data dark_crop_stage).
Proof.
  split.
  - apply (dark_reclaim_gate dark_crop dark_crop_stage narrow_suspect
             dark_crop_stage_reached (or_introl eq_refl)).
    split; apply Qle_bool_iff; vm_compute; reflexivity.
  - apply (dark_reclaim_gate dark_crop dark_crop_stage wide_suspect
             dark_crop_stage_reached (or_intror (or_introl eq_refl))).
    apply Qltb_lt. vm_compute. reflexivity.
Defined.

(** ** Scoring gridline clusters *)

Section ScoreFacts.
Context {Image : Type} `{V : Vision Image}.

Lemma base_score_pos (c : list Z) : c <> [] -> (0 < base_score c)%Q.
Proof.
  intros Hc. unfold base_score. cbv zeta.
  pose proof (np_std_nonneg (np_diff c)) as Hstd.
  apply Qlt_shift_div_l; [lra |].
  assert (Hn : 0 < Z.of_nat (length c) ^ 3 * 100).
  { destruct c as [|a c]; [contradiction |].
    assert (0 < Z.of_nat (length (a :: c))) by (simpl length; lia).
    assert (0 < Z.of_nat (length (a :: c)) ^ 3) by (apply Z.pow_pos_nonneg; lia).
    lia. }
  assert (0 < inject_Z (Z.of_nat (length c) ^ 3 * 100))%Q.
  { unfold Qlt. simpl. lia. }
  lra.
Qed.

Lemma base_score_same (c1 c2 : list Z) :
  length c1 = length c2 ->
  (np_std (np_diff c1) == np_std (np_diff c2))%Q ->
  (base_score c1 == base_score c2)%Q.
Proof.
  intros Hlen Hstd. unfold base_score. cbv zeta.
  rewrite Hlen, Hstd. reflexivity.
Qed.

Lemma location_multiplier_cases (image_height : Z) (c : list Z) :
  let rel := cluster_bottom_relative image_height c in
  ((75 # 100 < rel)%Q /\ location_multiplier image_height c = 1 # 10)
  \/ ((65 # 100 < rel)%Q /\ (rel <= 75 # 100)%Q
      /\ location_multiplier image_height c = 8 # 10)
  \/ ((rel <= 65 # 100)%Q /\ location_multiplier image_height c = 12 # 10).
Proof.
  cbv zeta. unfold location_multiplier. cbv zeta.
  destruct (Qltb (75 # 100) _) eqn:E1.
  - left. apply Qltb_lt in E1. now split.
  - apply Qltb_ge in E1.
    destruct (Qltb (65 # 100) _) eqn:E2.
    + right; left. apply Qltb_lt in E2. now repeat split.
    + right; right. apply Qltb_ge in E2. now split.
Qed.
End ScoreFacts.

(** C6: the score of a cluster is its base score, the cube of its size
    times 100 over the standard deviation of its spacings plus 0.5,
    multiplied by 0.1 when its bottom line is below 0.75 of the image
    height, by 0.8 when it is in the band (0.65, 0.75], and by 1.2
    otherwise.  So of two clusters of the same size and the same
    spacing deviation, one whose bottom line is above the 65% mark
    outscores one whose bottom line is below the 75% mark. *)
Theorem footer_penalty_order {Image : Type} `{V : Vision Image}
    (image_height : Z) :
  (forall c : list Z,
     let rel := cluster_bottom_relative image_height c in
     let base :=
       (inject_Z (Z.of_nat (length c) ^ 3 * 100)
        / (np_std (np_diff c) + (1 # 2)))%Q in
     ((75 # 100 < rel)%Q -> (final_score image_height c == base * (1 # 10))%Q)
     /\ ((65 # 100 < rel)%Q -> (rel <= 75 # 100)%Q ->
         (final_score image_height c == base * (8 # 10))%Q)
     /\ ((rel <= 65 # 100)%Q ->
         (final_score image_height c == base * (12 # 10))%Q))
  /\ (forall c1 c2 : list Z,
        length c1 = length c2 -> c1 <> [] ->
        (np_std (np_diff c1) == np_std (np_diff c2))%Q ->
        (cluster_bottom_relative image_height c1 <= 65 # 100)%Q ->
        (75 # 100 < cluster_bottom_relative image_height c2)%Q ->
        (final_score image_height c2 < final_score image_height c1)%Q).
Proof.
  split.
  - intros c. cbv zeta. unfold final_score.
    change (inject_Z (Z.of_nat (length c) ^ 3 * 100)
            / (np_std (np_diff c) + (1 # 2)))%Q with (base_score c).
    destruct (location_multiplier_cases image_height c)
      as [[H1 E] | [[H1 [H2 E]] | [H1 E]]]; cbv zeta in *; rewrite E;
      repeat split; intros; try reflexivity; exfalso; lra.
  - intros c1 c2 Hlen Hne Hstd Hhigh Hlow. unfold final_score.
    pose proof (base_score_pos c1 Hne) as Hpos.
    rewrite <- (base_score_same c1 c2 Hlen Hstd).
    destruct (location_multiplier_cases image_height c1)
      as [[H1 E1] | [[H1 [H1' E1]] | [H1 E1]]]; cbv zeta in *;
      try (exfalso; lra).
    destruct (location_multiplier_cases image_height c2)
      as [[H2 E2] | [[H2 [H2' E2]] | [H2 E2]]]; cbv zeta in *;
      try (exfalso; lra).
    rewrite E1, E2. lra.
Qed.

(** Two clusters of three lines, 100 rows apart, in an image of 1000
    rows: one in the upper part, one ending in the footer. *)
Definition upper_cluster : list Z := [100; 200; 300].
Definition footer_cluster : list Z := [700; 800; 900].

(** The cluster in the footer scores less. *)
Lemma footer_penalty_order_witness :
  (final_score (Image := Picture) 1000 footer_cluster
   < final_score (Image := Picture) 1000 upper_cluster)%Q.
Proof.
  apply (proj2 (footer_penalty_order (Image := Picture) 1000)
               upper_cluster footer_cluster).
  - reflexivity.
  - discriminate.
  - vm_compute. reflexivity.
  - apply Qle_bool_iff. vm_compute. reflexivity.
  - apply Qltb_lt. vm_compute. reflexivity.
Defined.

(** ** The scale factor *)

Lemma py_truediv_Some (x : Q) (n : Z) :
  n <> 0 -> py_truediv x n = Some (Qred (x / inject_Z n)).
Proof.
  intros Hn. unfold py_truediv.
  destruct (n =? 0) eqn:E; [apply Z.eqb_eq in E; contradiction | reflexivity].
Qed.

Lemma scale_factor_positive (max_value_minutes : Q) (pixel_span : Z) :
  0 < pixel_span -> (0 < max_value_minutes)%Q ->
  scale_factor max_value_minutes pixel_span
  = Some (Qred (max_value_minutes / inject_Z pixel_span)).
Proof.
  intros Hs Hv. unfold scale_factor.
  apply Z.ltb_lt in Hs as Hs'. apply Qltb_lt in Hv as Hv'.
  rewrite Hs', Hv'. simpl. apply py_truediv_Some. lia.
Qed.

Lemma scale_factor_zero (max_value_minutes : Q) (pixel_span : Z) :
  pixel_span <= 0 \/ (max_value_minutes <= 0)%Q ->
  scale_factor max_value_minutes pixel_span = Some 0%Q.
Proof.
  intros [Hs | Hv]; unfold scale_factor.
  - apply Z.ltb_ge in Hs. rewrite Hs. reflexivity.
  - apply Qltb_ge in Hv. rewrite Hv. now rewrite andb_false_r.
Qed.

Lemma scale_factor_defined (max_value_minutes : Q) (pixel_span : Z) :
  exists s, scale_factor max_value_minutes pixel_span = Some s /\ (0 <= s)%Q.
Proof.
  destruct (Z_lt_le_dec 0 pixel_span) as [Hs | Hs].
  - destruct (Qlt_le_dec 0 max_value_minutes) as [Hv | Hv].
    + exists (Qred (max_value_minutes / inject_Z pixel_span)).
      split; [now apply scale_factor_positive |].
      rewrite Qred_correct. apply Qle_shift_div_l.
      * unfold Qlt. simpl. lia.
      * lra.
    + exists 0%Q. split; [apply scale_factor_zero; now right | lra].
  - exists 0%Q. split; [apply scale_factor_zero; now left | lra].
Qed.

(** ** Walking the labels *)

Definition true_labels (labels : list Label) : nat :=
  length (List.filter has_bar labels).

Definition zero_entry : Entry := {| minutes := 0; pixels := 0 |}.

(** The entry of a label matched with the bar [b]. *)
Definition bar_entry (zero_line_y crop_top : Z) (scale : Q) (b : BarPosition)
  : Entry :=
  {| minutes := py_round1 (inject_Z (zero_line_y - (y_top b + crop_top)) * scale);
     pixels := zero_line_y - (y_top b + crop_top) |}.

Section WalkFacts.
Variables (zero_line_y crop_top : Z) (scale : Q).
Variable bars_rtl : list BarPosition.

Local Abbreviation step := (map_label zero_line_y crop_top scale bars_rtl).
Local Abbreviation walk := (walk_labels zero_line_y crop_top scale bars_rtl).

Lemma map_label_no_bar st (l : Label) :
  has_bar l = false ->
  step st l = (fst st, <[label l := zero_entry]> (snd st)).
Proof.
  intros H. destruct st as [i m]. unfold map_label. rewrite H. reflexivity.
Qed.

Lemma map_label_matched st (l : Label) (b : BarPosition) :
  has_bar l = true -> bars_rtl !! fst st = Some b ->
  step st l
  = (S (fst st),
     <[label l := bar_entry zero_line_y crop_top scale b]> (snd st)).
Proof.
  intros H Hb. destruct st as [i m]. unfold map_label. cbn [fst snd] in *.
  rewrite H, Hb. reflexivity.
Qed.

Lemma map_label_unmatched st (l : Label) :
  has_bar l = true -> bars_rtl !! fst st = None ->
  step st l = (fst st, <[label l := zero_entry]> (snd st)).
Proof.
  intros H Hb. destruct st as [i m]. unfold map_label. cbn [fst snd] in *.
  rewrite H, Hb. reflexivity.
Qed.

(** Every step writes the entry of its label and nothing else. *)
Lemma map_label_writes st (l : Label) :
  exists e, snd (step st l) = <[label l := e]> (snd st).
Proof.
  destruct (has_bar l) eqn:H.
  - destruct (bars_rtl !! fst st) as [b|] eqn:Hb.
    + eexists. now rewrite (map_label_matched st l b H Hb).
    + eexists. now rewrite (map_label_unmatched st l H Hb).
  - eexists. now rewrite (map_label_no_bar st l H).
Qed.

Lemma walk_split (pre post : list Label) :
  walk (pre ++ post) = fold_left step post (walk pre).
Proof. unfold walk_labels. now rewrite fold_left_app. Qed.

(** The number of bars consumed. *)
Lemma fold_bar_index (labels : list Label) st :
  (fst st <= length bars_rtl)%nat ->
  fst (fold_left step labels st)
  = Nat.min (fst st + true_labels labels) (length bars_rtl).
Proof.
  revert st. induction labels as [|l labels IH]; intros st Hst.
  - simpl. unfold true_labels. simpl. lia.
  - simpl fold_left. unfold true_labels in *. simpl List.filter.
    destruct (has_bar l) eqn:H.
    + destruct (bars_rtl !! fst st) as [b|] eqn:Hb.
      * rewrite (map_label_matched st l b H Hb).
        apply lookup_lt_Some in Hb.
        rewrite IH by (cbn [fst]; lia). cbn [fst length]. lia.
      * rewrite (map_label_unmatched st l H Hb).
        apply lookup_ge_None in Hb.
        rewrite IH by (cbn [fst]; lia). cbn [fst length]. lia.
    + rewrite (map_label_no_bar st l H).
      rewrite IH by (cbn [fst]; lia). cbn [fst]. lia.
Qed.

Lemma walk_bar_index (labels : list Label) :
  fst (walk labels) = Nat.min (true_labels labels) (length bars_rtl).
Proof.
  unfold walk_labels. rewrite fold_bar_index; cbn [fst]; [reflexivity | lia].
Qed.

(** Later labels with other names leave an entry alone. *)
Lemma fold_keeps_entry (post : list Label) st (day : string) :
  ~ In day (map label post) ->
  snd (fold_left step post st) !! day = snd st !! day.
Proof.
  revert st. induction post as [|l post IH]; intros st Hnot; [reflexivity |].
  simpl fold_left. rewrite IH by (intros H; apply Hnot; now right).
  destruct (map_label_writes st l) as [e He]. rewrite He.
  apply lookup_insert_ne. intros Heq. apply Hnot. now left.
Qed.

(** The names that have an entry. *)
Lemma fold_entry_names (labels : list Label) st (day : string) :
  is_Some (snd (fold_left step labels st) !! day)
  <-> is_Some (snd st !! day) \/ In day (map label labels).
Proof.
  revert st. induction labels as [|l labels IH]; intros st.
  - simpl. tauto.
  - simpl fold_left. rewrite IH.
    destruct (map_label_writes st l) as [e He]. rewrite He.
    destruct (decide (label l = day)) as [Heq | Hne].
    + subst day. rewrite lookup_insert_eq. simpl.
      split; [right; now left | left; eauto].
    + rewrite lookup_insert_ne by exact Hne. simpl. tauto.
Qed.

Lemma fold_size (labels : list Label) st :
  NoDup (map label labels) ->
  (forall l, In l labels -> snd st !! label l = None) ->
  size (snd (fold_left step labels st)) = (size (snd st) + length labels)%nat.
Proof.
  revert st. induction labels as [|l labels IH]; intros st Hnd Hfresh.
  - simpl. lia.
  - simpl fold_left. simpl map in Hnd. apply NoDup_cons in Hnd as [Hl Hnd].
    destruct (map_label_writes st l) as [e He].
    rewrite IH; [| exact Hnd |].
    + rewrite He. rewrite map_size_insert_None by (apply Hfresh; now left).
      simpl length. lia.
    + intros l' Hl'. rewrite He. rewrite lookup_insert_ne.
      * apply Hfresh. now right.
      * intros Heq. apply Hl. rewrite Heq.
        apply list_elem_of_In. apply in_map. exact Hl'.
Qed.

Lemma build_entry_at (pre post : list Label) (l : Label) (e : Entry) :
  snd (step (walk pre) l) = <[label l := e]> (snd (walk pre)) ->
  ~ In (label l) (map label post) ->
  build_day_value_map zero_line_y crop_top scale bars_rtl (pre ++ l :: post)
    !! label l = Some e.
Proof.
  intros Hstep Hnot. unfold build_day_value_map.
  rewrite walk_split. simpl fold_left.
  rewrite fold_keeps_entry by exact Hnot.
  rewrite Hstep. apply lookup_insert_eq.
Qed.
End WalkFacts.

(** ** The loop in binary64 *)

(** An int below [2^53] in magnitude converts to a float. *)
Lemma digits2_pos_size (m : positive) : digits2_pos m = Pos.size m.
Proof. induction m; simpl; congruence. Qed.

Lemma digits2_pos_iter (m : positive) (k : positive) :
  Zpos (digits2_pos (Pos.iter xO m k)) = Zpos (digits2_pos m) + Zpos k.
Proof.
  induction k as [|k IH] using Pos.peano_ind.
  - simpl. lia.
  - rewrite Pos.iter_succ. simpl digits2_pos. lia.
Qed.

Lemma digits2_pos_bound (m : positive) :
  Zpos m < 2 ^ 53 -> Zpos (digits2_pos m) <= 53.
Proof.
  intros Hm. rewrite digits2_pos_size.
  pose proof (Pos.size_le m) as Hle.
  apply Pos2Z.pos_le_pos in Hle. rewrite Pos2Z.inj_pow in Hle.
  destruct (Z_le_gt_dec (Zpos (Pos.size m)) 53) as [H | H]; [exact H | exfalso].
  assert (H54 : 2 ^ 54 <= 2 ^ Zpos (Pos.size m))
    by (apply Z.pow_le_mono_r; lia).
  change (2 ^ 53) with 9007199254740992 in Hm.
  change (2 ^ 54) with 18014398509481984 in H54. lia.
Qed.

Lemma binary_round_aux_canonical (s : bool) (mz : positive) (ez : Z) :
  fexp prec emax (Zpos (digits2_pos mz) + ez) = ez ->
  ez <= emax - prec ->
  binary_round_aux prec emax s (Zpos mz) ez loc_Exact = S754_finite s mz ez.
Proof.
  intros Hc He. unfold binary_round_aux, shr_fexp.
  cbn [Zdigits2 shr_record_of_loc]. rewrite Hc, Z.sub_diag.
  cbn [shr shr_m loc_of_shr_record round_nearest_even Zdigits2 shr_record_of_loc].
  rewrite Hc, Z.sub_diag. cbn [shr shr_m].
  apply Z.leb_le in He. now rewrite He.
Qed.

Lemma binary_round_small (s : bool) (m : positive) :
  Zpos m < 2 ^ 53 ->
  exists mz ez, binary_round prec emax s m 0 = S754_finite s mz ez.
Proof.
  intros Hm. pose proof (digits2_pos_bound m Hm) as Hd.
  assert (H1 : 1 <= Zpos (digits2_pos m)) by lia.
  unfold binary_round.
  assert (Hf : fexp prec emax (Zpos (digits2_pos m) + 0)
               = Zpos (digits2_pos m) - 53).
  { unfold fexp, emin, prec, emax. lia. }
  rewrite Hf. unfold shl_align.
  destruct (Zpos (digits2_pos m) - 53 - 0) as [|k|k] eqn:Hk; [| lia |].
  - exists m, 0. apply binary_round_aux_canonical.
    + rewrite Hf. lia.
    + unfold emax, prec. lia.
  - exists (Pos.iter xO m k), (Zpos (digits2_pos m) - 53).
    apply binary_round_aux_canonical.
    + rewrite digits2_pos_iter. unfold fexp, emin, prec, emax. lia.
    + unfold emax, prec. lia.
Qed.

Lemma b64_of_Z_defined (n : Z) :
  Z.abs n < 2 ^ 53 -> exists x, b64_of_Z n = Some x.
Proof.
  intros Hn. unfold b64_of_Z.
  destruct n as [|m|m]; cbn [binary_normalize].
  - eexists. reflexivity.
  - destruct (binary_round_small false m Hn) as [mz [ez E]].
    rewrite E. eexists. reflexivity.
  - destruct (binary_round_small true m Hn) as [mz [ez E]].
    rewrite E. eexists. reflexivity.
Qed.

(** So the product of a pixel height of any image and the scale is
    defined. *)
Lemma py_mul_int_defined (n : Z) (y : PyNumber) :
  Z.abs n < 2 ^ 53 -> exists c, py_mul_int n y = Some c.
Proof.
  intros Hn. destruct y as [k|x]; cbn [py_mul_int]; [eexists; reflexivity |].
  destruct (b64_of_Z_defined n Hn) as [fn ->]. eexists. reflexivity.
Qed.

Section WalkFacts64.
Variables (zero_line_y crop_top : Z) (scale : PyNumber).
Variable bars_rtl : list BarPosition.

Local Abbreviation step64 :=
  (map_label64 zero_line_y crop_top scale bars_rtl).
Local Abbreviation walk64 :=
  (walk_from64 zero_line_y crop_top scale bars_rtl).

Lemma map_label64_matched st (l : Label) (b : BarPosition)
    (calculated_minutes : PyNumber) :
  has_bar l = true -> bars_rtl !! fst st = Some b ->
  py_mul_int (zero_line_y - (y_top b + crop_top)) scale
  = Some calculated_minutes ->
  step64 st l
  = Some (S (fst st),
          <[label l := {| minutes64 := py_round1_number calculated_minutes;
                          pixels64 := zero_line_y - (y_top b + crop_top) |}]>
            (snd st)).
Proof.
  intros H Hb Hmul. destruct st as [i m].
  unfold map_label64. cbn [fst snd] in *.
  now rewrite H, Hb, Hmul.
Qed.

(** The bar index moves as in the loop on exact numbers. *)
Lemma map_label64_index st st' (l : Label) (q : Q)
    (stq : nat * gmap string Entry) :
  step64 st l = Some st' -> fst st = fst stq ->
  fst st' = fst (map_label zero_line_y crop_top q bars_rtl stq l).
Proof.
  destruct st as [i m], stq as [iq mq]. cbn [fst]. intros Hstep <-.
  unfold map_label64 in Hstep. unfold map_label.
  destruct (has_bar l).
  - destruct (bars_rtl !! i) as [b|].
    + destruct (py_mul_int _ scale) as [c|]; [| discriminate].
      now injection Hstep as <-.
    + cbn in Hstep. now injection Hstep as <-.
  - cbn in Hstep. now injection Hstep as <-.
Qed.

Lemma walk64_index (labels : list Label) st st' (q : Q)
    (stq : nat * gmap string Entry) :
  walk64 st labels = Some st' -> fst st = fst stq ->
  fst st'
  = fst (fold_left (map_label zero_line_y crop_top q bars_rtl) labels stq).
Proof.
  revert st stq. induction labels as [|l labels IH]; intros st stq Hwalk Hi.
  - simpl in *. now injection Hwalk as <-.
  - simpl in Hwalk. destruct (step64 st l) as [st1|] eqn:Hstep;
      [| discriminate].
    simpl fold_left. apply (IH st1); [exact Hwalk |].
    now apply (map_label64_index st st1 l q stq).
Qed.

(** The loop on binary64 and the loop on exact numbers write the same
    names with the same pixel heights. *)
Lemma map_label64_pixels st st' (l : Label) (q : Q)
    (stq : nat * gmap string Entry) :
  step64 st l = Some st' -> fst st = fst stq ->
  (forall day, pixels64 <$> snd st !! day = pixels <$> snd stq !! day) ->
  forall day,
    pixels64 <$> snd st' !! day
    = pixels <$> snd (map_label zero_line_y crop_top q bars_rtl stq l) !! day.
Proof.
  destruct st as [i m], stq as [iq mq]. cbn [fst snd]. intros Hstep <- Hm day.
  unfold map_label64 in Hstep. unfold map_label.
  assert (Hins : forall (e64 : Entry64) (e : Entry),
            pixels64 e64 = pixels e ->
            pixels64 <$> <[label l := e64]> m !! day
            = pixels <$> <[label l := e]> mq !! day).
  { intros e64 e He. destruct (decide (label l = day)) as [-> | Hne].
    - rewrite !lookup_insert_eq. cbn. now rewrite He.
    - rewrite !lookup_insert_ne by exact Hne. apply Hm. }
  destruct (has_bar l).
  - destruct (bars_rtl !! i) as [b|].
    + destruct (py_mul_int _ scale) as [c|]; [| discriminate].
      injection Hstep as <-. cbn [snd]. now apply Hins.
    + cbn in Hstep. injection Hstep as <-. cbn [snd]. now apply Hins.
  - cbn in Hstep. injection Hstep as <-. cbn [snd]. now apply Hins.
Qed.

Lemma walk64_pixels (labels : list Label) st st' (q : Q)
    (stq : nat * gmap string Entry) :
  walk64 st labels = Some st' -> fst st = fst stq ->
  (forall day, pixels64 <$> snd st !! day = pixels <$> snd stq !! day) ->
  forall day,
    pixels64 <$> snd st' !! day
    = pixels
      <$> snd (fold_left (map_label zero_line_y crop_top q bars_rtl)
                         labels stq) !! day.
Proof.
  revert st stq. induction labels as [|l labels IH];
    intros st stq Hwalk Hi Hm.
  - simpl in *. now injection Hwalk as <-.
  - simpl in Hwalk. destruct (step64 st l) as [st1|] eqn:Hstep;
      [| discriminate].
    simpl fold_left. apply (IH st1); [exact Hwalk | |].
    + now apply (map_label64_index st st1 l q stq).
    + now apply (map_label64_pixels st st1 l q stq).
Qed.

Lemma walk64_app (pre post : list Label) st :
  walk64 st (pre ++ post)
  = match walk64 st pre with
    | Some st1 => walk64 st1 post
    | None => None
    end.
Proof.
  revert st. induction pre as [|l pre IH]; intros st; [reflexivity |].
  simpl. destruct (step64 st l); [apply IH | reflexivity].
Qed.

(** Every step writes the entry of its label and nothing else. *)
Lemma map_label64_writes st st' (l : Label) :
  step64 st l = Some st' -> exists e, snd st' = <[label l := e]> (snd st).
Proof.
  destruct st as [i m]. unfold map_label64.
  destruct (if has_bar l then _ else _) as [[[c h] i']|]; [| discriminate].
  intros Hstep. injection Hstep as <-. eexists. reflexivity.
Qed.

(** Later labels with other names leave an entry alone. *)
Lemma walk64_keeps_entry (post : list Label) st final (day : string) :
  walk64 st post = Some final ->
  ~ In day (map label post) ->
  snd final !! day = snd st !! day.
Proof.
  revert st. induction post as [|l post IH]; intros st Hwalk Hnot.
  - simpl in Hwalk. now injection Hwalk as <-.
  - simpl in Hwalk. destruct (step64 st l) as [st1|] eqn:Hstep;
      [| discriminate].
    rewrite (IH st1 Hwalk) by (intros Hin; apply Hnot; now right).
    destruct (map_label64_writes st st1 l Hstep) as [e ->].
    apply lookup_insert_ne. intros Heq. apply Hnot. left.
    simpl. exact Heq.
Qed.

(** The loop ends without an exception when no bar gives one. *)
Lemma walk64_total (labels : list Label) st :
  (forall b, In b bars_rtl ->
     exists c, py_mul_int (zero_line_y - (y_top b + crop_top)) scale
               = Some c) ->
  exists final, walk64 st labels = Some final.
Proof.
  intros Hbars. revert st.
  induction labels as [|l labels IH]; intros st; [now exists st |].
  simpl. assert (Hstep : exists st1, step64 st l = Some st1).
  { destruct st as [i m]. unfold map_label64.
    destruct (has_bar l); [| eexists; reflexivity].
    destruct (bars_rtl !! i) as [b|] eqn:Hb; [| eexists; reflexivity].
    destruct (Hbars b) as [c Hc].
    { apply list_elem_of_In. now apply list_elem_of_lookup_2 in Hb. }
    rewrite Hc. eexists. reflexivity. }
  destruct Hstep as [st1 ->]. apply IH.
Qed.

Lemma walk64_prefix (pre post : list Label) st final :
  walk64 st (pre ++ post) = Some final ->
  exists st1, walk64 st pre = Some st1 /\ walk64 st1 post = Some final.
Proof.
  rewrite walk64_app. destruct (walk64 st pre) as [st1|]; [| discriminate].
  intros H. now exists st1.
Qed.

Lemma walk64_bar_index (pre : list Label) st (b : BarPosition) :
  walk64 (0%nat, ∅) pre = Some st ->
  bars_rtl !! true_labels pre = Some b ->
  fst st = true_labels pre.
Proof.
  intros Hpre Hbar.
  rewrite (walk64_index pre _ st 0%Q (0%nat, ∅) Hpre eq_refl).
  fold (walk_labels zero_line_y crop_top 0 bars_rtl pre).
  rewrite walk_bar_index. apply lookup_lt_Some in Hbar. lia.
Qed.

(** The entry of a matched label in the finished map. *)
Lemma matched_entry64 (pre post : list Label) (l : Label) (b : BarPosition)
    (calculated_minutes : PyNumber)
    (day_value_map : gmap string Entry64) :
  has_bar l = true ->
  bars_rtl !! true_labels pre = Some b ->
  py_mul_int (zero_line_y - (y_top b + crop_top)) scale
  = Some calculated_minutes ->
  ~ In (label l) (map label post) ->
  build_day_value_map64 zero_line_y crop_top scale bars_rtl
    (pre ++ l :: post) = Some day_value_map ->
  day_value_map !! label l
  = Some {| minutes64 := py_round1_number calculated_minutes;
            pixels64 := zero_line_y - (y_top b + crop_top) |}.
Proof.
  intros Htrue Hbar Hmul Hnot Hbuild.
  unfold build_day_value_map64, walk_labels64 in Hbuild.
  destruct (walk64 (0%nat, ∅) (pre ++ l :: post)) as [final|] eqn:Hwalk;
    [| discriminate].
  injection Hbuild as <-.
  destruct (walk64_prefix pre (l :: post) _ final Hwalk) as [st [Hpre Hrest]].
  pose proof (walk64_bar_index pre st b Hpre Hbar) as Hidx.
  cbn [walk_from64] in Hrest.
  rewrite (map_label64_matched st l b calculated_minutes Htrue)
    in Hrest; [| now rewrite Hidx | exact Hmul].
  rewrite (walk64_keeps_entry post _ final (label l) Hrest Hnot).
  cbn [snd]. apply lookup_insert_eq.
Qed.
End WalkFacts64.

(** C1: a label with [has_bar = true] that still finds a bar gets the
    entry computed from that bar: the top of the bar in the crop plus the
    top offset of the crop is its top in the original image, the pixel
    height is the zero line minus that, and the minutes are the pixel
    height times the scale, rounded to one decimal.  The numbers are
    those of the program: the product is the binary64 product and the
    rounding is [round(x, 1)] on a float.  For bars whose pixel heights
    are below [2^53] in magnitude, as in any image, the loop raises
    nothing and returns the map with that entry.  With the zero line
    at 500, the maximum line at 100 and top axis value 240 the scale is
    the double 0.6, and a bar whose top is at 300 has pixel height 200
    and 120.0 minutes. *)
Theorem matched_bar_minutes (zero_line_y crop_top : Z) (scale : PyNumber)
    (bars_rtl : list BarPosition) (pre post : list Label) (l : Label)
    (b : BarPosition) :
  has_bar l = true ->
  bars_rtl !! true_labels pre = Some b ->
  Forall (fun bar => Z.abs (zero_line_y - (y_top bar + crop_top)) < 2 ^ 53)
         bars_rtl ->
  let bar_top_y_normalized := y_top b + crop_top in
  let pixel_height := zero_line_y - bar_top_y_normalized in
  exists (st : nat * gmap string Entry64) (calculated_minutes : PyNumber)
         (day_value_map : gmap string Entry64),
    let e := {| minutes64 := py_round1_number calculated_minutes;
                pixels64 := pixel_height |} in
    py_mul_int pixel_height scale = Some calculated_minutes
    /\ walk_labels64 zero_line_y crop_top scale bars_rtl pre = Some st
    /\ map_label64 zero_line_y crop_top scale bars_rtl st l
       = Some (S (true_labels pre), <[label l := e]> (snd st))
    /\ build_day_value_map64 zero_line_y crop_top scale bars_rtl
         (pre ++ l :: post) = Some day_value_map
    /\ (~ In (label l) (map label post) ->
        day_value_map !! label l = Some e)
    /\ scale_factor64 (NFloat (b64_of_Q 240)) (500 - 100)
       = Some (NFloat (b64_of_Q (6 # 10)))
    /\ (zero_line_y = 500 -> scale = NFloat (b64_of_Q (6 # 10)) ->
        bar_top_y_normalized = 300 ->
        e = {| minutes64 := NFloat (b64_of_Q 120); pixels64 := 200 |}).
Proof.
  intros Htrue Hbar Hbound. cbv zeta.
  assert (Hdefined : forall bar, In bar bars_rtl ->
            exists c, py_mul_int (zero_line_y - (y_top bar + crop_top)) scale
                      = Some c).
  { intros bar Hin. apply py_mul_int_defined.
    rewrite List.Forall_forall in Hbound. now apply Hbound. }
  destruct (Hdefined b) as [calculated_minutes Hmul].
  { apply list_elem_of_In. now apply list_elem_of_lookup_2 in Hbar. }
  destruct (walk64_total zero_line_y crop_top scale bars_rtl
              (pre ++ l :: post) (0%nat, ∅) Hdefined) as [final Hfinal].
  destruct (walk64_prefix zero_line_y crop_top scale bars_rtl pre (l :: post)
              _ final Hfinal) as [st [Hpre _]].
  assert (Hbuild : build_day_value_map64 zero_line_y crop_top scale bars_rtl
                     (pre ++ l :: post) = Some (snd final)).
  { unfold build_day_value_map64, walk_labels64. now rewrite Hfinal. }
  pose proof (walk64_bar_index zero_line_y crop_top scale bars_rtl pre st b
                Hpre Hbar) as Hidx.
  exists st, calculated_minutes, (snd final).
  split; [exact Hmul |]. split; [exact Hpre |]. split; [| split; [| split; [| split]]].
  - rewrite <- Hidx at 1.
    apply (map_label64_matched zero_line_y crop_top scale bars_rtl st l b
             calculated_minutes Htrue); [| exact Hmul].
    now rewrite Hidx.
  - exact Hbuild.
  - intros Hnot.
    now apply (matched_entry64 zero_line_y crop_top scale bars_rtl pre post l
                 b calculated_minutes).
  - vm_compute. reflexivity.
  - intros Hz Hs Hn.
    replace (zero_line_y - (y_top b + crop_top)) with 200 in * by lia.
    subst scale. vm_compute in Hmul. injection Hmul as <-.
    vm_compute. reflexivity.
Qed.

(** The three bars of [Synthetic.week_chart] as the detector reports
    them in its crop, right to left. *)
Definition week_bars_rtl : list BarPosition :=
  [ {| center_x := 620; center_y := 350; y_top := 250;
       bbox := (600, 250, 40, 200); bar_type := "iOS" |};
    {| center_x := 520; center_y := 515; y_top := 500;
       bbox := (500, 500, 40, 30); bar_type := "iOS" |};
    {| center_x := 420; center_y := 400; y_top := 350;
       bbox := (400, 350, 40, 100); bar_type := "iOS" |} ].

Example week_bars_detected :
  sort_by_reverse center_x
    (fst (value (detect_bars_positions (crop week_chart 50 600))))
  = week_bars_rtl.
Proof. vm_compute. reflexivity. Qed.

(** The first day with a bar of the canned answer gets the rightmost
    bar: 200 pixels, 120.0 minutes. *)
Lemma matched_bar_minutes_witness :
  match build_day_value_map64 500 50 (NFloat (b64_of_Q (6 # 10)))
          week_bars_rtl (X_axis MOCK_GEMINI_OUTPUT) with
  | Some day_value_map => day_value_map !! "שלישי"
  | None => None
  end
  = Some {| minutes64 := NFloat (b64_of_Q 120); pixels64 := 200 |}.
Proof.
  destruct (matched_bar_minutes 500 50 (NFloat (b64_of_Q (6 # 10)))
              week_bars_rtl
              (firstn 4 (X_axis MOCK_GEMINI_OUTPUT))
              (skipn 5 (X_axis MOCK_GEMINI_OUTPUT))
              {| label := "שלישי"; has_bar := true |}
              {| center_x := 620; center_y := 350; y_top := 250;
                 bbox := (600, 250, 40, 200); bar_type := "iOS" |}
              eq_refl eq_refl)
    as [st [calculated_minutes [day_value_map
          [Hmul [_ [_ [Hbuild [Hentry [_ Hworked]]]]]]]]].
  - unfold week_bars_rtl.
    repeat (apply List.Forall_cons; [cbn; lia |]). apply List.Forall_nil.
  - change (firstn 4 (X_axis MOCK_GEMINI_OUTPUT)
            ++ {| label := "שלישי"; has_bar := true |}
               :: skipn 5 (X_axis MOCK_GEMINI_OUTPUT))
      with (X_axis MOCK_GEMINI_OUTPUT) in Hbuild.
    rewrite Hbuild.
    assert (Hnot : ~ In "שלישי"
                     (map label (skipn 5 (X_axis MOCK_GEMINI_OUTPUT))))
      by (simpl; intros [H | [H | []]]; discriminate H).
    apply Hentry in Hnot. cbn [label] in Hnot. rewrite Hnot.
    f_equal. apply Hworked; reflexivity.
Defined.

(** Where binary64 and exact arithmetic part: a top value of 60 over a
    span of 400 pixels gives the double 0.15, and 101 pixels at that
    scale are 15.1 minutes, where the exact product 15.15 would round
    to 15.2. *)
Example minutes_in_binary64 :
  scale_factor64 (NFloat (b64_of_Q 60)) 400
  = Some (NFloat (b64_of_Q (15 # 100)))
  /\ match py_mul_int 101 (NFloat (b64_of_Q (15 # 100))) with
     | Some calculated_minutes => Some (py_round1_number calculated_minutes)
     | None => None
     end
     = Some (NFloat (b64_of_Q (151 # 10)))
  /\ (py_round1 (inject_Z 101 * (15 # 100)) == 152 # 10)%Q.
Proof. repeat split; vm_compute; reflexivity. Qed.

(** A string without a number in it gives the top value 0. *)
Lemma parse_top_value_unparseable (raw : string) :
  py_float (strip_non_numeric raw) = None -> parse_top_value raw = 0%Q.
Proof.
  intros H. unfold parse_top_value. rewrite H.
  now destruct (strip_non_numeric raw).
Qed.

(** ** The pipeline *)

Section PipelineFacts.
Context {Image : Type} `{V : Vision Image} `{G : Gemini Image}.

Lemma calculate_load_failure (image_path target_day : string)
    (google_api_key : option string) :
  _load_image image_path = None ->
  calculate_minutes_for_day image_path target_day google_api_key
  = (RespError "Image could not be loaded", [CallLoadImage image_path]).
Proof.
  intros H. unfold calculate_minutes_for_day, tbind, traced, tret.
  rewrite H. reflexivity.
Qed.

Lemma calculate_grid_failure (image_path target_day : string)
    (google_api_key : option string) (img : Image) :
  _load_image image_path = Some img ->
  grid_y_bottom (find_graph_area img) = None
  \/ grid_y_top (find_graph_area img) = None ->
  calculate_minutes_for_day image_path target_day google_api_key
  = (RespError "Failed to detect graph grid lines",
     [CallLoadImage image_path; CallFindGraphArea img]).
Proof.
  intros Hload Hgrid. unfold calculate_minutes_for_day, tbind, traced, tret.
  rewrite Hload.
  destruct (grid_y_bottom (find_graph_area img)) as [zb|];
    destruct (grid_y_top (find_graph_area img)) as [zt|];
    destruct Hgrid as [Hg | Hg]; try discriminate Hg; reflexivity.
Qed.

Lemma calculate_success (image_path target_day : string)
    (google_api_key : option string) (img : Image)
    (zero_line_y max_line_y : Z) :
  _load_image image_path = Some img ->
  grid_y_bottom (find_graph_area img) = Some zero_line_y ->
  grid_y_top (find_graph_area img) = Some max_line_y ->
  let crop_top := Z.max 0 (max_line_y - 50) in
  let crop_bottom := Z.min (img_height img) (zero_line_y + 100) in
  let cropped_img := crop_rows img crop_top crop_bottom in
  let semantic_data := extract_graph_data google_api_key cropped_img in
  exists scale full,
    scale_factor (parse_top_value (Y_axisTopValue semantic_data))
                 (zero_line_y - max_line_y) = Some scale
    /\ value (calculate_minutes_for_day image_path target_day google_api_key)
       = RespFull full
    /\ res_scale_factor full = scale
    /\ res_full_map full
       = build_day_value_map zero_line_y crop_top scale
           (sort_by_reverse center_x
              (fst (value (detect_bars_positions cropped_img))))
           (X_axis semantic_data)
    /\ calls (calculate_minutes_for_day image_path target_day google_api_key)
       = CallLoadImage image_path :: CallFindGraphArea img
         :: CallExtractGraphData cropped_img
         :: calls (detect_bars_positions cropped_img).
Proof.
  intros Hload Hzero Hmax. cbv zeta.
  destruct (scale_factor_defined
              (parse_top_value
                 (Y_axisTopValue
                    (extract_graph_data google_api_key
                       (crop_rows img (Z.max 0 (max_line_y - 50))
                          (Z.min (img_height img) (zero_line_y + 100))))))
              (zero_line_y - max_line_y)) as [scale [Hscale _]].
  exists scale.
  unfold calculate_minutes_for_day, tbind, traced, tret, value, calls,
    crop_window.
  rewrite Hload, Hzero, Hmax, Hscale.
  destruct (detect_bars_positions _) as [[positions debug] log].
  cbn [fst snd]. eexists. repeat split.
  rewrite app_nil_r. reflexivity.
Qed.

Lemma calculate_never_raises (image_path target_day : string)
    (google_api_key : option string) (exn : string) :
  value (calculate_minutes_for_day image_path target_day google_api_key)
  <> RespRaised exn.
Proof.
  destruct (_load_image image_path) as [img|] eqn:Hload.
  - destruct (grid_y_bottom (find_graph_area img)) as [zb|] eqn:Hb.
    + destruct (grid_y_top (find_graph_area img)) as [zt|] eqn:Ht.
      * destruct (calculate_success image_path target_day google_api_key
                    img zb zt Hload Hb Ht) as [s [full [_ [E _]]]].
        rewrite E. discriminate.
      * rewrite (calculate_grid_failure image_path target_day google_api_key
                   img Hload (or_intror Ht)). discriminate.
    + rewrite (calculate_grid_failure image_path target_day google_api_key
                 img Hload (or_introl Hb)). discriminate.
  - rewrite (calculate_load_failure image_path target_day google_api_key Hload).
    discriminate.
Qed.
End PipelineFacts.

(** C3: the scale factor is the top value divided by the pixel span
    when both are strictly positive and 0 in every other case, a
    non-positive span, a non-positive top value or a top value that
    cannot be parsed; it is never negative, and the division is never
    made by zero: the computation always yields a number, and the
    pipeline never ends in the exception of a division. *)
Theorem scale_factor_safe (max_value_minutes : Q) (pixel_span : Z) :
  (exists s, scale_factor max_value_minutes pixel_span = Some s /\ (0 <= s)%Q)
  /\ (0 < pixel_span /\ (0 < max_value_minutes)%Q ->
      exists s, scale_factor max_value_minutes pixel_span = Some s
                /\ (s == max_value_minutes / inject_Z pixel_span)%Q)
  /\ (pixel_span <= 0 \/ (max_value_minutes <= 0)%Q ->
      scale_factor max_value_minutes pixel_span = Some 0%Q)
  /\ (forall raw : string,
        py_float (strip_non_numeric raw) = None ->
        scale_factor (parse_top_value raw) pixel_span = Some 0%Q)
  /\ (forall (Image : Type) (V : Vision Image) (G : Gemini Image)
             (image_path target_day : string) (key : option string)
             (exn : string),
        value (calculate_minutes_for_day image_path target_day key)
        <> RespRaised exn).
Proof.
  split; [apply scale_factor_defined |]. split.
  - intros [Hs Hv]. eexists. split; [now apply scale_factor_positive |].
    apply Qred_correct.
  - split; [apply scale_factor_zero |]. split.
    + intros raw H. rewrite (parse_top_value_unparseable raw H).
      apply scale_factor_zero. right. lra.
    + intros. apply calculate_never_raises.
Qed.

(** C10: pixel height and minutes are not clamped at zero.  On
    [Synthetic.week_chart] the second bar from the right lies under the
    zero line, inside the 100 rows the crop keeps below it: its top in
    the crop, 500, plus the crop offset, 50, exceeds the zero line, 500,
    and the entry of its day and the minutes returned for that day are
    negative. *)
Theorem negative_minutes_not_clamped :
  exists (full : FullResult Picture) (e : Entry) (b : BarPosition),
    value (calculate_minutes_for_day "week.png" "שני" None) = RespFull full
    /\ sort_by_reverse center_x
         (fst (value (detect_bars_positions (crop week_chart 50 600))))
         !! 1%nat = Some b
    /\ res_zero_line_y_original full < y_top b + 50
    /\ y_top b < 600 - 50
    /\ res_full_map full !! "שני" = Some e
    /\ (minutes e < 0)%Q /\ pixels e < 0
    /\ (res_minutes full < 0)%Q /\ res_pixels_height full < 0
    /\ e = {| minutes := -30; pixels := -50 |}.
Proof.
  eexists. exists {| minutes := -30; pixels := -50 |}.
  exists {| center_x := 520; center_y := 515; y_top := 500;
            bbox := (500, 500, 40, 30); bar_type := "iOS" |}.
  split; [vm_compute; reflexivity |].
  repeat (split; [vm_compute; reflexivity |]).
  reflexivity.
Qed.

(** ** One entry per day name *)

(** Two labels with the same day name, the second with a bar. *)
Definition repeated_day : list Label :=
  [ {| label := "ראשון"; has_bar := false |};
    {| label := "ראשון"; has_bar := true |} ].

(** C7, as stated, fails when a day name is repeated: the two labels of
    [repeated_day] share one entry, and that entry, written last for the
    label with a bar, is not the zero entry that the first label, without
    a bar, is said to get. *)
Lemma repeated_day_shares_entry :
  length repeated_day = 2%nat
  /\ size (build_day_value_map 500 50 (3 # 5) week_bars_rtl repeated_day) = 1%nat
  /\ size (build_day_value_map 500 50 (3 # 5) week_bars_rtl repeated_day)
     <> length repeated_day
  /\ In {| label := "ראשון"; has_bar := false |} repeated_day
  /\ build_day_value_map 500 50 (3 # 5) week_bars_rtl repeated_day !! "ראשון"
     = Some {| minutes := 120; pixels := 200 |}
  /\ build_day_value_map 500 50 (3 # 5) week_bars_rtl repeated_day !! "ראשון"
     <> Some zero_entry.
Proof.
  split; [reflexivity |].
  split; [vm_compute; reflexivity |].
  split; [vm_compute; discriminate |].
  split; [now left |].
  split; [vm_compute; reflexivity |].
  vm_compute. discriminate.
Qed.

(** C7, amended: the map has an entry for exactly the day names of the
    labels, whatever the bars, so one entry per label when the names are
    distinct (a repeated name keeps the entry of its last label).  A
    label without a bar writes the zero entry and leaves the bar index
    alone; for a label whose name is not repeated later, the entry in the
    finished map is the zero entry when it has no bar, and also when it
    has one but the earlier labels with a bar have used up all the
    detected bars. *)
Theorem day_value_map_complete (zero_line_y crop_top : Z) (scale : Q)
    (bars_rtl : list BarPosition) (labels : list Label) :
  let m := build_day_value_map zero_line_y crop_top scale bars_rtl labels in
  (forall day : string, is_Some (m !! day) <-> In day (map label labels))
  /\ (NoDup (map label labels) -> size m = length labels)
  /\ (forall st l, has_bar l = false ->
        map_label zero_line_y crop_top scale bars_rtl st l
        = (fst st, <[label l := zero_entry]> (snd st)))
  /\ (forall pre l post,
        labels = pre ++ l :: post -> ~ In (label l) (map label post) ->
        (has_bar l = false -> m !! label l = Some zero_entry)
        /\ (has_bar l = true -> (length bars_rtl <= true_labels pre)%nat ->
            m !! label l = Some zero_entry)).
Proof.
  cbv zeta. split; [| split; [| split]].
  - intros day. unfold build_day_value_map, walk_labels.
    rewrite fold_entry_names. cbn [snd]. rewrite lookup_empty.
    split; [intros [[x Hx] | H]; [discriminate Hx | exact H] | now right].
  - intros Hnd. unfold build_day_value_map, walk_labels.
    rewrite fold_size; [cbn [snd]; now rewrite map_size_empty | exact Hnd |].
    intros l _. cbn [snd]. apply lookup_empty.
  - intros st l H. now apply map_label_no_bar.
  - intros pre l post Hlabels Hnot. subst labels. split.
    + intros H. apply build_entry_at; [| exact Hnot].
      now rewrite map_label_no_bar.
    + intros H Hbars. apply build_entry_at; [| exact Hnot].
      rewrite map_label_unmatched; [reflexivity | exact H |].
      apply lookup_ge_None. rewrite walk_bar_index. lia.
Qed.

(** A week of seven days, four of them flagged with a bar. *)
Definition four_true_week : list Label :=
  [ {| label := "שבת"; has_bar := false |};
    {| label := "שישי"; has_bar := false |};
    {| label := "חמישי"; has_bar := false |};
    {| label := "רביעי"; has_bar := true |};
    {| label := "שלישי"; has_bar := true |};
    {| label := "שני"; has_bar := true |};
    {| label := "ראשון"; has_bar := true |} ].

(** Three bars for four flagged days: seven entries, and the fourth
    flagged day has the zero entry. *)
Lemma day_value_map_complete_witness :
  length week_bars_rtl = 3%nat
  /\ true_labels four_true_week = 4%nat
  /\ size (build_day_value_map 500 50 (3 # 5) week_bars_rtl four_true_week)
     = 7%nat
  /\ build_day_value_map 500 50 (3 # 5) week_bars_rtl four_true_week !! "ראשון"
     = Some zero_entry.
Proof.
  pose proof (day_value_map_complete 500 50 (3 # 5) week_bars_rtl
                four_true_week) as H.
  cbv zeta in H. destruct H as [_ [Hsize [_ Hentry]]].
  split; [reflexivity |]. split; [reflexivity |]. split.
  - apply Hsize. apply (bool_decide_unpack _). vm_compute. reflexivity.
  - apply (Hentry (firstn 6 four_true_week)
                  {| label := "ראשון"; has_bar := true |} []).
    + reflexivity.
    + simpl. tauto.
    + reflexivity.
    + vm_compute. lia.
Defined.

(** ** The crop window *)

(** C8, as stated, fails at the edges of the image: on
    [Synthetic.low_chart], 1000 rows with its zero line at row 950, the
    crop handed to the label source and to the detectors ends at row
    1000, not at row 1050. *)
Lemma crop_window_clamped_at_edge :
  grid_y_top (find_graph_area low_chart) = Some 750
  /\ grid_y_bottom (find_graph_area low_chart) = Some 950
  /\ calls (calculate_minutes_for_day "low.png" "ראשון" None)
     = [ CallLoadImage "low.png"; CallFindGraphArea low_chart;
         CallExtractGraphData (crop low_chart 700 1000);
         CallDetectIos (crop low_chart 700 1000);
         CallDetectAndroidDark (crop low_chart 700 1000);
         CallDetectAndroidLight (crop low_chart 700 1000) ]
  /\ crop low_chart 700 1000 <> crop low_chart (750 - 50) (950 + 100)
  /\ crop_window 1000 750 950 <> (750 - 50, 950 + 100).
Proof.
  split; [vm_compute; reflexivity |].
  split; [vm_compute; reflexivity |].
  split; [vm_compute; reflexivity |].
  split; vm_compute; discriminate.
Qed.

(** C8, amended: after a successful grid detection the label source and
    every bar detector variant that is called receive the same crop of
    the image, all its columns and the rows from max(0, maxLineY - 50)
    to min(image height, zeroLineY + 100); that is maxLineY - 50 and
    zeroLineY + 100 whenever the image has those rows. *)
Theorem crop_window_passed {Image : Type} `{V : Vision Image} `{G : Gemini Image}
    (image_path target_day : string) (google_api_key : option string)
    (img : Image) (zero_line_y max_line_y : Z) :
  _load_image image_path = Some img ->
  grid_y_bottom (find_graph_area img) = Some zero_line_y ->
  grid_y_top (find_graph_area img) = Some max_line_y ->
  let crop_top := Z.max 0 (max_line_y - 50) in
  let crop_bottom := Z.min (img_height img) (zero_line_y + 100) in
  let cropped_img := crop_rows img crop_top crop_bottom in
  (exists detector_calls,
     calls (calculate_minutes_for_day image_path target_day google_api_key)
     = CallLoadImage image_path :: CallFindGraphArea img
       :: CallExtractGraphData cropped_img :: detector_calls
     /\ detector_calls = calls (detect_bars_positions cropped_img)
     /\ detector_calls <> []
     /\ Forall (detector_call_on cropped_img) detector_calls)
  /\ crop_window (img_height img) max_line_y zero_line_y
     = (crop_top, crop_bottom)
  /\ (50 <= max_line_y -> zero_line_y + 100 <= img_height img ->
      crop_top = max_line_y - 50 /\ crop_bottom = zero_line_y + 100).
Proof.
  intros Hload Hzero Hmax. cbv zeta. split; [| split].
  - destruct (calculate_success image_path target_day google_api_key img
                zero_line_y max_line_y Hload Hzero Hmax)
      as [s [full [_ [_ [_ [_ Hcalls]]]]]].
    cbv zeta in Hcalls. eexists. split; [exact Hcalls |].
    split; [reflexivity |]. rewrite calls_detect_bars_positions. split.
    + destruct (select_variant_cases
                  (crop_rows img (Z.max 0 (max_line_y - 50))
                     (Z.min (img_height img) (zero_line_y + 100))))
        as [[_ E] | [[_ [_ E]] | [[_ [_ [_ E]]] | [_ [_ [_ E]]]]]];
        rewrite E; discriminate.
    + apply calls_select_variant_on.
  - reflexivity.
  - intros H1 H2. lia.
Qed.

(** On [week_chart] the window is rows 50 to 600, and the label source
    and the detectors are called on that crop. *)
Lemma crop_window_passed_witness :
  crop_window (img_height week_chart) 100 500 = (50, 600)
  /\ exists detector_calls,
       calls (calculate_minutes_for_day "week.png" "ראשון" None)
       = CallLoadImage "week.png" :: CallFindGraphArea week_chart
         :: CallExtractGraphData (crop week_chart 50 600) :: detector_calls
       /\ Forall (detector_call_on (crop week_chart 50 600)) detector_calls.
Proof.
  assert (Hload : _load_image "week.png" = Some week_chart)
    by (vm_compute; reflexivity).
  assert (Hzero : grid_y_bottom (find_graph_area week_chart) = Some 500)
    by (vm_compute; reflexivity).
  assert (Hmax : grid_y_top (find_graph_area week_chart) = Some 100)
    by (vm_compute; reflexivity).
  pose proof (crop_window_passed "week.png" "ראשון" None week_chart 500 100
                Hload Hzero Hmax) as H.
  cbv zeta in H. destruct H as [[dc [Hcalls [_ [_ Hall]]]] _].
  split; [reflexivity |]. exists dc. split; [exact Hcalls | exact Hall].
Defined.

(** ** Failures at the boundary of the service *)

(** C2 against the code: when the image cannot be loaded, or the grid
    detector returns no cluster, [calculate_minutes_for_day] stops there
    and answers with the error record.  [process_day] hands the answer on
    as it is for an array and has an error record of its own for any
    other input; but for a file path it rewrites the answer into the old
    format and hands back the day, zero minutes, found = false and zero
    metadata, not the error record. *)
Theorem process_day_path_drops_error {Image : Type} `{V : Vision Image}
    `{G : Gemini Image} (image_path target_day : string)
    (google_api_key : option string) :
  _load_image image_path = None
  \/ (exists img, _load_image image_path = Some img
                  /\ (grid_y_bottom (find_graph_area img) = None
                      \/ grid_y_top (find_graph_area img) = None)) ->
  (exists msg,
     value (calculate_minutes_for_day image_path target_day google_api_key)
     = RespError msg)
  /\ (forall c,
        In c (calls (calculate_minutes_for_day image_path target_day
                       google_api_key)) ->
        c = CallLoadImage image_path \/ exists img, c = CallFindGraphArea img)
  /\ value (process_day google_api_key (InputPath image_path) target_day)
     = RespLegacy {| leg_day := target_day; leg_minutes := 0;
                     leg_found := false; leg_scale_min_per_px := 0;
                     leg_max_val_y := 0 |}
  /\ is_error_record
       (value (process_day google_api_key (InputPath image_path) target_day))
     = false
  /\ calls (process_day google_api_key (InputPath image_path) target_day)
     = calls (calculate_minutes_for_day image_path target_day google_api_key)
  /\ (forall a : Image,
        process_day google_api_key (InputArray a) target_day
        = calculate_minutes_for_day (cv2_imwrite_temp a) target_day
            google_api_key)
  /\ value (process_day google_api_key InputOther target_day)
     = RespError "Invalid image input".
Proof.
  intros Hfail.
  assert (Hcalc : exists msg log,
    calculate_minutes_for_day image_path target_day google_api_key
    = (RespError msg, log)
    /\ forall c, In c log ->
         c = CallLoadImage image_path \/ exists img, c = CallFindGraphArea img).
  { destruct Hfail as [Hload | [img [Hload Hgrid]]].
    - eexists; eexists. split; [now apply calculate_load_failure |].
      intros c [Hc | []]. now left.
    - eexists; eexists. split; [now apply (calculate_grid_failure _ _ _ img) |].
      intros c [Hc | [Hc | []]]; [now left | right; now exists img]. }
  destruct Hcalc as [msg [log [E Hlog]]].
  unfold process_day, tbind, tret, value, calls. rewrite E. cbn [fst snd].
  split; [now exists msg |]. split; [exact Hlog |].
  split; [reflexivity |]. split; [reflexivity |].
  split; [now rewrite app_nil_r |]. split; reflexivity.
Qed.

(** A path that cannot be read and a picture without gridlines both
    come back as a record of the old format. *)
Lemma process_day_path_drops_error_witness :
  value (process_day None (InputPath "missing.png") "ראשון")
  = RespLegacy {| leg_day := "ראשון"; leg_minutes := 0; leg_found := false;
                  leg_scale_min_per_px := 0; leg_max_val_y := 0 |}
  /\ value (process_day None (InputPath "blank.png") "ראשון")
     = RespLegacy {| leg_day := "ראשון"; leg_minutes := 0; leg_found := false;
                     leg_scale_min_per_px := 0; leg_max_val_y := 0 |}.
Proof.
  split.
  - refine (proj1 (proj2 (proj2
      (process_day_path_drops_error "missing.png" "ראשון" None _)))).
    left. vm_compute. reflexivity.
  - refine (proj1 (proj2 (proj2
      (process_day_path_drops_error "blank.png" "ראשון" None _)))).
    right. exists blank. split; [vm_compute; reflexivity |].
    left. vm_compute. reflexivity.
Defined.

(** * Further properties of the code *)

(** ** Sorting *)

Section SortFacts.
Context {A : Type} (key : A -> Z).

Local Abbreviation asc := (fun a b : A => key a <= key b).
Local Abbreviation desc := (fun a b : A => key b <= key a).

Lemma insert_asc_perm x (l : list A) : Permutation (insert_asc key x l) (x :: l).
Proof.
  induction l as [|y l IH]; simpl; [reflexivity |].
  destruct (key x <=? key y); [reflexivity |].
  rewrite IH. apply perm_swap.
Qed.

Lemma insert_desc_perm x (l : list A) :
  Permutation (insert_desc key x l) (x :: l).
Proof.
  induction l as [|y l IH]; simpl; [reflexivity |].
  destruct (key y <=? key x); [reflexivity |].
  rewrite IH. apply perm_swap.
Qed.

Lemma sort_by_perm (l : list A) : Permutation (sort_by key l) l.
Proof.
  induction l as [|x l IH]; simpl; [reflexivity |].
  rewrite insert_asc_perm. now rewrite IH.
Qed.

Lemma sort_by_reverse_perm (l : list A) :
  Permutation (sort_by_reverse key l) l.
Proof.
  induction l as [|x l IH]; simpl; [reflexivity |].
  rewrite insert_desc_perm. now rewrite IH.
Qed.

Lemma insert_asc_sorted x (l : list A) :
  StronglySorted asc l -> StronglySorted asc (insert_asc key x l).
Proof.
  induction l as [|y l IH]; intros Hs; simpl.
  - constructor; [constructor | constructor].
  - inversion Hs as [|? ? Hl Hy]; subst.
    destruct (key x <=? key y) eqn:E.
    + apply Z.leb_le in E. constructor; [exact Hs |].
      constructor; [exact E |].
      eapply List.Forall_impl; [| exact Hy]. simpl. intros a Ha. lia.
    + apply Z.leb_gt in E. constructor; [now apply IH |].
      rewrite List.Forall_forall. intros a Ha.
      apply (Permutation_in _ (insert_asc_perm x l)) in Ha.
      destruct Ha as [<- | Ha]; [lia |].
      rewrite List.Forall_forall in Hy. now apply Hy.
Qed.

Lemma insert_desc_sorted x (l : list A) :
  StronglySorted desc l -> StronglySorted desc (insert_desc key x l).
Proof.
  induction l as [|y l IH]; intros Hs; simpl.
  - constructor; [constructor | constructor].
  - inversion Hs as [|? ? Hl Hy]; subst.
    destruct (key y <=? key x) eqn:E.
    + apply Z.leb_le in E. constructor; [exact Hs |].
      constructor; [exact E |].
      eapply List.Forall_impl; [| exact Hy]. simpl. intros a Ha. lia.
    + apply Z.leb_gt in E. constructor; [now apply IH |].
      rewrite List.Forall_forall. intros a Ha.
      apply (Permutation_in _ (insert_desc_perm x l)) in Ha.
      destruct Ha as [<- | Ha]; [lia |].
      rewrite List.Forall_forall in Hy. now apply Hy.
Qed.

Lemma sort_by_sorted (l : list A) : StronglySorted asc (sort_by key l).
Proof.
  induction l as [|x l IH]; simpl; [constructor |].
  now apply insert_asc_sorted.
Qed.

Lemma sort_by_reverse_sorted (l : list A) :
  StronglySorted desc (sort_by_reverse key l).
Proof.
  induction l as [|x l IH]; simpl; [constructor |].
  now apply insert_desc_sorted.
Qed.
End SortFacts.

Lemma StronglySorted_map {A B : Type} (f : A -> B) (R : B -> B -> Prop)
    (l : list A) :
  StronglySorted (fun a b => R (f a) (f b)) l -> StronglySorted R (map f l).
Proof.
  induction 1 as [|a l Hs IH Ha]; simpl; constructor; [exact IH |].
  rewrite List.Forall_forall in *. intros b Hb.
  apply in_map_iff in Hb as [a' [<- Ha']]. now apply Ha.
Qed.

(** ** What the bar detector returns *)

Lemma py_int_half (x w : Z) :
  0 <= x -> 0 <= w -> py_int (inject_Z x + inject_Z w / 2) = x + w / 2.
Proof.
  intros Hx Hw.
  assert (E : (inject_Z x + inject_Z w / 2 == (2 * x + w) # 2)%Q).
  { unfold Qeq, Qplus, Qdiv, Qmult, Qinv, inject_Z. simpl Qnum. simpl Qden.
    simpl. lia. }
  unfold py_int.
  assert (Hnn : Qle_bool 0 (inject_Z x + inject_Z w / 2) = true).
  { apply Qle_bool_iff. rewrite E. unfold Qle. simpl. lia. }
  rewrite Hnn. rewrite (Qfloor_comp _ _ E). unfold Qfloor.
  replace (2 * x + w) with (w + x * 2) by lia.
  rewrite Z.div_add by lia. lia.
Qed.

(** The geometry of a returned bar, read off its bounding box. *)
Definition placed_in_bbox (b : BarPosition) : Prop :=
  let '(x, y, w, h) := bbox b in
  y_top b = y
  /\ (0 <= x -> 0 <= w -> center_x b = x + w / 2)
  /\ (0 <= y -> 0 <= h ->
      center_y b = if String.eqb (bar_type b) "Android-Light" then y
                   else y + h / 2).

Section BarFacts.
Context {Image : Type} `{V : Vision Image}.

Lemma process_contours_placed (cs : list Contour) (t : string) (r : list Contour) :
  String.eqb t "Android-Light" = false ->
  Forall (fun b => placed_in_bbox (item_pos b) /\ bar_type (item_pos b) = t)
         (fst (_process_contours_to_positions cs t r)).
Proof.
  intros Ht. unfold _process_contours_to_positions. cbn [fst].
  rewrite List.Forall_forall. intros b Hb.
  apply in_map_iff in Hb as [c [<- _]]. unfold placed_in_bbox. cbn.
  rewrite Ht. repeat split; intros; now apply py_int_half.
Qed.

Lemma detect_ios_bars_placed (image : Image) :
  Forall (fun b => placed_in_bbox (item_pos b) /\ bar_type (item_pos b) = "iOS")
         (detect_ios_bars image).
Proof.
  unfold detect_ios_bars. destruct (3 <=? length _)%nat; [| constructor].
  now apply process_contours_placed.
Qed.

Lemma detect_android_dark_bars_placed (image : Image) :
  Forall (fun b => placed_in_bbox (item_pos b)
                   /\ bar_type (item_pos b) = "Android")
         (fst (detect_android_dark_bars image)).
Proof.
  unfold detect_android_dark_bars. destruct (dark_stage image); [| constructor].
  now apply process_contours_placed.
Qed.

Lemma detect_android_light_bars_placed (image : Image) :
  Forall (fun b => placed_in_bbox (item_pos b)
                   /\ bar_type (item_pos b) = "Android-Light")
         (detect_android_light_bars image).
Proof.
  unfold detect_android_light_bars.
  destruct (3 <=? length _)%nat; [| constructor].
  rewrite List.Forall_forall. intros b Hb.
  apply in_map_iff in Hb as [d [<- Hd]].
  apply (Permutation_in _ (sort_by_perm _ _)) in Hd.
  apply in_map_iff in Hd as [c [<- _]].
  unfold placed_in_bbox. cbn. repeat split; reflexivity.
Qed.

Lemma select_variant_placed (image : Image) :
  Forall (fun b => placed_in_bbox (item_pos b)
                   /\ bar_type (item_pos b)
                      = detection_type (value (select_variant image)))
         (final_positions (value (select_variant image))).
Proof.
  destruct (select_variant_cases image)
    as [[Hn E] | [[Hi [Hd E]] | [[Hi [Hd [Hl E]]] | [Hi [Hd [Hl E]]]]]];
    rewrite E; unfold value; cbn [fst final_positions detection_type].
  - apply detect_ios_bars_placed.
  - apply detect_android_dark_bars_placed.
  - apply detect_android_light_bars_placed.
  - constructor.
Qed.

Lemma detect_bars_positions_perm (image : Image) :
  Permutation (fst (value (detect_bars_positions image)))
              (map item_pos (final_positions (value (select_variant image)))).
Proof.
  unfold detect_bars_positions, value, tbind, tret, _draw_final_bars.
  destruct (select_variant image) as [sel log]. cbn [fst].
  apply Permutation_map. apply sort_by_perm.
Qed.

Lemma detect_bars_positions_sorted (image : Image) :
  StronglySorted (fun a b => center_x a <= center_x b)
                 (fst (value (detect_bars_positions image))).
Proof.
  unfold detect_bars_positions, value, tbind, tret, _draw_final_bars.
  destruct (select_variant image) as [sel log]. cbn [fst].
  apply StronglySorted_map.
  apply (sort_by_sorted (fun b => center_x (item_pos b))).
Qed.
End BarFacts.

(** X1: [detect_bars_positions] returns the bars of the variant it chose
    sorted from left to right, because the drawing helper sorts the list
    it is given in place; the right-to-left list the compositor makes of
    them holds the same bars, none lost and none repeated, in
    non-increasing [center_x]. *)
Theorem detected_bars_left_to_right {Image : Type} `{V : Vision Image}
    (image : Image) :
  let bars := fst (value (detect_bars_positions image)) in
  StronglySorted (fun a b => center_x a <= center_x b) bars
  /\ Permutation bars
       (map item_pos (final_positions (value (select_variant image))))
  /\ StronglySorted (fun a b => center_x b <= center_x a)
       (sort_by_reverse center_x bars)
  /\ Permutation (sort_by_reverse center_x bars) bars.
Proof.
  cbv zeta. split; [apply detect_bars_positions_sorted |].
  split; [apply detect_bars_positions_perm |].
  split; [apply sort_by_reverse_sorted | apply sort_by_reverse_perm].
Qed.

(** X2: every bar [detect_bars_positions] returns carries the type of
    the variant that was chosen, its [y_top] is the top of its bounding
    box, and for a bounding box at non-negative coordinates its
    [center_x] is x + w // 2 in all three variants (two of them compute
    int(x + w / 2)); its [center_y] is the middle of the box, except in
    the light-theme variant where it is the top of the box. *)
Theorem detected_bars_geometry {Image : Type} `{V : Vision Image}
    (image : Image) :
  Forall (fun b => placed_in_bbox b
                   /\ bar_type b = detection_type (value (select_variant image)))
         (fst (value (detect_bars_positions image))).
Proof.
  rewrite List.Forall_forall. intros b Hb.
  apply (Permutation_in _ (detect_bars_positions_perm image)) in Hb.
  apply in_map_iff in Hb as [item [<- Hitem]].
  pose proof (select_variant_placed image) as H.
  rewrite List.Forall_forall in H. now apply H.
Qed.

(** ** The dark-theme and light-theme variants *)

(** [neighbours R l]: every element of [l] and the next one are related
    by [R]. *)
Fixpoint neighbours {A : Type} (R : A -> A -> Prop) (l : list A) : Prop :=
  match l with
  | a :: (b :: _) as t => R a b /\ neighbours R t
  | _ => True
  end.

Lemma neighbours_snoc {A : Type} (R : A -> A -> Prop) (l : list A) (a b : A) :
  neighbours R (l ++ [a]) -> R a b -> neighbours R ((l ++ [a]) ++ [b]).
Proof.
  intros Hl Hab. induction l as [|x l IH]; simpl in *; [tauto |].
  destruct (l ++ [a]) as [|y t] eqn:E.
  - destruct l; discriminate E.
  - simpl. destruct Hl as [Hxy Ht]. split; [exact Hxy |]. now apply IH.
Qed.

Lemma neighbours_impl {A : Type} (R S : A -> A -> Prop) (l : list A) :
  (forall a b, R a b -> S a b) -> neighbours R l -> neighbours S l.
Proof.
  intros HRS. induction l as [|a l IH]; [tauto |].
  destruct l as [|b l]; [tauto |]. intros [Hab Hl].
  split; [now apply HRS | now apply IH].
Qed.


Lemma py_max_by_In {A : Type} (f : A -> Q) (l : list A) (best : A) :
  In (py_max_by f best l) (best :: l).
Proof.
  revert best. induction l as [|x l IH]; intros best; simpl; [now left |].
  destruct (IH (if Qltb (f best) (f x) then x else best)) as [H | H].
  - destruct (Qltb (f best) (f x)); rewrite <- H; [right; now left | now left].
  - right. now right.
Qed.

Section RowFacts.
Context {Image : Type} `{V : Vision Image}.

(** Rows are cut where two neighbouring bottoms are 30 or more apart. *)
Definition same_row (a b : DarkItem) : Prop := d_bottom b - d_bottom a < 30.

Lemma group_rows_spec (candidates current_row : list DarkItem) (c : DarkItem) :
  neighbours same_row (current_row ++ [c]) ->
  let rows := group_rows (current_row ++ [c]) (d_bottom c) candidates in
  concat rows = (current_row ++ [c]) ++ candidates
  /\ Forall (fun r => r <> [] /\ neighbours same_row r) rows.
Proof.
  revert current_row c.
  induction candidates as [|d rest IH]; intros current_row c Hrow; cbv zeta.
  - simpl. split; [now rewrite !app_nil_r |].
    constructor; [| constructor].
    split; [destruct current_row; discriminate | exact Hrow].
  - simpl group_rows. destruct (d_bottom d - d_bottom c <? 30) eqn:E.
    + apply Z.ltb_lt in E.
      destruct (IH (current_row ++ [c]) d) as [Hcat Hrows].
      { now apply neighbours_snoc. }
      split; [| exact Hrows].
      rewrite Hcat. now rewrite <- !app_assoc.
    + destruct (IH [] d) as [Hcat Hrows]; [simpl; exact I |].
      simpl app in Hcat, Hrows. split.
      * simpl concat. rewrite Hcat. now rewrite <- !app_assoc.
      * constructor; [| exact Hrows].
        split; [destruct current_row; discriminate | exact Hrow].
Qed.

Lemma dark_item_fields (W : Z) (c : Contour) :
  d_cnt (dark_item W c) = c /\ d_width (dark_item W c) = cnt_w c
  /\ d_bottom (dark_item W c) = cnt_y c + cnt_h c.
Proof. repeat split. Qed.

Lemma dark_item_not_suspect (W : Z) (c : Contour) :
  is_suspect (dark_item W c) = false ->
  5 <= cnt_h c /\ 5 <= cnt_w c
  /\ (inject_Z (cnt_w c) <= inject_Z W * (9 # 10))%Q
  /\ (inject_Z (cnt_w c) <= inject_Z (cnt_h c) * (25 # 10))%Q.
Proof.
  unfold is_suspect, dark_item. cbn [d_reason].
  destruct (cnt_h c <? 5) eqn:Eh; [discriminate |].
  destruct (cnt_w c <? 5) eqn:Ew; [discriminate |].
  destruct (Qltb (inject_Z W * (9 # 10)) (inject_Z (cnt_w c))) eqn:EW;
    [discriminate |].
  destruct (Qltb (inject_Z (cnt_h c) * (25 # 10)) (inject_Z (cnt_w c))) eqn:Er;
    [discriminate |].
  intros _. apply Z.ltb_ge in Eh, Ew. apply Qltb_ge in EW, Er. tauto.
Qed.

(** A candidate of the shape filter: built from a contour of the image
    and not suspected. *)
Definition candidate_of (image : Image) (d : DarkItem) : Prop :=
  d = dark_item (img_width image) (d_cnt d)
  /\ In (d_cnt d) (find_contours_dark image)
  /\ is_suspect d = false.

Lemma remove_index_In {A} (i : nat) (l : list A) (x : A) :
  In x (remove_index i l) -> In x l.
Proof.
  revert i. induction l as [|a l IH]; intros i; simpl.
  - destruct i; simpl; tauto.
  - destruct i; simpl; [tauto |]. intros [-> | H]; [now left |].
    right. now apply (IH i).
Qed.

Lemma drop_frame_In (total_area : Z) (cs : list Contour) (c : Contour) :
  In c (drop_frame total_area cs) -> In c cs.
Proof.
  unfold drop_frame. destruct cs as [|c0 rest]; [tauto |].
  destruct (Qltb _ _); [apply remove_index_In | tauto].
Qed.

Lemma dark_stage_rows (image : Image) (st : DarkStage) :
  dark_stage image = Some st ->
  (3 <= length (List.filter (fun d => negb (is_suspect d))
                  (map (dark_item (img_width image))
                       (drop_frame (img_height image * img_width image)
                                   (find_contours_dark image)))))%nat
  /\ best_row st <> []
  /\ neighbours same_row (best_row st)
  /\ Forall (candidate_of image) (best_row st)
  /\ Forall (fun d => d = dark_item (img_width image) (d_cnt d)
                      /\ is_suspect d = true)
            (suspect_contours st).
Proof.
  unfold dark_stage.
  set (items := map (dark_item (img_width image))
                    (drop_frame (img_height image * img_width image)
                                (find_contours_dark image))).
  set (cands := List.filter (fun d => negb (is_suspect d)) items).
  assert (Hitems : forall d, In d items ->
            d = dark_item (img_width image) (d_cnt d)
            /\ In (d_cnt d) (find_contours_dark image)).
  { intros d Hd. apply in_map_iff in Hd as [c [<- Hc]].
    split; [reflexivity |]. cbn [d_cnt dark_item].
    now apply drop_frame_In in Hc. }
  assert (Hcands : forall d, In d cands -> candidate_of image d).
  { intros d Hd. apply List.filter_In in Hd as [Hd Hs].
    destruct (Hitems d Hd) as [H1 H2]. repeat split; try assumption.
    now apply negb_true_iff in Hs. }
  destruct (3 <=? length cands)%nat eqn:E3.
  2:{ simpl. discriminate. }
  apply Nat.leb_le in E3.
  destruct (length cands <? 3)%nat eqn:E3'.
  { apply Nat.ltb_lt in E3'. lia. }
  destruct (sort_by d_bottom cands) as [|c0 rest] eqn:Esort; [discriminate |].
  pose proof (group_rows_spec rest [] c0 I) as Hrows. cbv zeta in Hrows.
  simpl app in Hrows. destruct Hrows as [Hcat Hall].
  destruct (group_rows [c0] (d_bottom c0) rest) as [|r0 rows'] eqn:Erows;
    [discriminate |].
  pose proof (py_max_by_In row_width rows' r0) as Hin.
  destruct (py_max_by row_width r0 rows') as [|b row] eqn:Emax; [discriminate |].
  intros H. injection H as <-. cbn [best_row suspect_contours].
  rewrite List.Forall_forall in Hall. destruct (Hall _ Hin) as [Hne Hnb].
  split; [exact E3 |]. split; [exact Hne |]. split; [exact Hnb |]. split.
  - rewrite List.Forall_forall. intros d Hd. apply Hcands.
    apply (Permutation_in _ (sort_by_perm d_bottom cands)).
    rewrite Esort, <- Hcat. apply in_concat. exists (b :: row). now split.
  - rewrite List.Forall_forall. intros d Hd.
    apply List.filter_In in Hd as [Hd Hs]. split; [| exact Hs].
    now apply Hitems.
Qed.
End RowFacts.

(** X3: when the dark-theme variant gets as far as choosing its baseline
    row, every bar it returns, kept from the row or reclaimed, has a
    width within max(12, half the median row width) of the median row
    width; the members of the row are contours of the image that passed
    the shape filter (height and width at least 5, width at most 90% of
    the image width and at most 2.5 times the height), and neighbours in
    the row have bottoms less than 30 pixels apart. *)
Theorem dark_bars_uniform_width {Image : Type} `{V : Vision Image}
    (image : Image) (st : DarkStage) :
  dark_stage image = Some st ->
  Forall (fun b =>
            let '(_, _, w, _) := bbox (item_pos b) in
            (Qabs (inject_Z w - median_width st)
             <= Qmax 12 (median_width st * (1 # 2)))%Q)
         (fst (detect_android_dark_bars image))
  /\ length (fst (detect_android_dark_bars image))
     = (length (kept_of_row st) + length (reclaimed_contours_data st))%nat
  /\ best_row st <> []
  /\ neighbours same_row (best_row st)
  /\ Forall (fun d =>
               In (d_cnt d) (find_contours_dark image)
               /\ 5 <= cnt_h (d_cnt d) /\ 5 <= cnt_w (d_cnt d)
               /\ (inject_Z (cnt_w (d_cnt d))
                   <= inject_Z (img_width image) * (9 # 10))%Q
               /\ (inject_Z (cnt_w (d_cnt d))
                   <= inject_Z (cnt_h (d_cnt d)) * (25 # 10))%Q)
            (best_row st).
Proof.
  intros Hst.
  destruct (dark_stage_rows image st Hst) as [_ [Hne [Hnb [Hrow Hsus]]]].
  rewrite List.Forall_forall in Hrow, Hsus.
  split; [| split; [| split; [exact Hne | split; [exact Hnb |]]]].
  - unfold detect_android_dark_bars. rewrite Hst.
    unfold _process_contours_to_positions, final_contours. cbn [fst].
    rewrite List.Forall_forall. intros b Hb.
    apply in_map_iff in Hb as [c [<- Hc]]. cbn.
    assert (Hok : exists d, d_cnt d = c /\ d_width d = cnt_w c
                            /\ width_ok (median_width st) (d_width d) = true).
    { apply in_app_iff in Hc as [Hc | Hc];
        apply in_map_iff in Hc as [d [<- Hd]];
        apply List.filter_In in Hd as [Hd Hw]; exists d.
      - destruct (Hrow d Hd) as [Hd' _]. split; [reflexivity |].
        split; [now rewrite Hd' at 1 | exact Hw].
      - destruct (Hsus d Hd) as [Hd' _]. split; [reflexivity |].
        apply andb_true_iff in Hw as [Hw _].
        split; [now rewrite Hd' at 1 | exact Hw]. }
    destruct Hok as [d [_ [Hw Hok]]]. unfold width_ok in Hok.
    apply Qle_bool_iff in Hok. rewrite Hw in Hok.
    now rewrite <- (py_max_Qmax 12 (median_width st * (1 # 2))).
  - unfold detect_android_dark_bars. rewrite Hst.
    unfold _process_contours_to_positions, final_contours. cbn [fst].
    now rewrite length_map, length_app, !length_map.
  - rewrite List.Forall_forall. intros d Hd.
    destruct (Hrow d Hd) as [Hd' [Hin Hns]].
    rewrite Hd' in Hns. apply dark_item_not_suspect in Hns. tauto.
Qed.

(** On [dark_crop] the three bars and the reclaimed flat shape all have
    a width within 20 of the median 40. *)
Lemma dark_bars_uniform_width_witness :
  Forall (fun b =>
            let '(_, _, w, _) := bbox (item_pos b) in
            (Qabs (inject_Z w - median_width dark_crop_stage)
             <= Qmax 12 (median_width dark_crop_stage * (1 # 2)))%Q)
         (fst (detect_android_dark_bars dark_crop))
  /\ length (fst (detect_android_dark_bars dark_crop)) = 4%nat.
Proof.
  destruct (dark_bars_uniform_width dark_crop dark_crop_stage
              dark_crop_stage_reached) as [H [Hlen _]].
  split; [exact H |]. rewrite Hlen. reflexivity.
Defined.

Lemma Qdiv_bounds_Z (lo hi w h : Z) :
  0 < h ->
  (inject_Z lo <= inject_Z w / inject_Z h)%Q ->
  (inject_Z w / inject_Z h <= inject_Z hi)%Q ->
  lo * h <= w <= hi * h.
Proof.
  intros Hh Hlo Hhi.
  assert (Hq : (0 < inject_Z h)%Q) by (unfold Qlt; simpl; lia).
  assert (E : (inject_Z w / inject_Z h * inject_Z h == inject_Z w)%Q).
  { field. intros H0. rewrite H0 in Hq. now apply Qlt_irrefl in Hq. }
  split.
  - rewrite Zle_Qle, inject_Z_mult, <- E.
    apply Qmult_le_compat_r; [exact Hlo | now apply Qlt_le_weak].
  - rewrite Zle_Qle, inject_Z_mult, <- E.
    apply Qmult_le_compat_r; [exact Hhi | now apply Qlt_le_weak].
Qed.

Section DomeFacts.
Context {Image : Type} `{V : Vision Image}.

Lemma is_dome_shape (H W : Z) (c : Contour) :
  is_dome H W c = true ->
  (100 <= cnt_area c)%Q /\ 5 <= cnt_h c /\ 10 <= cnt_w c
  /\ 2 * cnt_h c <= cnt_w c <= 10 * cnt_h c
  /\ 10 * cnt_w c <= 3 * W
  /\ (inject_Z (cnt_y c) / inject_Z H <= 9 # 10)%Q.
Proof.
  unfold is_dome. cbv zeta.
  destruct (Qltb (cnt_area c) 100) eqn:Ea; [discriminate |].
  destruct (0 <? cnt_h c) eqn:Eh0.
  - destruct (Qltb (inject_Z (cnt_w c) / inject_Z (cnt_h c)) 2) eqn:E2;
      [discriminate |].
    destruct (Qltb 10 (inject_Z (cnt_w c) / inject_Z (cnt_h c))) eqn:E10;
      [discriminate |].
    cbn [orb].
    destruct (cnt_h c <? 5) eqn:Eh; [discriminate |].
    destruct (Qltb (9 # 10) _) eqn:Ey; [discriminate |].
    destruct (cnt_w c <? 10) eqn:Ew; [discriminate |].
    destruct (Qltb (inject_Z W * (3 # 10)) (inject_Z (cnt_w c))) eqn:EW;
      [discriminate |].
    intros _. apply Z.ltb_lt in Eh0. apply Z.ltb_ge in Eh, Ew.
    apply Qltb_ge in Ea, E2, E10, Ey, EW.
    split; [exact Ea |]. split; [exact Eh |]. split; [exact Ew |].
    split; [now apply (Qdiv_bounds_Z 2 10) |]. split; [| exact Ey].
    unfold Qle in EW. simpl in EW. lia.
  - assert (E : Qltb 0 2 = true) by reflexivity. rewrite E. discriminate.
Qed.
End DomeFacts.

(** X4: every bar the light-theme variant returns is the bounding box of
    a contour it found whose area is at least 100, whose height is at
    least 5, whose width is at least 10, between 2 and 10 times the
    height and at most 30% of the image width, and whose top lies at most
    90% of the way down the image; the bars come sorted from left to
    right. *)
Theorem light_bars_are_domes {Image : Type} `{V : Vision Image}
    (image : Image) :
  Forall (fun b =>
            let c := item_cnt b in
            In c (find_contours_light image)
            /\ bbox (item_pos b) = (cnt_x c, cnt_y c, cnt_w c, cnt_h c)
            /\ (100 <= cnt_area c)%Q /\ 5 <= cnt_h c /\ 10 <= cnt_w c
            /\ 2 * cnt_h c <= cnt_w c <= 10 * cnt_h c
            /\ 10 * cnt_w c <= 3 * img_width image
            /\ (inject_Z (cnt_y c) / inject_Z (img_height image) <= 9 # 10)%Q)
         (detect_android_light_bars image)
  /\ StronglySorted (fun a b => center_x (item_pos a) <= center_x (item_pos b))
                    (detect_android_light_bars image).
Proof.
  unfold detect_android_light_bars.
  destruct (3 <=? length _)%nat; [| split; constructor].
  split.
  - rewrite List.Forall_forall. intros b Hb.
    apply in_map_iff in Hb as [d [<- Hd]].
    apply (Permutation_in _ (sort_by_perm _ _)) in Hd.
    apply in_map_iff in Hd as [c [<- Hc]].
    apply List.filter_In in Hc as [Hc Hdome]. cbn.
    split; [now apply drop_frame_In in Hc |]. split; [reflexivity |].
    now apply is_dome_shape in Hdome.
  - apply StronglySorted_map with
      (f := fun d => {| item_pos := _; item_cnt := dome_cnt d |})
      (R := fun a b => center_x (item_pos a) <= center_x (item_pos b)).
    cbn. apply (sort_by_sorted dome_center_x).
Qed.

(** ** Clustering line segments *)

Lemma sum_Z_bounds (a b : Z) (c : list Z) :
  Forall (fun p => a <= p <= b) c ->
  Z.of_nat (length c) * a <= sum_Z c <= Z.of_nat (length c) * b.
Proof.
  induction 1 as [|p c Hp Hc IH]; [simpl; lia |].
  unfold sum_Z in *. simpl fold_right. simpl length. lia.
Qed.

Lemma py_int_bounds (a b : Z) (q : Q) :
  (inject_Z a <= q)%Q -> (q <= inject_Z b)%Q -> a <= py_int q <= b.
Proof.
  intros Ha Hb. unfold py_int.
  pose proof (Qfloor_le q) as Hf. pose proof (Qlt_floor q) as Hf'.
  pose proof (Qle_ceiling q) as Hc. pose proof (Qceiling_lt q) as Hc'.
  destruct (Qle_bool 0 q).
  - split.
    + assert (H : (inject_Z a < inject_Z (Qfloor q + 1))%Q) by lra.
      rewrite <- Zlt_Qlt in H. lia.
    + assert (H : (inject_Z (Qfloor q) <= inject_Z b)%Q) by lra.
      now rewrite <- Zle_Qle in H.
  - split.
    + assert (H : (inject_Z a <= inject_Z (Qceiling q))%Q) by lra.
      now rewrite <- Zle_Qle in H.
    + assert (H : (inject_Z (Qceiling q - 1) < inject_Z b)%Q) by lra.
      rewrite <- Zlt_Qlt in H. lia.
Qed.

Lemma mean_int_bounds (a b : Z) (c : list Z) :
  c <> [] -> Forall (fun p => a <= p <= b) c -> a <= mean_int c <= b.
Proof.
  intros Hne Hc. unfold mean_int.
  pose proof (sum_Z_bounds a b c Hc) as [Hlo Hhi].
  assert (Hn : 0 < Z.of_nat (length c)).
  { destruct c; [contradiction | simpl length; lia]. }
  assert (Hq : (0 < inject_Z (Z.of_nat (length c)))%Q).
  { unfold Qlt. simpl. lia. }
  apply py_int_bounds.
  - apply Qle_shift_div_l; [exact Hq |].
    rewrite <- inject_Z_mult, <- Zle_Qle. lia.
  - apply Qle_shift_div_r; [exact Hq |].
    rewrite <- inject_Z_mult, <- Zle_Qle. lia.
Qed.

(** Two clustered lines are at least 10 pixels apart. *)
Definition apart10 (a b : Z) : Prop := a + 10 <= b.

Lemma cluster_positions_spec (positions current_cluster : list Z)
    (lo last_pos hi : Z) :
  current_cluster <> [] ->
  Forall (fun p => lo <= p <= last_pos) current_cluster ->
  StronglySorted Z.le positions ->
  Forall (fun p => last_pos <= p <= hi) positions ->
  last_pos <= hi ->
  let out := cluster_positions current_cluster last_pos positions in
  neighbours apart10 out
  /\ (exists h t, out = h :: t /\ lo <= h)
  /\ Forall (fun m => lo <= m <= hi) out
  /\ (length out <= S (length positions))%nat.
Proof.
  revert current_cluster lo last_pos.
  induction positions as [|pos rest IH];
    intros current_cluster lo last_pos Hne Hcur Hsorted Hpos Hhi; cbv zeta.
  - simpl. pose proof (mean_int_bounds lo last_pos current_cluster Hne Hcur).
    split; [exact I |]. split; [eexists; eexists; split; [reflexivity | lia] |].
    split; [| lia]. constructor; [lia | constructor].
  - simpl cluster_positions.
    inversion Hsorted as [|? ? Hs Hall]; subst.
    inversion Hpos as [|? ? Hp Hrest]; subst.
    assert (Hrest' : Forall (fun p => pos <= p <= hi) rest).
    { rewrite List.Forall_forall in *. intros p Hin.
      specialize (Hall p Hin). specialize (Hrest p Hin). lia. }
    assert (Hlo : lo <= last_pos).
    { destruct current_cluster as [|p0 c0]; [contradiction |].
      inversion Hcur; subst. lia. }
    destruct (Z.abs (pos - last_pos) <? 10) eqn:E.
    + destruct (IH (current_cluster ++ [pos]) lo pos) as [H1 [H2 [H3 H4]]];
        try assumption; try lia.
      * destruct current_cluster; discriminate.
      * apply Forall_app. split.
        -- eapply List.Forall_impl; [| exact Hcur]. simpl. intros; lia.
        -- constructor; [lia | constructor].
      * split; [exact H1 |]. split; [exact H2 |]. split; [exact H3 |].
        simpl length. lia.
    + apply Z.ltb_ge in E.
      pose proof (mean_int_bounds lo last_pos current_cluster Hne Hcur) as Hm.
      destruct (IH [pos] pos pos) as [H1 [[h [t [Hout Hh]]] [H3 H4]]];
        try assumption; try lia.
      * discriminate.
      * constructor; [lia | constructor].
      * rewrite Hout in *. split.
        -- simpl. split; [unfold apart10; lia | exact H1].
        -- split; [eexists; eexists; split; [reflexivity | lia] |].
           split.
           ++ constructor; [lia |].
              eapply List.Forall_impl; [| exact H3]. simpl. intros; lia.
           ++ simpl length in *. lia.
Qed.

(** X5: the positions [_cluster_lines] returns are in increasing order
    and at least 10 pixels apart, so no line is reported twice; there is
    at least one position when there is a segment, never more positions
    than segments, and every position lies between the smallest and the
    largest coordinate of the segments. *)
Theorem cluster_lines_separated (lines : list Segment) (orientation : string)
    (lo hi : Z) :
  let key := if String.eqb orientation "horizontal" then seg_y1 else seg_x1 in
  Forall (fun l => lo <= key l <= hi) lines ->
  neighbours apart10 (_cluster_lines lines orientation)
  /\ (lines <> [] -> _cluster_lines lines orientation <> [])
  /\ (length (_cluster_lines lines orientation) <= length lines)%nat
  /\ Forall (fun m => lo <= m <= hi) (_cluster_lines lines orientation).
Proof.
  cbv zeta. intros Hbounds. unfold _cluster_lines.
  set (key := if String.eqb orientation "horizontal" then seg_y1 else seg_x1)
    in *.
  pose proof (sort_by_sorted key lines) as Hsorted.
  pose proof (sort_by_perm key lines) as Hperm.
  destruct (sort_by key lines) as [|l0 rest] eqn:E.
  - apply Permutation_nil in Hperm. subst lines.
    split; [exact I |]. split; [tauto |]. split; [simpl; lia | constructor].
  - assert (Hall : Forall (fun l => lo <= key l <= hi) (l0 :: rest)).
    { rewrite List.Forall_forall in *. intros l Hl. apply Hbounds.
      now apply (Permutation_in _ Hperm). }
    inversion Hall as [|? ? H0 Hrest]; subst.
    inversion Hsorted as [|? ? Hs Hge]; subst.
    destruct (cluster_positions_spec (map key rest) [key l0] lo (key l0) hi)
      as [H1 [[h [t [Hout Hh]]] [H3 H4]]].
    + discriminate.
    + constructor; [lia | constructor].
    + now apply StronglySorted_map.
    + rewrite List.Forall_forall in *. intros p Hp.
      apply in_map_iff in Hp as [l [<- Hl]].
      specialize (Hge l Hl). specialize (Hrest l Hl). lia.
    + lia.
    + split; [exact H1 |]. split; [rewrite Hout; discriminate |].
      split; [| exact H3].
      rewrite length_map in H4. apply Permutation_length in Hperm.
      simpl length in Hperm. lia.
Qed.

(** Two segments six rows apart and a third far below give two lines. *)
Lemma cluster_lines_separated_witness :
  neighbours apart10
    (_cluster_lines
       [ {| seg_x1 := 0; seg_y1 := 204; seg_x2 := 90; seg_y2 := 204 |};
         {| seg_x1 := 0; seg_y1 := 100; seg_x2 := 90; seg_y2 := 101 |};
         {| seg_x1 := 5; seg_y1 := 199; seg_x2 := 80; seg_y2 := 199 |} ]
       "horizontal").
Proof.
  refine (proj1 (cluster_lines_separated _ "horizontal" 100 204 _)).
  repeat (constructor; [simpl; lia |]). constructor.
Defined.

(** ** The grid the detector returns *)

(** Neighbouring lines of a cluster grown for the spacing [delta]. *)
Definition spaced (delta a b : Z) : Prop := Z.abs (b - a - delta) < 6.

Lemma extend_cluster_spec (delta : Z) (later pre : list Z) (current_line : Z) :
  neighbours (spaced delta) (pre ++ [current_line]) ->
  let out := extend_cluster delta (pre ++ [current_line]) current_line later in
  neighbours (spaced delta) out
  /\ exists ext, out = (pre ++ [current_line]) ++ ext
                 /\ forall y, In y ext -> In y later.
Proof.
  revert pre current_line.
  induction later as [|cand later IH]; intros pre current_line Hn; cbv zeta.
  - simpl. split; [exact Hn |]. exists []. now rewrite app_nil_r.
  - simpl extend_cluster. unfold DELTA_TOLERANCE.
    destruct (Z.abs (cand - (current_line + delta)) <? 6) eqn:E.
    + apply Z.ltb_lt in E.
      destruct (IH (pre ++ [current_line]) cand) as [H1 [ext [H2 H3]]].
      { apply neighbours_snoc; [exact Hn |]. unfold spaced.
        replace (cand - current_line - delta)
          with (cand - (current_line + delta)) by lia. exact E. }
      split; [exact H1 |]. exists (cand :: ext). split.
      * rewrite H2. now rewrite <- !app_assoc.
      * intros y [<- | Hy]; [now left | right; now apply H3].
    + destruct (current_line + delta + 6 <? cand).
      * split; [exact Hn |]. exists []. now rewrite app_nil_r.
      * destruct (IH pre current_line Hn) as [H1 [ext [H2 H3]]].
        split; [exact H1 |]. exists ext. split; [exact H2 |].
        intros y Hy. right. now apply H3.
Qed.

(** A cluster the search keeps: three to nine lines, the first one
    inside the band of the image that is searched, the second one
    [delta] below it, and every further one within the tolerance of
    [delta] below the one before. *)
Definition grid_cluster (image_height : Z) (lines_sorted c : list Z) : Prop :=
  (3 <= length c <= 9)%nat
  /\ (forall y, In y c -> In y lines_sorted)
  /\ exists line_start line_next rest,
       c = line_start :: line_next :: rest
       /\ (inject_Z image_height * (10 # 100) < inject_Z line_start)%Q
       /\ (inject_Z line_start < inject_Z image_height * (98 # 100))%Q
       /\ 25 < line_next - line_start < 300
       /\ neighbours (spaced (line_next - line_start)) c.

Definition best_ok (image_height : Z) (lines_sorted : list Z)
    (best : Best) : Prop :=
  (0 <= snd best)%Q
  /\ match fst best with
     | Some cand => grid_cluster image_height lines_sorted (cluster cand)
                    /\ (0 < score cand)%Q
     | None => True
     end.

Section GridFacts.
Context {Image : Type} `{V : Vision Image}.

Lemma scan_next_ok (image_height : Z) (pass : string) (lines_sorted : list Z)
    (line_start : Z) (later : list Z) (best : Best) :
  (inject_Z image_height * (10 # 100) < inject_Z line_start)%Q ->
  (inject_Z line_start < inject_Z image_height * (98 # 100))%Q ->
  In line_start lines_sorted ->
  (forall y, In y later -> In y lines_sorted) ->
  best_ok image_height lines_sorted best ->
  best_ok image_height lines_sorted
          (scan_next image_height pass line_start later best).
Proof.
  intros Hlo Hhi Hstart. revert best.
  induction later as [|line_next later IH]; intros best Hlater Hbest;
    [exact Hbest |].
  cbn [scan_next]. apply IH; [intros y Hy; apply Hlater; now right |].
  unfold MIN_SPACING, MAX_LINES_IN_CLUSTER.
  destruct ((25 <? line_next - line_start) && (line_next - line_start <? 300))
    eqn:Ed; [| exact Hbest].
  apply andb_true_iff in Ed as [Ed1 Ed2].
  apply Z.ltb_lt in Ed1, Ed2.
  destruct (extend_cluster_spec (line_next - line_start) later [line_start]
              line_next) as [Hn [ext [Hext Hsub]]].
  { simpl. split; [| exact I]. unfold spaced.
    replace (line_next - line_start - (line_next - line_start)) with 0 by lia.
    simpl. lia. }
  simpl app in Hn, Hext. cbv zeta.
  set (c := extend_cluster (line_next - line_start) [line_start; line_next]
              line_next later) in *.
  destruct (3 <=? length c)%nat eqn:E3; [| exact Hbest].
  destruct (9 <? length c)%nat eqn:E9; [exact Hbest |].
  destruct (Qltb (snd best) (final_score image_height c)) eqn:Es;
    [| exact Hbest].
  apply Nat.leb_le in E3. apply Nat.ltb_ge in E9. apply Qltb_lt in Es.
  destruct Hbest as [Hnn _].
  split; cbn [fst snd cluster score]; [lra |]. split; [| lra].
  split; [lia |]. split.
  - intros y Hy. rewrite Hext in Hy.
    destruct Hy as [<- | [<- | Hy]]; [exact Hstart | | ].
    + apply Hlater. now left.
    + apply Hlater. right. now apply Hsub.
  - exists line_start, line_next, ext. rewrite <- Hext. tauto.
Qed.

Lemma scan_start_ok (image_height : Z) (pass : string)
    (lines_sorted lines : list Z) (best : Best) :
  (forall y, In y lines -> In y lines_sorted) ->
  best_ok image_height lines_sorted best ->
  best_ok image_height lines_sorted (scan_start image_height pass lines best).
Proof.
  revert best. induction lines as [|line_start later IH]; intros best Hsub Hbest;
    [exact Hbest |].
  cbn [scan_start]. apply IH; [intros y Hy; apply Hsub; now right |].
  destruct (Qltb _ _ && Qltb _ _) eqn:E; [| exact Hbest].
  apply andb_true_iff in E as [E1 E2]. apply Qltb_lt in E1, E2.
  apply scan_next_ok; try assumption.
  - apply Hsub. now left.
  - intros y Hy. apply Hsub. now right.
Qed.

Lemma run_pass_ok (img : Image) (s : Strategy) (cand : Candidate) :
  run_pass img s = Some cand ->
  grid_cluster (img_height img)
    (sort_by (fun y => y)
       (horizontal (_find_graph_grid_internal img (canny s) (morph s) (hough s))))
    (cluster cand)
  /\ (0 < score cand)%Q.
Proof.
  unfold run_pass. cbv zeta. destruct (length _ <? 3)%nat; [discriminate |].
  intros H.
  pose proof (scan_start_ok (img_height img) (name s)
                (sort_by (fun y => y)
                   (horizontal (_find_graph_grid_internal img (canny s)
                                  (morph s) (hough s))))
                (sort_by (fun y => y)
                   (horizontal (_find_graph_grid_internal img (canny s)
                                  (morph s) (hough s))))
                (None, 0%Q) (fun y Hy => Hy)) as Hok.
  destruct Hok as [_ Hok]; [split; [cbn; lra | exact I] |].
  rewrite H in Hok. exact Hok.
Qed.
End GridFacts.

Lemma neighbours_above (R : Z -> Z -> Prop) (a : Z) (l : list Z) :
  (forall x y, R x y -> x < y) ->
  neighbours R (a :: l) -> Forall (fun x => a < x) l.
Proof.
  intros HR. revert a. induction l as [|b l IH]; intros a Hn; [constructor |].
  destruct Hn as [Hab Hn]. apply HR in Hab as Hlt.
  constructor; [exact Hlt |].
  eapply List.Forall_impl; [| exact (IH b Hn)]. simpl. intros; lia.
Qed.

Lemma fold_min_head (a : Z) (l : list Z) :
  Forall (fun x => a < x) l -> fold_right Z.min a (a :: l) = a.
Proof.
  intros H. simpl.
  assert (E : fold_right Z.min a l = a).
  { induction H as [|x l Hx Hl IH]; simpl; [reflexivity | lia]. }
  lia.
Qed.

Lemma fold_max_last (R : Z -> Z -> Prop) (init : Z) (l : list Z) :
  (forall x y, R x y -> x < y) ->
  neighbours R l -> l <> [] -> init <= hd 0 l ->
  fold_right Z.max init l = List.last l 0 /\ hd 0 l <= List.last l 0.
Proof.
  intros HR. induction l as [|a l IH]; intros Hn Hne Hinit; [contradiction |].
  destruct l as [|b l].
  - simpl in *. lia.
  - destruct Hn as [Hab Hn]. apply HR in Hab.
    destruct (IH Hn) as [E Hle]; [discriminate | simpl in *; lia |].
    change (fold_right Z.max init (a :: b :: l))
      with (Z.max a (fold_right Z.max init (b :: l))).
    change (List.last (a :: b :: l) 0) with (List.last (b :: l) 0).
    rewrite E. simpl hd in *. lia.
Qed.

Lemma np_diff_neighbours (P : Z -> Prop) (l : list Z) :
  neighbours (fun a b => P (b - a)) l -> Forall P (np_diff l).
Proof.
  induction l as [|a l IH]; [constructor |].
  destruct l as [|b l]; [constructor |]. intros [Hab Hn].
  change (np_diff (a :: b :: l)) with ((b - a) :: np_diff (b :: l)).
  constructor; [exact Hab | now apply IH].
Qed.

Lemma np_median_lower (m : Z) (l : list Z) :
  l <> [] -> Forall (fun x => m <= x) l -> (inject_Z m <= np_median l)%Q.
Proof.
  intros Hne Hall. unfold np_median. cbv zeta.
  pose proof (sort_by_perm (fun z => z) l) as Hperm.
  set (s := sort_by (fun z => z) l) in *.
  assert (Hlen : (0 < length s)%nat).
  { rewrite (Permutation_length Hperm). destruct l; [contradiction |].
    simpl; lia. }
  assert (Hnth : forall i, (i < length s)%nat -> m <= nth i s 0).
  { intros i Hi. rewrite List.Forall_forall in Hall. apply Hall.
    apply (Permutation_in _ Hperm). now apply nth_In. }
  assert (Hhalf : (length s / 2 < length s)%nat)
    by (apply Nat.div_lt; lia).
  destruct (Nat.even (length s)).
  - rewrite Qred_correct.
    pose proof (Hnth (length s / 2 - 1)%nat ltac:(lia)) as H1.
    pose proof (Hnth (length s / 2)%nat Hhalf) as H2.
    rewrite Zle_Qle in H1, H2.
    apply Qle_shift_div_l; [reflexivity | lra].
  - rewrite <- Zle_Qle. now apply Hnth.
Qed.

Lemma grid_cluster_shape (image_height : Z) (lines_sorted c : list Z) :
  grid_cluster image_height lines_sorted c ->
  neighbours (fun a b => 21 <= b - a <= 304) c
  /\ fold_right Z.min (hd 0 c) c = hd 0 c
  /\ fold_right Z.max (hd 0 c) c = List.last c 0
  /\ hd 0 c + 47 <= List.last c 0
  /\ (inject_Z image_height * (10 # 100) < inject_Z (hd 0%Z c))%Q
  /\ (inject_Z (hd 0%Z c) < inject_Z image_height * (98 # 100))%Q
  /\ (21 <= np_median (np_diff c))%Q.
Proof.
  intros [Hlen [_ [s [n [rest [Hc [Hlo [Hhi [Hd Hn]]]]]]]]]. subst c.
  assert (Hgap : neighbours (fun a b => 21 <= b - a <= 304) (s :: n :: rest)).
  { eapply neighbours_impl; [| exact Hn]. unfold spaced. intros a b H. lia. }
  assert (Hlt : forall x y : Z, 21 <= y - x <= 304 -> x < y) by (intros; lia).
  split; [exact Hgap |]. split.
  { apply fold_min_head. now apply (neighbours_above _ _ _ Hlt). }
  destruct (fold_max_last _ s (s :: n :: rest) Hlt Hgap) as [Emax _];
    [discriminate | simpl; lia |].
  split; [exact Emax |]. split.
  - destruct rest as [|z rest]; [simpl in Hlen; lia |].
    destruct Hn as [_ [Hnz _]]. destruct Hgap as [_ [_ Hgap]].
    destruct (fold_max_last _ z (z :: rest) Hlt Hgap) as [_ Hle];
      [discriminate | simpl; lia |].
    change (List.last (s :: n :: z :: rest) 0) with (List.last (z :: rest) 0).
    unfold spaced in Hnz. simpl hd in *. lia.
  - split; [exact Hlo |]. split; [exact Hhi |].
    apply (np_median_lower 21); [discriminate |].
    apply np_diff_neighbours with (P := fun d => 21 <= d).
    eapply neighbours_impl; [| exact Hgap]. simpl. intros; lia.
Qed.

Lemma find_graph_area_cluster {Image : Type} `{V : Vision Image} (img : Image) :
  let g := find_graph_area img in
  (grid_y_top g = None /\ grid_y_bottom g = None /\ grid_lines g = [])
  \/ (exists lines_sorted,
        grid_cluster (img_height img) lines_sorted (grid_lines g)
        /\ grid_y_top g
           = Some (fold_right Z.min (hd 0 (grid_lines g)) (grid_lines g))
        /\ grid_y_bottom g
           = Some (fold_right Z.max (hd 0 (grid_lines g)) (grid_lines g))
        /\ avg_delta g = np_median (np_diff (grid_lines g))).
Proof.
  cbv zeta. unfold find_graph_area. cbv zeta.
  destruct (omap (run_pass img) (strategies (img_width img)))
    as [|c0 rest] eqn:E; [left; repeat split |].
  right. cbn [grid_y_top grid_y_bottom grid_lines avg_delta].
  pose proof (py_max_by_In score rest c0) as Hin. rewrite <- E in Hin.
  apply list_elem_of_In in Hin. apply list_elem_of_omap in Hin as [s [_ Hs]].
  apply run_pass_ok in Hs as [Hc _].
  eexists. split; [exact Hc |]. repeat split.
Qed.

(** X6: [find_graph_area] either fails, with neither [y_top] nor
    [y_bottom] and no lines, or returns both together with three to nine
    lines in increasing order, 21 to 304 pixels from one to the next;
    [y_top] is the first line and [y_bottom] the last, at least 47 pixels
    lower; [y_top] lies strictly between 10% and 98% of the image height;
    and the spacing reported is at least 21. *)
Theorem find_graph_area_shape {Image : Type} `{V : Vision Image} (img : Image) :
  let g := find_graph_area img in
  (grid_y_top g = None /\ grid_y_bottom g = None /\ grid_lines g = [])
  \/ (exists yt yb : Z,
        grid_y_top g = Some yt /\ grid_y_bottom g = Some yb
        /\ (3 <= length (grid_lines g) <= 9)%nat
        /\ hd 0 (grid_lines g) = yt /\ List.last (grid_lines g) 0 = yb
        /\ neighbours (fun a b => 21 <= b - a <= 304) (grid_lines g)
        /\ yt + 47 <= yb
        /\ (inject_Z (img_height img) * (10 # 100) < inject_Z yt)%Q
        /\ (inject_Z yt < inject_Z (img_height img) * (98 # 100))%Q
        /\ (21 <= avg_delta g)%Q).
Proof.
  cbv zeta.
  destruct (find_graph_area_cluster img) as [H | [ls [Hc [Ht [Hb Hd]]]]];
    [now left | right].
  pose proof Hc as [Hlen _].
  apply grid_cluster_shape in Hc as [H1 [H2 [H3 [H4 [H5 [H6 H7]]]]]].
  rewrite Ht, Hb, Hd, H2, H3.
  eexists. eexists. split; [reflexivity |]. split; [reflexivity |].
  repeat split; try assumption; lia.
Qed.

(** ** The top axis value *)

Fixpoint numeric_only (s : string) : Prop :=
  match s with
  | EmptyString => True
  | String c s' => (is_digit c || is_dot c) = true /\ numeric_only s'
  end.

Lemma strip_numeric_only (s : string) : numeric_only (strip_non_numeric s).
Proof.
  induction s as [|c s IH]; simpl; [exact I |].
  destruct (is_digit c || is_dot c) eqn:E; [simpl; now split | exact IH].
Qed.

Lemma strip_of_numeric_only (s : string) :
  numeric_only s -> strip_non_numeric s = s.
Proof.
  induction s as [|c s IH]; simpl; [reflexivity |].
  intros [Hc Hs]. rewrite Hc. now rewrite IH.
Qed.

Lemma strip_skips (a b : string) (c : ascii) :
  is_digit c = false -> is_dot c = false ->
  strip_non_numeric (a ++ String c b) = strip_non_numeric (a ++ b).
Proof.
  intros Hd Hp. induction a as [|x a IH]; simpl.
  - now rewrite Hd, Hp.
  - now rewrite IH.
Qed.

Lemma digit_val_nonneg (c : ascii) : is_digit c = true -> 0 <= digit_val c.
Proof.
  unfold is_digit, digit_val. cbv zeta. intros H.
  apply andb_true_iff in H as [H _]. apply Nat.leb_le in H. lia.
Qed.

Lemma read_digits_nonneg (s : string) (acc : Z) (n : nat) :
  numeric_only s -> 0 <= acc ->
  let '(i, _, rest) := read_digits acc n s in
  0 <= i /\ match rest with Some r => numeric_only r | None => True end.
Proof.
  revert acc n. induction s as [|c s IH]; intros acc n Hs Hacc; simpl.
  - now split.
  - destruct Hs as [Hc Hs]. destruct (is_dot c) eqn:Ed; [now split |].
    rewrite orb_false_r in Hc. apply digit_val_nonneg in Hc.
    apply IH; [exact Hs | lia].
Qed.

Lemma py_float_nonneg (s : string) (v : Q) :
  numeric_only s -> py_float s = Some v -> (0 <= v)%Q.
Proof.
  intros Hs. unfold py_float.
  pose proof (read_digits_nonneg s 0 0 Hs ltac:(lia)) as H1.
  destruct (read_digits 0 0 s) as [[i ni] [rest|]].
  - destruct H1 as [Hi Hrest].
    pose proof (read_digits_nonneg rest 0 0 Hrest ltac:(lia)) as H2.
    destruct (read_digits 0 0 rest) as [[f nf] [r|]]; [discriminate |].
    destruct H2 as [Hf _].
    destruct (ni + nf =? 0)%nat; [discriminate |].
    intros H. injection H as <-. rewrite Qred_correct.
    assert (Hp : 0 < 10 ^ Z.of_nat nf) by (apply Z.pow_pos_nonneg; lia).
    apply Qle_shift_div_l; [unfold Qlt; simpl; lia |].
    unfold Qle. simpl. nia.
  - destruct H1 as [Hi _]. destruct (ni =? 0)%nat; [discriminate |].
    intros H. injection H as <-. unfold Qle. simpl. lia.
Qed.

Lemma parse_top_value_nonneg (raw : string) : (0 <= parse_top_value raw)%Q.
Proof.
  unfold parse_top_value. cbv zeta.
  pose proof (strip_numeric_only raw) as Hs.
  destruct (strip_non_numeric raw) as [|c s] eqn:E; [lra |].
  destruct (py_float (String c s)) as [v|] eqn:Ev; [| lra].
  now apply (py_float_nonneg (String c s)).
Qed.

(** X7: the top axis value is never negative, and characters other than
    digits and dots never change it, wherever they stand: a sign, a
    thousands separator or a unit is dropped before the number is
    read. *)
Theorem top_value_ignores_other_characters (a b : string) (c : ascii) :
  (0 <= parse_top_value (a ++ b))%Q
  /\ parse_top_value (strip_non_numeric (a ++ b)) = parse_top_value (a ++ b)
  /\ (is_digit c = false -> is_dot c = false ->
      parse_top_value (a ++ String c b) = parse_top_value (a ++ b)).
Proof.
  split; [apply parse_top_value_nonneg |]. split.
  - unfold parse_top_value. cbv zeta.
    now rewrite (strip_of_numeric_only _ (strip_numeric_only (a ++ b))).
  - intros Hd Hp. unfold parse_top_value. cbv zeta.
    now rewrite (strip_skips a b c Hd Hp).
Qed.

Example top_value_drops_sign_and_separator :
  parse_top_value "-240" = 240%Q /\ parse_top_value "1,200 min" = 1200%Q.
Proof. split; reflexivity. Qed.

(** ** Rounding keeps the order *)

Lemma round_half_even_mono (q q' : Q) :
  (q <= q')%Q -> round_half_even q <= round_half_even q'.
Proof.
  intros Hle. unfold round_half_even. cbv zeta.
  pose proof (Qfloor_resp_le q q' Hle) as Hf.
  pose proof (Qfloor_le q) as H1. pose proof (Qlt_floor q) as H2.
  pose proof (Qfloor_le q') as H1'. pose proof (Qlt_floor q') as H2'.
  destruct (Z.eq_dec (Qfloor q) (Qfloor q')) as [E | NE].
  - rewrite <- E in *.
    destruct (Qltb (q - inject_Z (Qfloor q)) (1 # 2)) eqn:A.
    + destruct (Qltb (q' - inject_Z (Qfloor q)) (1 # 2));
        [lia |]. destruct (Qltb (1 # 2) _); [lia |].
      destruct (Z.even (Qfloor q)); lia.
    + apply Qltb_ge in A.
      destruct (Qltb (q' - inject_Z (Qfloor q)) (1 # 2)) eqn:A'.
      { apply Qltb_lt in A'. exfalso. lra. }
      destruct (Qltb (1 # 2) (q - inject_Z (Qfloor q))) eqn:B.
      * apply Qltb_lt in B.
        destruct (Qltb (1 # 2) (q' - inject_Z (Qfloor q))) eqn:B'; [lia |].
        apply Qltb_ge in B'. exfalso. lra.
      * destruct (Qltb (1 # 2) (q' - inject_Z (Qfloor q))); [| lia].
        destruct (Z.even (Qfloor q)); lia.
  - assert (Hlt : Qfloor q + 1 <= Qfloor q') by lia.
    assert (Hup : forall x, (if Qltb (x - inject_Z (Qfloor x)) (1 # 2)
                             then Qfloor x
                             else if Qltb (1 # 2) (x - inject_Z (Qfloor x))
                                  then Qfloor x + 1
                                  else if Z.even (Qfloor x) then Qfloor x
                                       else Qfloor x + 1) <= Qfloor x + 1).
    { intros x. destruct (Qltb _ _); [lia |]. destruct (Qltb _ _); [lia |].
      destruct (Z.even _); lia. }
    assert (Hdown : forall x, Qfloor x <=
                      (if Qltb (x - inject_Z (Qfloor x)) (1 # 2)
                       then Qfloor x
                       else if Qltb (1 # 2) (x - inject_Z (Qfloor x))
                            then Qfloor x + 1
                            else if Z.even (Qfloor x) then Qfloor x
                                 else Qfloor x + 1)).
    { intros x. destruct (Qltb _ _); [lia |]. destruct (Qltb _ _); [lia |].
      destruct (Z.even _); lia. }
    specialize (Hup q). specialize (Hdown q'). lia.
Qed.

Lemma py_round1_mono (q q' : Q) :
  (q <= q')%Q -> (py_round1 q <= py_round1 q')%Q.
Proof.
  intros Hle. unfold py_round1. rewrite !Qred_correct.
  assert (H : round_half_even (q * 10) <= round_half_even (q' * 10)).
  { apply round_half_even_mono. lra. }
  unfold Qle. simpl. lia.
Qed.

(** ** Degraded and bounded results *)

Section MapFacts.
Variables (zero_line_y crop_top : Z) (scale : Q).
Variable bars_rtl : list BarPosition.

Local Abbreviation step := (map_label zero_line_y crop_top scale bars_rtl).

(** A property of entries that every step keeps holds of the finished
    map. *)
Lemma fold_entries_invariant (P : Entry -> Prop) (labels : list Label) st :
  (forall st l, exists e, snd (step st l) = <[label l := e]> (snd st) /\ P e) ->
  (forall day e, snd st !! day = Some e -> P e) ->
  forall day e, snd (fold_left step labels st) !! day = Some e -> P e.
Proof.
  intros Hstep. revert st.
  induction labels as [|l labels IH]; intros st Hst day e; [apply Hst |].
  simpl fold_left. apply IH. intros day' e'.
  destruct (Hstep st l) as [e0 [E He0]]. rewrite E.
  destruct (decide (label l = day')) as [-> | Hne].
  - rewrite lookup_insert_eq. intros H. injection H as <-. exact He0.
  - rewrite lookup_insert_ne by exact Hne. apply Hst.
Qed.

Lemma build_entries_invariant (P : Entry -> Prop) (labels : list Label) :
  P zero_entry ->
  (forall b, In b bars_rtl -> P (bar_entry zero_line_y crop_top scale b)) ->
  forall day e,
    build_day_value_map zero_line_y crop_top scale bars_rtl labels !! day
    = Some e -> P e.
Proof.
  intros Hzero Hbar. unfold build_day_value_map, walk_labels.
  apply fold_entries_invariant.
  - intros st l. destruct (has_bar l) eqn:Hl.
    + destruct (bars_rtl !! fst st) as [b|] eqn:Hb.
      * exists (bar_entry zero_line_y crop_top scale b).
        rewrite (map_label_matched _ _ _ _ st l b Hl Hb). split; [reflexivity |].
        apply Hbar. apply list_elem_of_In.
        now apply list_elem_of_lookup_2 in Hb.
      * exists zero_entry.
        now rewrite (map_label_unmatched _ _ _ _ st l Hl Hb).
    + exists zero_entry. now rewrite (map_label_no_bar _ _ _ _ st l Hl).
  - intros day e. cbn [snd]. rewrite lookup_empty. discriminate.
Qed.
End MapFacts.

(** *** The same in binary64 *)

Definition zero_entry64 : Entry64 :=
  {| minutes64 := NFloat (S754_zero false); pixels64 := 0 |}.

(** The sign bit is clear, or the value is NaN. *)
Definition sign_clear (x : spec_float) : bool :=
  match x with
  | S754_zero s | S754_infinity s | S754_finite s _ _ => negb s
  | S754_nan => true
  end.

Definition not_negative (y : PyNumber) : bool :=
  match y with
  | NInt n => 0 <=? n
  | NFloat x => sign_clear x
  end.

Lemma binary_round_aux_sign (m e : Z) (l : location) :
  sign_clear (binary_round_aux prec emax false m e l) = true.
Proof.
  unfold binary_round_aux.
  destruct (shr_fexp prec emax m e l) as [mrs e'].
  destruct (shr_fexp prec emax _ e' loc_Exact) as [mrs' e''].
  destruct (shr_m mrs'); [reflexivity | | reflexivity].
  now destruct (e'' <=? emax - prec).
Qed.

Lemma b64_of_ratio_sign (n d : positive) :
  sign_clear (b64_of_ratio false n d) = true.
Proof.
  unfold b64_of_ratio.
  destruct (SFdiv_core_binary prec emax (Z.pos n) 0 (Z.pos d) 0) as [[mz ez] lz].
  apply binary_round_aux_sign.
Qed.

Lemma b64_of_Z_sign (n : Z) (x : spec_float) :
  0 <= n -> b64_of_Z n = Some x -> sign_clear x = true.
Proof.
  intros Hn. unfold b64_of_Z.
  assert (Hs : sign_clear (binary_normalize prec emax n 0 false) = true).
  { destruct n as [|p|p]; [reflexivity | | lia].
    unfold binary_normalize, binary_round.
    destruct (shl_align p 0 _) as [mz ez]. apply binary_round_aux_sign. }
  destruct (binary_normalize prec emax n 0 false); try discriminate;
    intros H; injection H as <-; exact Hs.
Qed.

Lemma SFmul_sign (x y : spec_float) :
  sign_clear x = true -> sign_clear y = true ->
  sign_clear (SFmul prec emax x y) = true.
Proof.
  destruct x as [sx|sx| |sx mx ex], y as [sy|sy| |sy my ey]; cbn;
    try reflexivity; intros Hx Hy;
    apply negb_true_iff in Hx; apply negb_true_iff in Hy; subst;
    try reflexivity.
  apply binary_round_aux_sign.
Qed.

Lemma SFdiv_sign (x y : spec_float) :
  sign_clear x = true -> sign_clear y = true ->
  sign_clear (SFdiv prec emax x y) = true.
Proof.
  destruct x as [sx|sx| |sx mx ex], y as [sy|sy| |sy my ey]; cbn;
    try reflexivity; intros Hx Hy;
    apply negb_true_iff in Hx; apply negb_true_iff in Hy; subst;
    try reflexivity.
  change (sign_clear
            (let '(mz, ez, lz) :=
               SFdiv_core_binary prec emax (Z.pos mx) ex (Z.pos my) ey in
             binary_round_aux prec emax false mz ez lz) = true).
  destruct (SFdiv_core_binary prec emax (Z.pos mx) ex (Z.pos my) ey)
    as [[mz ez] lz].
  apply binary_round_aux_sign.
Qed.

Lemma b64_round1_sign (x : spec_float) :
  sign_clear x = true -> sign_clear (b64_round1 x) = true.
Proof.
  destruct x as [sx|sx| |sx mx ex]; cbn [b64_round1]; try (intros Hx; exact Hx).
  intros Hx. destruct (0 <=? ex); [exact Hx |].
  apply negb_true_iff in Hx. subst sx.
  destruct (round_half_even _) as [|n|n]; try reflexivity.
  apply b64_of_ratio_sign.
Qed.

Lemma py_gt0_not_negative (y : PyNumber) :
  py_gt0 y = true -> not_negative y = true.
Proof.
  destruct y as [n|x]; cbn.
  - intros H. apply Z.ltb_lt in H. apply Z.leb_le. lia.
  - destruct x as [s|s| |s m e]; cbn; try discriminate;
      now destruct s.
Qed.

Lemma not_negative_lt0 (y : PyNumber) :
  not_negative y = true -> py_lt0 y = false.
Proof.
  destruct y as [n|x]; cbn.
  - intros H. apply Z.leb_le in H. apply Z.ltb_ge. exact H.
  - destruct x as [s|s| |s m e]; cbn; try reflexivity;
      intros H; apply negb_true_iff in H; now subst s.
Qed.

Lemma scale_factor64_not_negative (top scale : PyNumber) (span : Z) :
  scale_factor64 top span = Some scale -> not_negative scale = true.
Proof.
  unfold scale_factor64.
  destruct ((0 <? span) && py_gt0 top) eqn:Hguard.
  - apply andb_true_iff in Hguard as [Hspan Htop].
    apply Z.ltb_lt in Hspan. pose proof (py_gt0_not_negative top Htop) as Hnn.
    destruct top as [k|fx]; cbn [py_truediv_int].
    + cbn in Htop. apply Z.ltb_lt in Htop.
      destruct (span =? 0); [discriminate |].
      destruct k as [|k|k]; [lia | | lia].
      replace (Z.pos k <? 0) with false by (symmetry; apply Z.ltb_ge; lia).
      replace (span <? 0) with false by (symmetry; apply Z.ltb_ge; lia).
      cbn [xorb].
      pose proof (b64_of_ratio_sign (Z.to_pos (Z.abs (Z.pos k)))
                    (Z.to_pos (Z.abs span))) as Hs.
      destruct (b64_of_ratio false _ _); try discriminate;
        intros H; injection H as <-; exact Hs.
    + destruct (b64_of_Z span) as [fn|] eqn:Hfn; [| discriminate].
      destruct (span =? 0); [discriminate |].
      intros H. injection H as <-. cbn.
      apply SFdiv_sign; [exact Hnn |].
      apply (b64_of_Z_sign span); [lia | exact Hfn].
  - intros H. now injection H as <-.
Qed.

Lemma minutes_not_negative (h : Z) (scale c : PyNumber) :
  0 <= h -> not_negative scale = true ->
  py_mul_int h scale = Some c ->
  not_negative (py_round1_number c) = true.
Proof.
  intros Hh Hs. destruct scale as [k|x]; cbn [py_mul_int].
  - intros H. injection H as <-. cbn in *.
    apply Z.leb_le in Hs. apply Z.leb_le. nia.
  - destruct (b64_of_Z h) as [fh|] eqn:Hfh; [| discriminate].
    intros H. injection H as <-. cbn [py_round1_number not_negative].
    apply b64_round1_sign, SFmul_sign; [| exact Hs].
    now apply (b64_of_Z_sign h).
Qed.

Section EntryFacts64.
Variables (zero_line_y crop_top : Z) (scale : PyNumber).
Variable bars_rtl : list BarPosition.

Local Abbreviation step64 :=
  (map_label64 zero_line_y crop_top scale bars_rtl).
Local Abbreviation walk64 :=
  (walk_from64 zero_line_y crop_top scale bars_rtl).
Local Abbreviation height b := (zero_line_y - (y_top b + crop_top)).

(** What a step writes: the zero entry, or the entry of a bar. *)
Lemma map_label64_entry st st' (l : Label) :
  step64 st l = Some st' ->
  exists e, snd st' = <[label l := e]> (snd st)
    /\ (e = zero_entry64
        \/ exists b c,
             In b bars_rtl
             /\ py_mul_int (height b) scale = Some c
             /\ e = {| minutes64 := py_round1_number c;
                       pixels64 := height b |}).
Proof.
  destruct st as [i m]. unfold map_label64.
  destruct (has_bar l).
  - destruct (bars_rtl !! i) as [b|] eqn:Hb.
    + destruct (py_mul_int _ scale) as [c|] eqn:Hc; [| discriminate].
      intros H. injection H as <-. eexists. split; [reflexivity |].
      right. exists b, c. repeat split; try assumption.
      apply list_elem_of_In. now apply list_elem_of_lookup_2 in Hb.
    + cbn. intros H. injection H as <-. eexists.
      split; [reflexivity | now left].
  - cbn. intros H. injection H as <-. eexists.
    split; [reflexivity | now left].
Qed.

Lemma walk64_entries (P : Entry64 -> Prop) (labels : list Label) st final :
  P zero_entry64 ->
  (forall b c, In b bars_rtl ->
     py_mul_int (height b) scale = Some c ->
     P {| minutes64 := py_round1_number c; pixels64 := height b |}) ->
  walk64 st labels = Some final ->
  (forall day e, snd st !! day = Some e -> P e) ->
  forall day e, snd final !! day = Some e -> P e.
Proof.
  intros Hzero Hbar. revert st.
  induction labels as [|l labels IH]; intros st Hwalk Hst.
  - simpl in Hwalk. now injection Hwalk as <-.
  - simpl in Hwalk. destruct (step64 st l) as [st1|] eqn:Hstep;
      [| discriminate].
    apply (IH st1 Hwalk). intros day e.
    destruct (map_label64_entry st st1 l Hstep) as [e0 [-> He0]].
    destruct (decide (label l = day)) as [-> | Hne].
    + rewrite lookup_insert_eq. intros H. injection H as <-.
      destruct He0 as [-> | [b [c [Hb [Hc ->]]]]]; [exact Hzero |].
      now apply (Hbar b c).
    + rewrite lookup_insert_ne by exact Hne. apply Hst.
Qed.
End EntryFacts64.

(** X8: the map degrades without failing.  When no bar was detected
    the loop raises nothing and every entry is the zero entry, 0.0
    minutes and 0 pixels.  When the scale is the int 0, which is what
    an unparseable top axis value gives, the loop raises nothing
    either, every entry has 0 minutes, and a label matched with a bar
    still reports the pixel height of that very bar. *)
Theorem degraded_day_value_maps (zero_line_y crop_top : Z) (scale : PyNumber)
    (bars_rtl : list BarPosition) (labels : list Label) :
  (exists day_value_map,
     build_day_value_map64 zero_line_y crop_top scale [] labels
     = Some day_value_map
     /\ forall day e, day_value_map !! day = Some e -> e = zero_entry64)
  /\ (exists day_value_map,
        build_day_value_map64 zero_line_y crop_top (NInt 0) bars_rtl labels
        = Some day_value_map
        /\ (forall day e, day_value_map !! day = Some e ->
              e = zero_entry64 \/ minutes64 e = NInt 0)
        /\ (forall pre l post b,
              labels = pre ++ l :: post ->
              has_bar l = true ->
              bars_rtl !! true_labels pre = Some b ->
              ~ In (label l) (map label post) ->
              day_value_map !! label l
              = Some {| minutes64 := NInt 0;
                        pixels64 := zero_line_y - (y_top b + crop_top) |})).
Proof.
  split.
  - destruct (walk64_total zero_line_y crop_top scale [] labels (0%nat, ∅))
      as [final Hfinal]; [intros b [] |].
    exists (snd final). unfold build_day_value_map64, walk_labels64.
    rewrite Hfinal. split; [reflexivity |].
    apply (walk64_entries zero_line_y crop_top scale []
             (fun e => e = zero_entry64) labels (0%nat, ∅) final);
      [reflexivity | intros b c [] | exact Hfinal |].
    intros day e. cbn [snd]. rewrite lookup_empty. discriminate.
  - assert (Hmul : forall h, py_mul_int h (NInt 0) = Some (NInt 0)).
    { intros h. cbn. now rewrite Z.mul_0_r. }
    destruct (walk64_total zero_line_y crop_top (NInt 0) bars_rtl labels
                (0%nat, ∅)) as [final Hfinal].
    { intros b _. exists (NInt 0). apply Hmul. }
    assert (Hbuild : build_day_value_map64 zero_line_y crop_top (NInt 0)
                       bars_rtl labels = Some (snd final)).
    { unfold build_day_value_map64, walk_labels64. now rewrite Hfinal. }
    exists (snd final). split; [exact Hbuild |]. split.
    + apply (walk64_entries zero_line_y crop_top (NInt 0) bars_rtl
               (fun e => e = zero_entry64 \/ minutes64 e = NInt 0)
               labels (0%nat, ∅) final); [now left | | exact Hfinal |].
      * intros b c _ Hc. rewrite Hmul in Hc. injection Hc as <-. now right.
      * intros day e. cbn [snd]. rewrite lookup_empty. discriminate.
    + intros pre l post b -> Htrue Hbar Hnot.
      apply (matched_entry64 zero_line_y crop_top (NInt 0) bars_rtl pre post
               l b (NInt 0) (snd final) Htrue Hbar (Hmul _) Hnot Hbuild).
Qed.

(** X9: when every detected bar has its top between the maximum line and
    the zero line and the scale is the one computed from the span
    between the two lines, every entry of the map has a pixel height
    between 0 and the span, and its minutes are not negative.  (They
    can exceed the top axis value rounded to one decimal: in binary64 a
    bar as high as the span can round one step above it.) *)
Theorem minutes_not_negative_in_grid (zero_line_y max_line_y crop_top : Z)
    (max_value_minutes scale : PyNumber) (bars_rtl : list BarPosition)
    (labels : list Label) (day_value_map : gmap string Entry64)
    (day : string) (e : Entry64) :
  0 < zero_line_y - max_line_y ->
  scale_factor64 max_value_minutes (zero_line_y - max_line_y) = Some scale ->
  Forall (fun b => max_line_y <= y_top b + crop_top <= zero_line_y) bars_rtl ->
  build_day_value_map64 zero_line_y crop_top scale bars_rtl labels
  = Some day_value_map ->
  day_value_map !! day = Some e ->
  0 <= pixels64 e <= zero_line_y - max_line_y
  /\ py_lt0 (minutes64 e) = false.
Proof.
  intros Hspan Hscale Hbars Hbuild.
  pose proof (scale_factor64_not_negative _ _ _ Hscale) as Hnn.
  unfold build_day_value_map64, walk_labels64 in Hbuild.
  destruct (walk_from64 _ _ _ _ _ labels) as [final|] eqn:Hfinal;
    [| discriminate].
  injection Hbuild as <-.
  apply (walk64_entries zero_line_y crop_top scale bars_rtl
           (fun e => 0 <= pixels64 e <= zero_line_y - max_line_y
                     /\ py_lt0 (minutes64 e) = false)
           labels (0%nat, ∅) final).
  - cbn. split; [lia | reflexivity].
  - intros b c Hb Hc. rewrite List.Forall_forall in Hbars.
    specialize (Hbars b Hb). cbn [pixels64 minutes64]. split; [lia |].
    apply not_negative_lt0.
    apply (minutes_not_negative (zero_line_y - (y_top b + crop_top)) scale c);
      [lia | exact Hnn | exact Hc].
  - exact Hfinal.
  - intros d e0. cbn [snd]. rewrite lookup_empty. discriminate.
Qed.

(** A top axis value of 1.25 over a span of 147 pixels: the bar of the
    second day is as high as the span and gets 1.3 minutes, above the
    1.2 that the top value rounds to, and not negative. *)
Definition bars_to_the_top : list BarPosition :=
  [ {| center_x := 620; center_y := 200; y_top := 150;
       bbox := (600, 150, 40, 97); bar_type := "iOS" |};
    {| center_x := 520; center_y := 375; y_top := 100;
       bbox := (500, 100, 40, 147); bar_type := "iOS" |};
    {| center_x := 420; center_y := 400; y_top := 200;
       bbox := (400, 200, 40, 47); bar_type := "iOS" |} ].

Definition map_to_the_top : gmap string Entry64 :=
  match scale_factor64 (NFloat (b64_of_Q (125 # 100))) 147 with
  | Some scale =>
      match build_day_value_map64 247 0 scale bars_to_the_top
              (X_axis MOCK_GEMINI_OUTPUT) with
      | Some day_value_map => day_value_map
      | None => ∅
      end
  | None => ∅
  end.

Lemma minutes_not_negative_in_grid_witness :
  map_to_the_top !! "שני"
  = Some {| minutes64 := NFloat (b64_of_Q (13 # 10)); pixels64 := 147 |}
  /\ 0 <= 147 <= 247 - 100
  /\ py_lt0 (NFloat (b64_of_Q (13 # 10))) = false.
Proof.
  assert (Hday : map_to_the_top !! "שני"
                 = Some {| minutes64 := NFloat (b64_of_Q (13 # 10));
                           pixels64 := 147 |})
    by (vm_compute; reflexivity).
  split; [exact Hday |].
  destruct (scale_factor64 (NFloat (b64_of_Q (125 # 100))) 147)
    as [scale|] eqn:Hscale; [| vm_compute in Hscale; discriminate Hscale].
  refine (minutes_not_negative_in_grid 247 100 0 (NFloat (b64_of_Q (125 # 100))) scale
            bars_to_the_top (X_axis MOCK_GEMINI_OUTPUT) map_to_the_top "שני"
            {| minutes64 := NFloat (b64_of_Q (13 # 10)); pixels64 := 147 |}
            _ Hscale _ _ Hday).
  - lia.
  - unfold bars_to_the_top.
    repeat (apply List.Forall_cons; [cbn; lia |]). apply List.Forall_nil.
  - vm_compute in Hscale. injection Hscale as <-. vm_compute. reflexivity.
Defined.

(** ** Bars beyond the flagged labels *)

Lemma map_label_same_lookup (zero_line_y crop_top : Z) (scale : Q)
    (bars bars' : list BarPosition) st (l : Label) :
  (has_bar l = true -> bars' !! fst st = bars !! fst st) ->
  map_label zero_line_y crop_top scale bars' st l
  = map_label zero_line_y crop_top scale bars st l.
Proof.
  intros H. destruct st as [i m]. unfold map_label. cbn [fst] in H.
  destruct (has_bar l); [now rewrite H | reflexivity].
Qed.

Lemma map_label_index_step (zero_line_y crop_top : Z) (scale : Q)
    (bars : list BarPosition) st (l : Label) :
  (fst (map_label zero_line_y crop_top scale bars st l)
   <= fst st + (if has_bar l then 1 else 0))%nat.
Proof.
  destruct st as [i m]. unfold map_label.
  destruct (has_bar l); [| cbn; lia].
  destruct (bars !! i); cbn; lia.
Qed.

Lemma fold_take_bars (zero_line_y crop_top : Z) (scale : Q)
    (bars : list BarPosition) (n : nat) (labels : list Label) st :
  (fst st + true_labels labels <= n)%nat ->
  fold_left (map_label zero_line_y crop_top scale (take n bars)) labels st
  = fold_left (map_label zero_line_y crop_top scale bars) labels st.
Proof.
  revert st. induction labels as [|l labels IH]; intros st Hn; [reflexivity |].
  simpl fold_left. unfold true_labels in Hn. simpl List.filter in Hn.
  pose proof (map_label_index_step zero_line_y crop_top scale bars st l) as Hi.
  rewrite (map_label_same_lookup zero_line_y crop_top scale bars).
  - apply IH. unfold true_labels.
    destruct (has_bar l); simpl length in Hn; lia.
  - intros Hl. rewrite Hl in Hn. simpl length in Hn.
    apply lookup_take_lt. lia.
Qed.

(** X10: the walk uses min(number of labels with a bar, number of bars)
    bars, the first ones from the right; bars detected beyond the labels
    with a bar are ignored and change nothing in the map. *)
Theorem surplus_bars_ignored (zero_line_y crop_top : Z) (scale : Q)
    (bars_rtl : list BarPosition) (labels : list Label) :
  fst (walk_labels zero_line_y crop_top scale bars_rtl labels)
  = Nat.min (true_labels labels) (length bars_rtl)
  /\ build_day_value_map zero_line_y crop_top scale
       (take (true_labels labels) bars_rtl) labels
     = build_day_value_map zero_line_y crop_top scale bars_rtl labels
  /\ forall surplus : list BarPosition,
       (true_labels labels <= length bars_rtl)%nat ->
       build_day_value_map zero_line_y crop_top scale (bars_rtl ++ surplus)
         labels
       = build_day_value_map zero_line_y crop_top scale bars_rtl labels.
Proof.
  split; [apply walk_bar_index |].
  assert (Htake : forall bars,
            build_day_value_map zero_line_y crop_top scale
              (take (true_labels labels) bars) labels
            = build_day_value_map zero_line_y crop_top scale bars labels).
  { intros bars. unfold build_day_value_map, walk_labels.
    now rewrite fold_take_bars by (cbn [fst]; lia). }
  split; [apply Htake |].
  intros surplus Hlen. rewrite <- (Htake (bars_rtl ++ surplus)).
  rewrite <- (Htake bars_rtl). f_equal.
  now rewrite take_app_le.
Qed.

(** ** The full result and the record of the old format *)

Section ResultFacts.
Context {Image : Type} `{V : Vision Image} `{G : Gemini Image}.

Lemma calculate_full_fields (image_path target_day : string)
    (google_api_key : option string) (img : Image)
    (zero_line_y max_line_y : Z) :
  _load_image image_path = Some img ->
  grid_y_bottom (find_graph_area img) = Some zero_line_y ->
  grid_y_top (find_graph_area img) = Some max_line_y ->
  let crop_top := Z.max 0 (max_line_y - 50) in
  let crop_bottom := Z.min (img_height img) (zero_line_y + 100) in
  let cropped_img := crop_rows img crop_top crop_bottom in
  let semantic_data := extract_graph_data google_api_key cropped_img in
  let top := parse_top_value (Y_axisTopValue semantic_data) in
  exists scale full,
    scale_factor top (zero_line_y - max_line_y) = Some scale
    /\ value (calculate_minutes_for_day image_path target_day google_api_key)
       = RespFull full
    /\ res_target_day full = target_day
    /\ res_raw_max_value full = top
    /\ res_zero_line_y_original full = zero_line_y
    /\ res_scale_factor full = scale
    /\ res_full_map full
       = build_day_value_map zero_line_y crop_top scale
           (sort_by_reverse center_x
              (fst (value (detect_bars_positions cropped_img))))
           (X_axis semantic_data)
    /\ res_minutes full
       = match res_full_map full !! target_day with
         | Some e => minutes e
         | None => 0%Q
         end
    /\ res_pixels_height full
       = match res_full_map full !! target_day with
         | Some e => pixels e
         | None => 0
         end.
Proof.
  intros Hload Hzero Hmax. cbv zeta.
  destruct (scale_factor_defined
              (parse_top_value
                 (Y_axisTopValue
                    (extract_graph_data google_api_key
                       (crop_rows img (Z.max 0 (max_line_y - 50))
                          (Z.min (img_height img) (zero_line_y + 100))))))
              (zero_line_y - max_line_y)) as [scale [Hscale _]].
  exists scale.
  unfold calculate_minutes_for_day, tbind, traced, tret, value, calls,
    crop_window.
  rewrite Hload, Hzero, Hmax, Hscale.
  destruct (detect_bars_positions _) as [[positions debug] log].
  cbn [fst snd]. eexists. repeat split.
Qed.

Lemma calculate_full_inversion (image_path target_day : string)
    (google_api_key : option string) (full : FullResult Image) :
  value (calculate_minutes_for_day image_path target_day google_api_key)
  = RespFull full ->
  exists img zero_line_y max_line_y,
    _load_image image_path = Some img
    /\ grid_y_bottom (find_graph_area img) = Some zero_line_y
    /\ grid_y_top (find_graph_area img) = Some max_line_y.
Proof.
  intros H.
  destruct (_load_image image_path) as [img|] eqn:Hload.
  - destruct (grid_y_bottom (find_graph_area img)) as [zb|] eqn:Hb.
    + destruct (grid_y_top (find_graph_area img)) as [zt|] eqn:Ht.
      * now exists img, zb, zt.
      * rewrite (calculate_grid_failure image_path target_day google_api_key
                   img Hload (or_intror Ht)) in H. discriminate H.
    + rewrite (calculate_grid_failure image_path target_day google_api_key
                 img Hload (or_introl Hb)) in H. discriminate H.
  - rewrite (calculate_load_failure image_path target_day google_api_key Hload)
      in H. discriminate H.
Qed.

Lemma grid_span (img : Image) (zero_line_y max_line_y : Z) :
  grid_y_bottom (find_graph_area img) = Some zero_line_y ->
  grid_y_top (find_graph_area img) = Some max_line_y ->
  47 <= zero_line_y - max_line_y.
Proof.
  intros Hb Ht.
  destruct (find_graph_area_cluster img) as [[Hn _] | [ls [Hc [Ht' [Hb' _]]]]].
  - rewrite Hn in Ht. discriminate.
  - apply grid_cluster_shape in Hc as [_ [H2 [H3 [H4 _]]]].
    rewrite Ht in Ht'. rewrite Hb in Hb'.
    injection Ht' as ->. injection Hb' as ->. lia.
Qed.
End ResultFacts.

Section AnswerFacts.
Context {Image : Type} `{V : Vision Image} `{G : Gemini Image}.

Lemma calculate_outcome (image_path target_day : string)
    (google_api_key : option string) :
  (exists msg,
     value (calculate_minutes_for_day image_path target_day google_api_key)
     = RespError msg)
  \/ (exists full,
        value (calculate_minutes_for_day image_path target_day google_api_key)
        = RespFull full
        /\ res_target_day full = target_day
        /\ res_minutes full
           = match res_full_map full !! target_day with
             | Some e => minutes e
             | None => 0%Q
             end).
Proof.
  destruct (_load_image image_path) as [img|] eqn:Hload.
  - destruct (grid_y_bottom (find_graph_area img)) as [zb|] eqn:Hb.
    + destruct (grid_y_top (find_graph_area img)) as [zt|] eqn:Ht.
      * right.
        destruct (calculate_full_fields image_path target_day google_api_key
                    img zb zt Hload Hb Ht)
          as [s [full [_ [E [Hd [_ [_ [_ [_ [Hm _]]]]]]]]]].
        exists full. now repeat split.
      * left. eexists.
        now rewrite (calculate_grid_failure image_path target_day
                       google_api_key img Hload (or_intror Ht)).
    + left. eexists.
      now rewrite (calculate_grid_failure image_path target_day
                     google_api_key img Hload (or_introl Hb)).
  - left. eexists.
    now rewrite (calculate_load_failure image_path target_day google_api_key
                   Hload).
Qed.
End AnswerFacts.

(** X11: a full result comes from an image whose grid was found, with
    the zero line of the result as the bottom line of that grid and at
    least 47 pixels between it and the top line.  The span between
    these two lines is the one the scale factor is computed with: on
    exact numbers the scale factor is the top axis value divided by
    it.  The scale factor is never negative, and it is 0 when the top
    axis value is 0. *)
Theorem full_result_scale {Image : Type} `{V : Vision Image} `{G : Gemini Image}
    (image_path target_day : string) (google_api_key : option string)
    (full : FullResult Image) :
  value (calculate_minutes_for_day image_path target_day google_api_key)
  = RespFull full ->
  exists (img : Image) (max_line_y : Z),
    _load_image image_path = Some img
    /\ grid_y_bottom (find_graph_area img)
       = Some (res_zero_line_y_original full)
    /\ grid_y_top (find_graph_area img) = Some max_line_y
    /\ 47 <= res_zero_line_y_original full - max_line_y
    /\ (0 <= res_raw_max_value full)%Q
    /\ (res_scale_factor full
        == res_raw_max_value full
           / inject_Z (res_zero_line_y_original full - max_line_y))%Q
    /\ (0 <= res_scale_factor full)%Q
    /\ ((res_raw_max_value full == 0)%Q -> (res_scale_factor full == 0)%Q).
Proof.
  intros Hfull.
  destruct (calculate_full_inversion _ _ _ _ Hfull)
    as [img [zero [maxl [Hload [Hb Ht]]]]].
  destruct (calculate_full_fields image_path target_day google_api_key img
              zero maxl Hload Hb Ht)
    as [scale [full' [Hscale [E [_ [Htop [Hzero [Hs _]]]]]]]].
  rewrite Hfull in E. injection E as <-.
  pose proof (grid_span img zero maxl Hb Ht) as Hspan.
  exists img, maxl. rewrite Hzero.
  split; [exact Hload |]. split; [exact Hb |]. split; [exact Ht |].
  split; [exact Hspan |].
  rewrite Htop, Hs.
  set (top := parse_top_value _) in *.
  pose proof (parse_top_value_nonneg
                (Y_axisTopValue
                   (extract_graph_data google_api_key
                      (crop_rows img (Z.max 0 (maxl - 50))
                         (Z.min (img_height img) (zero + 100)))))) as Hnn.
  fold top in Hnn. split; [exact Hnn |].
  assert (Hq : (0 < inject_Z (zero - maxl))%Q) by (unfold Qlt; simpl; lia).
  assert (Hne : ~ (inject_Z (zero - maxl) == 0)%Q).
  { intros H0. rewrite H0 in Hq. now apply Qlt_irrefl in Hq. }
  assert (Eq : (scale == top / inject_Z (zero - maxl))%Q).
  { destruct (Qlt_le_dec 0 top) as [Hpos | Hnp].
    - rewrite (scale_factor_positive top (zero - maxl)) in Hscale;
        [| lia | exact Hpos].
      injection Hscale as <-. apply Qred_correct.
    - rewrite (scale_factor_zero top (zero - maxl) (or_intror Hnp)) in Hscale.
      injection Hscale as <-.
      assert (E0 : (top == 0)%Q) by lra. rewrite E0. field. exact Hne. }
  split; [exact Eq |]. split.
  - rewrite Eq. apply Qle_shift_div_l; [exact Hq | lra].
  - intros H0. rewrite Eq, H0. field. exact Hne.
Qed.

(** The full result of [week_chart] for the canned week. *)
Definition week_full : FullResult Picture :=
  match value (calculate_minutes_for_day "week.png" "שני" None) with
  | RespFull full => full
  | _ => {| res_target_day := ""; res_minutes := 0; res_raw_max_value := 0;
            res_zero_line_y_original := 0; res_pixels_height := 0;
            res_scale_factor := 0; res_full_map := ∅;
            res_debug_image := blank |}
  end.

Lemma week_full_returned :
  value (calculate_minutes_for_day "week.png" "שני" None) = RespFull week_full.
Proof. vm_compute. reflexivity. Qed.

(** For [week_chart] the grid runs from row 100 to row 500, and the
    scale factor is 240 over that span of 400 pixels. *)
Lemma full_result_scale_witness :
  exists (img : Picture) (max_line_y : Z),
    _load_image "week.png" = Some img
    /\ grid_y_bottom (find_graph_area img)
       = Some (res_zero_line_y_original week_full)
    /\ grid_y_top (find_graph_area img) = Some max_line_y
    /\ 47 <= res_zero_line_y_original week_full - max_line_y
    /\ (0 <= res_raw_max_value week_full)%Q
    /\ (res_scale_factor week_full
        == res_raw_max_value week_full
           / inject_Z (res_zero_line_y_original week_full - max_line_y))%Q
    /\ (0 <= res_scale_factor week_full)%Q
    /\ ((res_raw_max_value week_full == 0)%Q
        -> (res_scale_factor week_full == 0)%Q).
Proof.
  exact (full_result_scale "week.png" "שני" None week_full week_full_returned).
Defined.

(** X12: for a file path, what [process_day] makes of the answer of
    the pipeline.  A full result becomes the record of the old format
    with the day asked for, the minutes, the scale and the top value of
    the result; its [found] flag is true exactly when the map of the
    result has an entry for that day, whatever the minutes of the
    entry, zero and negative ones included.  The error record becomes
    the record with zero minutes, found false, zero scale and zero top
    value.  (When the pipeline raises there is no answer to
    convert.) *)
Theorem process_day_path_answer {Image : Type} `{V : Vision Image}
    `{G : Gemini Image} (image_path target_day : string)
    (google_api_key : option string) :
  (forall full,
     value (calculate_minutes_for_day image_path target_day google_api_key)
     = RespFull full ->
     value (process_day google_api_key (InputPath image_path) target_day)
     = RespLegacy
         {| leg_day := target_day;
            leg_minutes := res_minutes full;
            leg_found :=
              bool_decide (is_Some (res_full_map full !! target_day));
            leg_scale_min_per_px := res_scale_factor full;
            leg_max_val_y := res_raw_max_value full |})
  /\ (forall msg,
        value (calculate_minutes_for_day image_path target_day google_api_key)
        = RespError msg ->
        value (process_day google_api_key (InputPath image_path) target_day)
        = RespLegacy
            {| leg_day := target_day; leg_minutes := 0; leg_found := false;
               leg_scale_min_per_px := 0; leg_max_val_y := 0 |}).
Proof.
  split.
  - intros full Hfull.
    destruct (calculate_outcome image_path target_day google_api_key)
      as [[msg E] | [full' [E [Hd Hm]]]]; rewrite Hfull in E;
      [discriminate E |].
    injection E as <-.
    unfold process_day, tbind, tret, value in *.
    destruct (calculate_minutes_for_day image_path target_day google_api_key)
      as [res log]; cbn [fst] in *; subst res; cbn [fst].
    cbn [get_target_day get_minutes get_full_map get_scale_factor
         get_raw_max_value].
    rewrite Hd. f_equal. f_equal.
    destruct (bool_decide (is_Some (res_full_map full !! target_day))) eqn:Hin;
      [apply orb_true_r |].
    rewrite orb_false_r. apply Qltb_ge. rewrite Hm.
    apply bool_decide_eq_false in Hin.
    destruct (res_full_map full !! target_day) as [e|].
    + exfalso. apply Hin. now exists e.
    + apply Qle_refl.
  - intros msg Hmsg.
    unfold process_day, tbind, tret, value in *.
    destruct (calculate_minutes_for_day image_path target_day google_api_key)
      as [res log]; cbn [fst] in *; subst res. reflexivity.
Qed.

(** X13: in a full result the map has an entry for exactly the day names
    of the labels that the label source returned for the crop.  When the
    day asked for is not one of them, the minutes and the pixel height
    of the result are 0; and when the label source returned no label at
    all, its answer to a failed extraction, the map is empty. *)
Theorem full_map_follows_labels {Image : Type} `{V : Vision Image}
    `{G : Gemini Image} (image_path target_day : string)
    (google_api_key : option string) (img : Image)
    (zero_line_y max_line_y : Z) :
  _load_image image_path = Some img ->
  grid_y_bottom (find_graph_area img) = Some zero_line_y ->
  grid_y_top (find_graph_area img) = Some max_line_y ->
  let cropped_img :=
    crop_rows img (Z.max 0 (max_line_y - 50))
              (Z.min (img_height img) (zero_line_y + 100)) in
  let labels := X_axis (extract_graph_data google_api_key cropped_img) in
  exists full,
    value (calculate_minutes_for_day image_path target_day google_api_key)
    = RespFull full
    /\ (forall day, is_Some (res_full_map full !! day)
                    <-> In day (map label labels))
    /\ (~ In target_day (map label labels) ->
        res_minutes full = 0%Q /\ res_pixels_height full = 0)
    /\ (labels = [] -> res_full_map full = ∅).
Proof.
  intros Hload Hb Ht. cbv zeta.
  destruct (calculate_full_fields image_path target_day google_api_key img
              zero_line_y max_line_y Hload Hb Ht)
    as [scale [full [_ [E [_ [_ [_ [_ [Hmap [Hm Hp]]]]]]]]]].
  cbv zeta in Hmap. exists full. split; [exact E |].
  assert (Hnames : forall day, is_Some (res_full_map full !! day)
            <-> In day (map label
                  (X_axis (extract_graph_data google_api_key
                     (crop_rows img (Z.max 0 (max_line_y - 50))
                        (Z.min (img_height img) (zero_line_y + 100))))))).
  { intros day. rewrite Hmap. unfold build_day_value_map, walk_labels.
    rewrite fold_entry_names. cbn [snd]. rewrite lookup_empty.
    split; [intros [[x Hx] | H]; [discriminate Hx | exact H] | now right]. }
  split; [exact Hnames |]. split.
  - intros Hnot. rewrite Hm, Hp.
    destruct (res_full_map full !! target_day) as [e|] eqn:Ee; [| now split].
    exfalso. apply Hnot. apply Hnames. now exists e.
  - intros Hnil. rewrite Hmap, Hnil. reflexivity.
Qed.

(** A day that is not in the canned week gets 0 minutes and 0 pixels on
    [week_chart]. *)
Lemma full_map_follows_labels_witness :
  exists full,
    value (calculate_minutes_for_day "week.png" "Monday" None) = RespFull full
    /\ res_minutes full = 0%Q /\ res_pixels_height full = 0.
Proof.
  assert (Hload : _load_image "week.png" = Some week_chart)
    by (vm_compute; reflexivity).
  assert (Hzero : grid_y_bottom (find_graph_area week_chart) = Some 500)
    by (vm_compute; reflexivity).
  assert (Hmax : grid_y_top (find_graph_area week_chart) = Some 100)
    by (vm_compute; reflexivity).
  destruct (full_map_follows_labels "week.png" "Monday" None week_chart 500 100
              Hload Hzero Hmax) as [full [E [_ [Hnot _]]]].
  exists full. split; [exact E |]. apply Hnot.
  simpl. intros H. repeat (destruct H as [H | H]; [discriminate H |]). exact H.
Defined.

(** * The answer of the model

    [SinglePromptGraphExtractor._parse_gemini_response], lines 399-429.
    The text of the answer is searched for a JSON block with the
    pattern [\{.*\}], where the dot matches line breaks too: the match
    starts at the first opening brace and, the star being greedy, ends
    at the last closing brace after it. *)
Module GeminiResponse.

Definition is_open (c : ascii) : bool := Ascii.eqb c "{".
Definition is_close (c : ascii) : bool := Ascii.eqb c "}".

(** What follows the first opening brace. *)
Fixpoint after_first_open (s : string) : option string :=
  match s with
  | EmptyString => None
  | String c s' => if is_open c then Some s' else after_first_open s'
  end.

(** What precedes the last closing brace. *)
Fixpoint before_last_close (s : string) : option string :=
  match s with
  | EmptyString => None
  | String c s' =>
      match before_last_close s' with
      | Some t => Some (String c t)
      | None => if is_close c then Some EmptyString else None
      end
  end.

(** [self.json_pattern.search(text_response)] and [group(0)] of the
    match. *)
Definition json_block (text_response : string) : option string :=
  match after_first_open text_response with
  | Some rest =>
      match before_last_close rest with
      | Some body => Some (String "{" (body ++ "}"))%string
      | None => None
      end
  | None => None
  end.

(** [json.loads] on a text that starts with an opening brace: the
    dictionary of a JSON object, or [None] for [JSONDecodeError].
    [Value] is the type of the values it yields; the empty list and the
    strings are the two kinds the source writes itself. *)
Class JsonDecoder (Value : Type) := {
  json_loads : string -> option (gmap string Value);
  empty_list : Value;
  str_value : string -> Value
}.

Section Parse.
Context {Value : Type} `{D : JsonDecoder Value}.

(** The dictionary returned when no data can be read. *)
Definition failed (sentinel : string) : gmap string Value :=
  <["X-axis" := empty_list]> (<["Y-axisTopValue" := str_value sentinel]> ∅).

(** Lines 399-429. *)
Definition _parse_gemini_response (text_response : string)
  : gmap string Value :=
  match json_block text_response with
  | None => failed "JSON_PARSE_FAILED"
  | Some json_str =>
      match json_loads json_str with
      | Some parsed_data =>
          let parsed_data :=
            match parsed_data !! "X-axis" with
            | None => <["X-axis" := empty_list]> parsed_data
            | Some _ => parsed_data
            end in
          let parsed_data :=
            match parsed_data !! "Y-axisTopValue" with
            | None => <["Y-axisTopValue" := str_value "KEY_MISSING"]> parsed_data
            | Some _ => parsed_data
            end in
          parsed_data
      | None => failed "JSON_DECODE_ERROR"
      end
  end.
End Parse.

Fixpoint occurs (p : ascii -> bool) (s : string) : bool :=
  match s with
  | EmptyString => false
  | String c s' => p c || occurs p s'
  end.

Lemma after_first_open_spec (s rest : string) :
  after_first_open s = Some rest
  <-> exists pre, s = (pre ++ String "{" rest)%string
                  /\ occurs is_open pre = false.
Proof.
  revert rest. induction s as [|c s IH]; intros rest; simpl.
  - split; [discriminate |]. intros [pre [H _]].
    destruct pre; discriminate H.
  - destruct (is_open c) eqn:E.
    + unfold is_open in E. apply Ascii.eqb_eq in E. subst c. split.
      * intros H. injection H as <-. exists EmptyString. now split.
      * intros [pre [H Hpre]]. destruct pre as [|p pre].
        -- simpl in H. now injection H as <-.
        -- simpl in H, Hpre. injection H as <- _.
           now rewrite orb_true_l in Hpre.
    + rewrite IH. split.
      * intros [pre [H Hpre]]. exists (String c pre). simpl.
        rewrite H, E, Hpre. now split.
      * intros [pre [H Hpre]]. destruct pre as [|p pre].
        -- simpl in H. injection H as -> _. unfold is_open in E.
           now rewrite Ascii.eqb_refl in E.
        -- simpl in H, Hpre. injection H as <- ->.
           apply orb_false_iff in Hpre as [_ Hpre]. now exists pre.
Qed.

Lemma before_last_close_spec (s body : string) :
  before_last_close s = Some body
  <-> exists suf, s = (body ++ String "}" suf)%string
                  /\ occurs is_close suf = false.
Proof.
  revert body. induction s as [|c s IH]; intros body; simpl.
  - split; [discriminate |]. intros [suf [H _]].
    destruct body; discriminate H.
  - destruct (before_last_close s) as [t|] eqn:Et.
    + destruct (proj1 (IH t) eq_refl) as [suf [Hs Hsuf]]. split.
      * intros H. injection H as <-. exists suf. simpl. now rewrite Hs.
      * intros [suf' [H Hsuf']]. destruct body as [|b body].
        -- simpl in H. injection H as _ ->.
           rewrite Hs in Hsuf'. exfalso. clear -Hsuf'.
           induction t as [|x t IHt]; simpl in Hsuf'.
           ++ discriminate Hsuf'.
           ++ apply orb_false_iff in Hsuf' as [_ H]. now apply IHt.
        -- simpl in H. injection H as <- H.
           assert (Hb : Some t = Some body) by (apply IH; now exists suf').
           now injection Hb as ->.
    + assert (Hno : forall b, ~ exists suf,
                s = (b ++ String "}" suf)%string /\ occurs is_close suf = false).
      { intros b Hex. apply IH in Hex. discriminate Hex. }
      destruct (is_close c) eqn:E.
      * unfold is_close in E. apply Ascii.eqb_eq in E. subst c. split.
        -- intros H. injection H as <-. exists s. split; [reflexivity |].
           clear -Et. induction s as [|x s IHs]; [reflexivity |].
           simpl in *. destruct (before_last_close s); [discriminate |].
           destruct (is_close x); [discriminate |]. now rewrite IHs.
        -- intros [suf [H Hsuf]]. destruct body as [|b body]; [reflexivity |].
           simpl in H. injection H as _ H. exfalso.
           apply (Hno body). now exists suf.
      * split; [discriminate |]. intros [suf [H Hsuf]].
        destruct body as [|b body].
        -- simpl in H. injection H as -> _.
           unfold is_close in E. now rewrite Ascii.eqb_refl in E.
        -- simpl in H. injection H as _ H. exfalso.
           apply (Hno body). now exists suf.
Qed.

(** X14: the JSON block found in an answer is the text from the first
    opening brace to the last closing brace after it, braces included,
    whatever surrounds it; there is none exactly when the text has no
    opening brace or no closing brace after the first opening one. *)
Theorem json_block_spec (text block : string) :
  json_block text = Some block
  <-> exists pre body suf : string,
        text = (pre ++ String "{" (body ++ String "}" suf))%string
        /\ occurs is_open pre = false
        /\ occurs is_close suf = false
        /\ block = String "{" (body ++ "}")%string.
Proof.
  unfold json_block. split.
  - destruct (after_first_open text) as [rest|] eqn:Ea; [| discriminate].
    destruct (before_last_close rest) as [body|] eqn:Eb; [| discriminate].
    intros H. injection H as <-.
    apply after_first_open_spec in Ea as [pre [-> Hpre]].
    apply before_last_close_spec in Eb as [suf [-> Hsuf]].
    now exists pre, body, suf.
  - intros [pre [body [suf [-> [Hpre [Hsuf ->]]]]]].
    assert (Ea : after_first_open
                   (pre ++ String "{" (body ++ String "}" suf))%string
                 = Some (body ++ String "}" suf)%string)
      by (apply after_first_open_spec; now exists pre).
    assert (Eb : before_last_close (body ++ String "}" suf)%string = Some body)
      by (apply before_last_close_spec; now exists suf).
    now rewrite Ea, Eb.
Qed.

(** X15: whatever the text of the answer, the dictionary read from it
    has both keys.  What the JSON block decodes to is kept as it is, and
    only a missing key is filled in; when there is no block or it does not
    decode, the list of labels is empty; and every top value the parser
    fills in itself is a text without digits, which the compositor reads
    as 0. *)
Theorem parse_gemini_response_defaults {Value : Type} `{D : JsonDecoder Value}
    (text_response : string) :
  let r := _parse_gemini_response text_response in
  is_Some (r !! "X-axis") /\ is_Some (r !! "Y-axisTopValue")
  /\ (forall block parsed,
        json_block text_response = Some block ->
        json_loads block = Some parsed ->
        (forall k v, parsed !! k = Some v -> r !! k = Some v)
        /\ (forall k, k <> "X-axis" -> k <> "Y-axisTopValue" ->
                      r !! k = parsed !! k)
        /\ (parsed !! "X-axis" = None -> r !! "X-axis" = Some empty_list)
        /\ (parsed !! "Y-axisTopValue" = None ->
            exists s, r !! "Y-axisTopValue" = Some (str_value s)
                      /\ parse_top_value s = 0%Q))
  /\ (json_block text_response = None
      \/ (exists block, json_block text_response = Some block
                        /\ json_loads block = None) ->
      r !! "X-axis" = Some empty_list
      /\ exists s, r !! "Y-axisTopValue" = Some (str_value s)
                   /\ parse_top_value s = 0%Q).
Proof.
  cbv zeta. unfold _parse_gemini_response.
  assert (Hfailed : forall sentinel,
            parse_top_value sentinel = 0%Q ->
            is_Some (failed sentinel !! "X-axis")
            /\ is_Some (failed sentinel !! "Y-axisTopValue")
            /\ failed sentinel !! "X-axis" = Some empty_list
            /\ exists s, failed sentinel !! "Y-axisTopValue" = Some (str_value s)
                         /\ parse_top_value s = 0%Q).
  { intros sentinel Hs. unfold failed.
    rewrite lookup_insert_eq, lookup_insert_ne by discriminate.
    rewrite lookup_insert_eq. repeat split; eauto. }
  destruct (json_block text_response) as [block|] eqn:Eb.
  - destruct (json_loads block) as [parsed|] eqn:El.
    + set (p1 := match parsed !! "X-axis" with
                 | Some _ => parsed
                 | None => <["X-axis" := empty_list]> parsed
                 end).
      assert (Hp1 : is_Some (p1 !! "X-axis")
                    /\ (forall k v, parsed !! k = Some v -> p1 !! k = Some v)
                    /\ (forall k, k <> "X-axis" -> p1 !! k = parsed !! k)
                    /\ (parsed !! "X-axis" = None
                        -> p1 !! "X-axis" = Some empty_list)).
      { unfold p1. destruct (parsed !! "X-axis") as [x|] eqn:Ex.
        - split; [now exists x |]. split; [tauto |]. split; [tauto |].
          discriminate.
        - split; [rewrite lookup_insert_eq; eauto |]. split; [| split].
          + intros k v Hk. rewrite lookup_insert_ne; [exact Hk |].
            intros <-. rewrite Ex in Hk. discriminate Hk.
          + intros k Hk. now rewrite lookup_insert_ne.
          + intros _. apply lookup_insert_eq. }
      destruct Hp1 as [H1 [H2 [H3 H4]]].
      destruct (p1 !! "Y-axisTopValue") as [y|] eqn:Ey.
      * split; [exact H1 |]. split; [rewrite Ey; eauto |]. split.
        -- intros b p Hb Hp. injection Hb as <-. rewrite El in Hp.
           injection Hp as <-. split; [exact H2 |]. split; [| split].
           ++ intros k Hk _. now apply H3.
           ++ exact H4.
           ++ intros Hy. rewrite H3 in Ey by discriminate.
              rewrite Hy in Ey. discriminate Ey.
        -- intros [Hn | [b [Hb Hl]]]; [discriminate Hn |].
           injection Hb as <-. rewrite El in Hl. discriminate Hl.
      * split; [rewrite lookup_insert_ne by discriminate; exact H1 |].
        split; [rewrite lookup_insert_eq; eauto |]. split.
        -- intros b p Hb Hp. injection Hb as <-. rewrite El in Hp.
           injection Hp as <-. split; [| split; [| split]].
           ++ intros k v Hk. rewrite lookup_insert_ne; [now apply H2 |].
              intros <-. apply H2 in Hk. rewrite Ey in Hk. discriminate Hk.
           ++ intros k Hk Hk'. rewrite lookup_insert_ne by congruence.
              now apply H3.
           ++ intros Hx. rewrite lookup_insert_ne by discriminate.
              now apply H4.
           ++ intros _. exists "KEY_MISSING". rewrite lookup_insert_eq.
              now split.
        -- intros [Hn | [b [Hb Hl]]]; [discriminate Hn |].
           injection Hb as <-. rewrite El in Hl. discriminate Hl.
    + destruct (Hfailed "JSON_DECODE_ERROR" eq_refl) as [H1 [H2 [H3 H4]]].
      split; [exact H1 |]. split; [exact H2 |]. split.
      * intros b p Hb Hp. injection Hb as <-. rewrite El in Hp. discriminate Hp.
      * intros _. now split.
  - destruct (Hfailed "JSON_PARSE_FAILED" eq_refl) as [H1 [H2 [H3 H4]]].
    split; [exact H1 |]. split; [exact H2 |]. split.
    + intros b p Hb. discriminate Hb.
    + intros _. now split.
Qed.

End GeminiResponse.

(** * The frame filter *)

Section FrameFacts.
Context {Image : Type} `{V : Vision Image}.

Lemma argmax_from_spec (l : list Q) (i best_i : nat) (best : Q) :
  (argmax_from i best_i best l = best_i
   /\ fold_left py_max l best = best
   /\ Forall (fun y => (y <= best)%Q) l)
  \/ (exists pre x post,
        l = pre ++ x :: post
        /\ argmax_from i best_i best l = (i + length pre)%nat
        /\ fold_left py_max l best = x
        /\ (best < x)%Q
        /\ Forall (fun y => (y < x)%Q) pre
        /\ Forall (fun y => (y <= x)%Q) post).
Proof.
  revert i best_i best. induction l as [|a l IH]; intros i best_i best.
  - left. repeat split. constructor.
  - cbn [argmax_from fold_left].
    replace (py_max best a) with (if Qltb best a then a else best)
      by reflexivity.
    destruct (Qltb best a) eqn:E.
    + apply Qltb_lt in E. right.
      destruct (IH (S i) i a)
        as [[Hj [Hm Hall]] | [pre [x [post [Hl [Hj [Hm [Hlt [Hpre Hpost]]]]]]]]];
        rewrite Hj, Hm.
      * exists [], a, l. cbn [length app].
        repeat split; try assumption; try constructor. lia.
      * exists (a :: pre), x, post. cbn [length].
        repeat split; try assumption.
        -- now rewrite Hl.
        -- lia.
        -- lra.
        -- constructor; assumption.
    + apply Qltb_ge in E.
      destruct (IH (S i) best_i best)
        as [[Hj [Hm Hall]] | [pre [x [post [Hl [Hj [Hm [Hlt [Hpre Hpost]]]]]]]]];
        rewrite Hj, Hm.
      * left. repeat split; try assumption. constructor; assumption.
      * right. exists (a :: pre), x, post. cbn [length].
        repeat split; try assumption.
        -- now rewrite Hl.
        -- lia.
        -- constructor; [lra | assumption].
Qed.

Lemma remove_index_middle {A} (pre post : list A) (c : A) :
  remove_index (length pre) (pre ++ c :: post) = pre ++ post.
Proof. induction pre as [|a pre IH]; simpl; [reflexivity | now rewrite IH]. Qed.

(** The contour of largest area, the first one if several have it. *)
Lemma largest_contour (c0 : Contour) (rest : list Contour) :
  exists pre c post,
    c0 :: rest = pre ++ c :: post
    /\ np_argmax (map cnt_area (c0 :: rest)) = length pre
    /\ fold_left py_max (map cnt_area rest) (cnt_area c0) = cnt_area c
    /\ Forall (fun y => (cnt_area y < cnt_area c)%Q) pre
    /\ Forall (fun y => (cnt_area y <= cnt_area c)%Q) post.
Proof.
  simpl np_argmax.
  destruct (argmax_from_spec (map cnt_area rest) 1 0 (cnt_area c0))
    as [[Hj [Hm Hall]] | [pre [x [post [Hl [Hj [Hm [Hlt [Hpre Hpost]]]]]]]]].
  - exists [], c0, rest. rewrite Hj, Hm. repeat split; [constructor |].
    rewrite List.Forall_forall in *. intros y Hy. apply Hall.
    now apply in_map.
  - apply map_eq_app in Hl as [pre' [post' [Hrest [Hpre' Hpost']]]].
    apply map_eq_cons in Hpost' as [c [post'' [-> [Hc Hpost'']]]].
    subst rest x pre post.
    exists (c0 :: pre'), c, post''. rewrite Hj, Hm.
    rewrite length_map. repeat split.
    + constructor; [exact Hlt |].
      rewrite List.Forall_forall in *. intros y Hy. apply Hpre.
      now apply in_map.
    + rewrite List.Forall_forall in *. intros y Hy. apply Hpost.
      now apply in_map.
Qed.
End FrameFacts.

(** X16: for an image of positive area, the frame filter of the
    dark-theme and light-theme variants drops at most one contour:
    the one of largest area, the first of them if several share it,
    and only when that area is more than 80% of the image area; every
    other contour is kept, in order.  When no contour covers more than
    80% of the image nothing is dropped.  (For an image without
    pixels the quotient of the source is not defined.) *)
Theorem drop_frame_drops_only_the_frame (total_area : Z)
    (contours : list Contour) :
  (0 < total_area)%Z ->
  (drop_frame total_area contours = contours
   \/ exists pre c post,
        contours = pre ++ c :: post
        /\ drop_frame total_area contours = pre ++ post
        /\ (8 # 10 < cnt_area c / inject_Z total_area)%Q
        /\ Forall (fun y => (cnt_area y < cnt_area c)%Q) pre
        /\ Forall (fun y => (cnt_area y <= cnt_area c)%Q) post)
  /\ (Forall (fun c => (cnt_area c / inject_Z total_area <= 8 # 10)%Q) contours ->
      drop_frame total_area contours = contours).
Proof.
  intros _.
  unfold drop_frame. destruct contours as [|c0 rest]; [split; [now left | tauto] |].
  cbv zeta.
  destruct (largest_contour c0 rest) as [pre [c [post [Hl [Hj [Hm [Hpre Hpost]]]]]]].
  rewrite Hm, Hj.
  destruct (Qltb (8 # 10) (cnt_area c / inject_Z total_area)) eqn:E.
  - apply Qltb_lt in E. split.
    + right. exists pre, c, post. rewrite Hl at 2.
      rewrite remove_index_middle. now repeat split.
    + intros Hall. exfalso. rewrite Hl in Hall.
      apply Forall_app in Hall as [_ Hall].
      inversion Hall as [|? ? Hc _]; subst. lra.
  - split; [now left | reflexivity].
Qed.

(** The five shapes of [dark_crop], none near the size of the image. *)
Lemma drop_frame_drops_only_the_frame_witness :
  drop_frame 440000 (pic_blobs dark_crop) = pic_blobs dark_crop.
Proof.
  apply (proj2 (drop_frame_drops_only_the_frame 440000 (pic_blobs dark_crop)
                  ltac:(lia))).
  repeat constructor; vm_compute; discriminate.
Defined.

(** * Running without a key *)

Section KeylessFacts.
Context {Image : Type} `{V : Vision Image}.

Definition keyless (google_api_key : option string) : Prop :=
  google_api_key = None
  \/ (exists k, google_api_key = Some k /\ is_blank k = true).

Lemma keyless_extract (G : Gemini Image) google_api_key img :
  keyless google_api_key ->
  extract_graph_data (G := G) google_api_key img = MOCK_GEMINI_OUTPUT.
Proof.
  intros [-> | [k [-> Hk]]]; [reflexivity |].
  unfold extract_graph_data, use_mock. now rewrite Hk.
Qed.

Lemma keyless_calculate (G1 G2 : Gemini Image) image_path target_day
    google_api_key :
  keyless google_api_key ->
  calculate_minutes_for_day (G := G1) image_path target_day google_api_key
  = calculate_minutes_for_day (G := G2) image_path target_day google_api_key.
Proof.
  intros Hkey.
  unfold calculate_minutes_for_day, tbind, traced, tret.
  destruct (_load_image image_path) as [img|]; [| reflexivity].
  destruct (grid_y_bottom (find_graph_area img)); [| reflexivity].
  destruct (grid_y_top (find_graph_area img)); [| reflexivity].
  destruct (crop_window _ _ _) as [crop_top crop_bottom].
  now rewrite !(keyless_extract _ _ _ Hkey).
Qed.

Lemma keyless_process_day (G1 G2 : Gemini Image) image_path target_day
    google_api_key :
  keyless google_api_key ->
  process_day (G := G1) google_api_key (InputPath image_path) target_day
  = process_day (G := G2) google_api_key (InputPath image_path) target_day.
Proof.
  intros Hkey. unfold process_day.
  now rewrite (keyless_calculate G1 G2 _ _ _ Hkey).
Qed.
End KeylessFacts.

(** X17: without a key, or with a key of white space only, the label
    source is the canned answer for every image, and nothing the
    pipeline returns or logs depends on the Gemini client. *)
Theorem no_key_uses_canned_answer {Image : Type} `{V : Vision Image}
    (G1 G2 : Gemini Image) (image_path target_day : string)
    (google_api_key : option string) :
  google_api_key = None
  \/ (exists k, google_api_key = Some k /\ is_blank k = true) ->
  (forall img, extract_graph_data (G := G1) google_api_key img
               = MOCK_GEMINI_OUTPUT)
  /\ calculate_minutes_for_day (G := G1) image_path target_day google_api_key
     = calculate_minutes_for_day (G := G2) image_path target_day google_api_key
  /\ process_day (G := G1) google_api_key (InputPath image_path) target_day
     = process_day (G := G2) google_api_key (InputPath image_path) target_day.
Proof.
  intros Hkey. split; [| split].
  - intros img. now apply keyless_extract.
  - now apply keyless_calculate.
  - now apply keyless_process_day.
Qed.

(** A client that always answers with two days, to compare with
    [Synthetic.no_gemini]. *)
Definition two_day_gemini : Gemini Picture :=
  {| genai_configure := fun _ => true;
     gemini_extract := fun _ _ =>
       {| X_axis := [ {| label := "ראשון"; has_bar := true |};
                      {| label := "שני"; has_bar := false |} ];
          Y_axisTopValue := "120" |} |}.

Lemma no_key_uses_canned_answer_witness :
  calculate_minutes_for_day (G := two_day_gemini) "week.png" "שני" (Some "  ")
  = calculate_minutes_for_day (G := no_gemini) "week.png" "שני" (Some "  ").
Proof.
  refine (proj1 (proj2 (no_key_uses_canned_answer two_day_gemini no_gemini
                          "week.png" "שני" (Some "  ") _))).
  right. exists "  ". split; reflexivity.
Defined.

(** * The [.env.local] reader and the command line *)
Module EnvLocal.

Definition is_eq (c : ascii) : bool := Ascii.eqb c "="%char.
Definition is_hash (c : ascii) : bool := Ascii.eqb c "#"%char.
Definition is_dquote (c : ascii) : bool := Ascii.eqb c "034"%char.
Definition is_squote (c : ascii) : bool := Ascii.eqb c "'"%char.

(** [s.lstrip(chars)], [s.rstrip(chars)] and [s.strip(chars)]; [p]
    tells the characters to remove, [is_space] for the call without
    argument (on ASCII text, as in [Labels]). *)
Fixpoint lstrip (p : ascii -> bool) (s : string) : string :=
  match s with
  | EmptyString => EmptyString
  | String c s' => if p c then lstrip p s' else s
  end.

Fixpoint rstrip (p : ascii -> bool) (s : string) : string :=
  match s with
  | EmptyString => EmptyString
  | String c s' =>
      match rstrip p s' with
      | EmptyString => if p c then EmptyString else String c EmptyString
      | r => String c r
      end
  end.

Definition strip (p : ascii -> bool) (s : string) : string :=
  rstrip p (lstrip p s).

(** [s.startswith(c)] for one character, and its mirror image. *)
Definition starts_with (p : ascii -> bool) (s : string) : bool :=
  match s with
  | EmptyString => false
  | String c _ => p c
  end.

Fixpoint ends_with (p : ascii -> bool) (s : string) : bool :=
  match s with
  | EmptyString => false
  | String c EmptyString => p c
  | String _ s' => ends_with p s'
  end.

(** [c in s] for the characters told by [p], and its dual. *)
Fixpoint any_char (p : ascii -> bool) (s : string) : bool :=
  match s with
  | EmptyString => false
  | String c s' => p c || any_char p s'
  end.

Fixpoint all_chars (p : ascii -> bool) (s : string) : bool :=
  match s with
  | EmptyString => true
  | String c s' => p c && all_chars p s'
  end.

(** ['=' in line] and [line.split('=', 1)]: [None] without an equals
    sign, else the text before the first one and the text after it. *)
Fixpoint split_eq (s : string) : option (string * string) :=
  match s with
  | EmptyString => None
  | String c s' =>
      if is_eq c then Some (EmptyString, s')
      else match split_eq s' with
           | Some (key, value) => Some (String c key, value)
           | None => None
           end
  end.

(** Lines 1014-1024: what one line of the file does to [env_vars]. *)
Definition read_line (env_vars : gmap string string) (line : string)
  : gmap string string :=
  let line := strip is_space line in
  if String.eqb line EmptyString || starts_with is_hash line then env_vars
  else
    match split_eq line with
    | Some (key, value) =>
        let key := strip is_space key in
        let value :=
          strip is_squote (strip is_dquote (strip is_space value)) in
        <[key := value]> env_vars
    | None => env_vars
    end.

(** One of the three places searched: no file there, a file read to
    its end, or a file whose reading raised after the given lines
    (none when [open] itself raised). *)
Inductive EnvFile :=
| Missing
| Complete (lines : list string)
| Interrupted (lines : list string).

(** Lines 1010-1028: the loop over [search_paths].  [env_vars] is
    created once, before the loop; the [break] follows a complete
    read, an exception goes on with the next place. *)
Fixpoint read_files (files : list EnvFile) (env_vars : gmap string string)
  : gmap string string :=
  match files with
  | [] => env_vars
  | Missing :: rest => read_files rest env_vars
  | Complete lines :: _ => fold_left read_line lines env_vars
  | Interrupted lines :: rest =>
      read_files rest (fold_left read_line lines env_vars)
  end.

(** Lines 989-1030. *)
Definition _load_env_local (project_root here cwd : EnvFile)
  : gmap string string :=
  read_files [project_root; here; cwd] ∅.

(** [a or b] on strings. *)
Definition py_or (a b : string) : string :=
  if String.eqb a EmptyString then b else a.

(** Line 1059. *)
Definition api_key_of (arg_api_key : string)
    (env_local environ : gmap string string) : string :=
  py_or (py_or arg_api_key
               (default EmptyString (env_local !! "GOOGLE_API_KEY")))
        (default EmptyString (environ !! "GOOGLE_API_KEY")).

(** Lines 1054-1062: the result the command line prints.  Building
    the service (lines 928-946) sets the client up once more and
    changes nothing in the result. *)
Definition cli_result {Image : Type} `{V : Vision Image} `{G : Gemini Image}
    (image_path target_day arg_api_key : string)
    (project_root here cwd : EnvFile) (environ : gmap string string)
  : Traced Image (Response Image) :=
  let env_local := _load_env_local project_root here cwd in
  let api_key := api_key_of arg_api_key env_local environ in
  process_day (Some api_key) (InputPath image_path) target_day.

(** ** Stripping *)

Lemma lstrip_clean p s : starts_with p s = false -> lstrip p s = s.
Proof. destruct s as [|c s]; simpl; [reflexivity | now intros ->]. Qed.

Lemma lstrip_starts p s : starts_with p (lstrip p s) = false.
Proof.
  induction s as [|c s IH]; simpl; [reflexivity |].
  destruct (p c) eqn:E; [exact IH | simpl; exact E].
Qed.

Lemma rstrip_cons p c s :
  p c = false -> rstrip p (String c s) = String c (rstrip p s).
Proof. intros E. simpl. rewrite E. now destruct (rstrip p s). Qed.

Lemma rstrip_clean p s : ends_with p s = false -> rstrip p s = s.
Proof.
  induction s as [|c s IH]; [reflexivity |].
  intros H. simpl in *. destruct s as [|c' s'].
  - simpl. now rewrite H.
  - rewrite (IH H). reflexivity.
Qed.

Lemma rstrip_ends p s : ends_with p (rstrip p s) = false.
Proof.
  induction s as [|c s IH]; [reflexivity |].
  simpl. destruct (rstrip p s) as [|c' r] eqn:E.
  - destruct (p c) eqn:Ec; simpl; [reflexivity | exact Ec].
  - exact IH.
Qed.

Lemma rstrip_starts p q s :
  starts_with q s = false -> starts_with q (rstrip p s) = false.
Proof.
  destruct s as [|c s]; [reflexivity |].
  simpl. intros H. destruct (rstrip p s); [| exact H].
  destruct (p c); [reflexivity | exact H].
Qed.

Lemma lstrip_rstrip p s : lstrip p (rstrip p s) = rstrip p (lstrip p s).
Proof.
  induction s as [|c s IH]; [reflexivity |].
  destruct (p c) eqn:E.
  - assert (Hl : lstrip p (String c s) = lstrip p s)
      by (cbn [lstrip]; now rewrite E).
    rewrite Hl, <- IH. cbn [rstrip].
    destruct (rstrip p s) as [|c' r]; rewrite ?E; cbn [lstrip];
      now rewrite ?E.
  - assert (Hl : lstrip p (String c s) = String c s)
      by (cbn [lstrip]; now rewrite E).
    rewrite Hl, (rstrip_cons _ _ _ E). cbn [lstrip]. now rewrite E.
Qed.

Lemma lstrip_idem p s : lstrip p (lstrip p s) = lstrip p s.
Proof. apply lstrip_clean, lstrip_starts. Qed.

Lemma rstrip_idem p s : rstrip p (rstrip p s) = rstrip p s.
Proof. apply rstrip_clean, rstrip_ends. Qed.

Lemma strip_lstrip p s : strip p (lstrip p s) = strip p s.
Proof. unfold strip. now rewrite lstrip_idem. Qed.

Lemma strip_rstrip p s : strip p (rstrip p s) = strip p s.
Proof. unfold strip. now rewrite <- !lstrip_rstrip, rstrip_idem. Qed.

Lemma strip_starts p s : starts_with p (strip p s) = false.
Proof. apply rstrip_starts, lstrip_starts. Qed.

Lemma strip_ends p s : ends_with p (strip p s) = false.
Proof. apply rstrip_ends. Qed.

Lemma strip_clean p s :
  starts_with p s = false -> ends_with p s = false -> strip p s = s.
Proof.
  intros Hs He. unfold strip. rewrite (lstrip_clean _ _ Hs).
  now apply rstrip_clean.
Qed.

Lemma lstrip_pad p a s :
  all_chars p a = true -> lstrip p (a ++ s)%string = lstrip p s.
Proof.
  induction a as [|c a IH]; simpl; [reflexivity |].
  intros H. apply andb_true_iff in H as [-> H]. auto.
Qed.

Lemma rstrip_all p b : all_chars p b = true -> rstrip p b = EmptyString.
Proof.
  induction b as [|c b IH]; simpl; [reflexivity |].
  intros H. apply andb_true_iff in H as [-> H]. now rewrite (IH H).
Qed.

Lemma rstrip_pad p s b :
  all_chars p b = true -> rstrip p (s ++ b)%string = rstrip p s.
Proof.
  intros H. induction s as [|c s IH]; simpl.
  - now apply rstrip_all.
  - now rewrite IH.
Qed.

Lemma strip_pad p a s b :
  all_chars p a = true -> all_chars p b = true ->
  strip p (a ++ s ++ b)%string = strip p s.
Proof.
  intros Ha Hb. unfold strip. rewrite (lstrip_pad _ _ _ Ha).
  rewrite <- !lstrip_rstrip. now rewrite (rstrip_pad _ _ _ Hb).
Qed.

(** ** Splitting at the equals sign *)

Lemma split_eq_app k v :
  any_char is_eq k = false ->
  split_eq (k ++ String "="%char v)%string = Some (k, v).
Proof.
  induction k as [|c k IH]; simpl; [reflexivity |].
  intros H. apply orb_false_iff in H as [-> H]. now rewrite (IH H).
Qed.

Lemma split_eq_inv s k v :
  split_eq s = Some (k, v) ->
  any_char is_eq k = false /\ s = (k ++ String "="%char v)%string.
Proof.
  revert k. induction s as [|c s IH]; intros k; simpl; [discriminate |].
  destruct (is_eq c) eqn:E.
  - intros H. injection H as <- <-. split; [reflexivity |].
    unfold is_eq in E. apply Ascii.eqb_eq in E. now subst c.
  - destruct (split_eq s) as [[k' v']|]; [| discriminate].
    intros H. injection H as <- <-.
    destruct (IH k' eq_refl) as [Hk Hs]. split.
    + simpl. now rewrite E.
    + change (String c s = String c (k' ++ String "="%char v')%string).
      f_equal. exact Hs.
Qed.

Lemma space_not_eq c : is_eq c = true -> is_space c = false.
Proof.
  unfold is_eq. intros H. apply Ascii.eqb_eq in H. now subst c.
Qed.

Lemma split_eq_lstrip s k v :
  split_eq s = Some (k, v) ->
  split_eq (lstrip is_space s) = Some (lstrip is_space k, v).
Proof.
  revert k. induction s as [|c s IH]; intros k; [discriminate |].
  simpl. destruct (is_eq c) eqn:E.
  - intros H. injection H as <- <-. rewrite (space_not_eq _ E).
    simpl. now rewrite E.
  - destruct (split_eq s) as [[k' v']|] eqn:Es; [| discriminate].
    intros H. injection H as <- <-. simpl.
    destruct (is_space c).
    + now apply IH.
    + simpl. now rewrite E, Es.
Qed.

Lemma split_eq_cons c s :
  is_eq c = false ->
  split_eq (String c s)
  = match split_eq s with
    | Some (key, value) => Some (String c key, value)
    | None => None
    end.
Proof. intros E. simpl. now rewrite E. Qed.

Lemma split_eq_rstrip s k v :
  split_eq s = Some (k, v) ->
  split_eq (rstrip is_space s) = Some (k, rstrip is_space v).
Proof.
  revert k. induction s as [|c s IH]; intros k; [discriminate |].
  cbn [split_eq]. destruct (is_eq c) eqn:E.
  - intros H. injection H as <- <-.
    rewrite (rstrip_cons _ _ _ (space_not_eq _ E)). simpl. now rewrite E.
  - destruct (split_eq s) as [[k' v']|] eqn:Es; [| discriminate].
    intros H. injection H as <- <-.
    specialize (IH k' eq_refl). cbn [rstrip].
    destruct (rstrip is_space s) as [|c' r]; [discriminate |].
    now rewrite (split_eq_cons _ _ E), IH.
Qed.

Lemma split_eq_none_lstrip s :
  split_eq s = None -> split_eq (lstrip is_space s) = None.
Proof.
  induction s as [|c s IH]; [reflexivity |].
  simpl. destruct (is_eq c) eqn:E; [discriminate |].
  destruct (split_eq s) as [[k v]|] eqn:Es; [discriminate |].
  intros _. destruct (is_space c); [now apply IH |].
  simpl. now rewrite E, Es.
Qed.

Lemma split_eq_none_rstrip s :
  split_eq s = None -> split_eq (rstrip is_space s) = None.
Proof.
  induction s as [|c s IH]; [reflexivity |].
  cbn [split_eq]. destruct (is_eq c) eqn:E; [discriminate |].
  destruct (split_eq s) as [[k v]|] eqn:Es; [discriminate |].
  intros _. specialize (IH eq_refl). cbn [rstrip].
  destruct (rstrip is_space s) as [|c' r].
  - destruct (is_space c); [reflexivity |]. simpl. now rewrite E.
  - now rewrite (split_eq_cons _ _ E), IH.
Qed.

(** Stripping the whole line first changes neither the key nor the
    value the line gives. *)
Lemma split_eq_strip s :
  split_eq (strip is_space s)
  = match split_eq s with
    | Some (k, v) => Some (lstrip is_space k, rstrip is_space v)
    | None => None
    end.
Proof.
  unfold strip. destruct (split_eq s) as [[k v]|] eqn:E.
  - apply split_eq_lstrip in E. now apply split_eq_rstrip in E.
  - now apply split_eq_none_rstrip, split_eq_none_lstrip.
Qed.

Definition unquote (value : string) : string :=
  strip is_squote (strip is_dquote (strip is_space value)).

(** The assignment a line makes, if it makes one. *)
Definition assignment (line : string) : option (string * string) :=
  let line := strip is_space line in
  if String.eqb line EmptyString || starts_with is_hash line then None
  else
    match split_eq line with
    | Some (key, value) => Some (strip is_space key, unquote value)
    | None => None
    end.

Lemma read_line_assignment env_vars line :
  read_line env_vars line
  = match assignment line with
    | Some (key, value) => <[key := value]> env_vars
    | None => env_vars
    end.
Proof.
  unfold read_line, assignment, unquote. cbv zeta.
  destruct (_ || _); [reflexivity |].
  now destruct (split_eq _) as [[k v]|].
Qed.

Lemma read_line_union env_vars line :
  read_line env_vars line = read_line ∅ line ∪ env_vars.
Proof.
  rewrite !read_line_assignment.
  destruct (assignment line) as [[k v]|].
  - now rewrite <- insert_union_l, (left_id_L ∅ (∪)).
  - now rewrite (left_id_L ∅ (∪)).
Qed.

Lemma read_lines_union lines env_vars :
  fold_left read_line lines env_vars
  = fold_left read_line lines ∅ ∪ env_vars.
Proof.
  induction lines as [|line lines IH] using rev_ind.
  - simpl. now rewrite (left_id_L ∅ (∪)).
  - rewrite !fold_left_app. simpl.
    rewrite !read_line_assignment, IH.
    destruct (assignment line) as [[k v]|]; [| reflexivity].
    now rewrite insert_union_l.
Qed.

(** ** What a line assigns *)

Lemma any_char_app p a b :
  any_char p (a ++ b)%string = any_char p a || any_char p b.
Proof.
  induction a as [|c a IH]; simpl; [reflexivity |].
  now rewrite IH, orb_assoc.
Qed.

Lemma spaces_no_eq w : all_chars is_space w = true -> any_char is_eq w = false.
Proof.
  induction w as [|c w IH]; simpl; [reflexivity |].
  intros H. apply andb_true_iff in H as [Hc H]. rewrite (IH H).
  destruct (is_eq c) eqn:E; [| reflexivity].
  apply space_not_eq in E. congruence.
Qed.

Lemma lstrip_all p w : all_chars p w = true -> lstrip p w = EmptyString.
Proof.
  induction w as [|c w IH]; simpl; [reflexivity |].
  intros H. apply andb_true_iff in H as [-> H]. auto.
Qed.

Lemma ends_with_app p a c b :
  ends_with p (a ++ String c b)%string = ends_with p (String c b).
Proof.
  induction a as [|x a IH]; [reflexivity |].
  change ((String x a ++ String c b)%string)
    with (String x (a ++ String c b)%string).
  cbn [ends_with]. rewrite IH.
  destruct (a ++ String c b)%string eqn:E; [| reflexivity].
  destruct a; discriminate.
Qed.

Lemma any_char_lstrip p q s :
  any_char q s = false -> any_char q (lstrip p s) = false.
Proof.
  induction s as [|c s IH]; simpl; [reflexivity |].
  intros H. destruct (p c); [| exact H].
  apply orb_false_iff in H as [_ H]. auto.
Qed.

Lemma any_char_rstrip p q s :
  any_char q s = false -> any_char q (rstrip p s) = false.
Proof.
  induction s as [|c s IH]; simpl; [reflexivity |].
  intros H. apply orb_false_iff in H as [Hc H]. specialize (IH H).
  destruct (rstrip p s) as [|c' r].
  - destruct (p c); simpl; [reflexivity | now rewrite Hc].
  - simpl in *. now rewrite Hc, IH.
Qed.

(** A line is well formed when its name and value survive the
    stripping unchanged. *)
Record well_formed (q key value : string) : Prop := {
  key_no_eq : any_char is_eq key = false;
  key_no_space_left : starts_with is_space key = false;
  key_no_space_right : ends_with is_space key = false;
  key_no_hash : starts_with is_hash key = false;
  value_no_dquote_left : starts_with is_dquote value = false;
  value_no_dquote_right : ends_with is_dquote value = false;
  value_no_squote_left : starts_with is_squote value = false;
  value_no_squote_right : ends_with is_squote value = false;
  quoting :
    (q = EmptyString /\ starts_with is_space value = false
     /\ ends_with is_space value = false)
    \/ q = String "034"%char EmptyString
    \/ q = String "'"%char EmptyString
}.

Lemma append_empty_r (s : string) : (s ++ EmptyString)%string = s.
Proof.
  induction s as [|c s IH]; [reflexivity |].
  change (String c (s ++ EmptyString)%string = String c s). now f_equal.
Qed.

Lemma unquote_quoted q key value w3 w4 :
  well_formed q key value ->
  all_chars is_space w3 = true -> all_chars is_space w4 = true ->
  unquote (rstrip is_space (w3 ++ (q ++ value ++ q) ++ w4)%string) = value.
Proof.
  intros [_ _ _ _ Hdl Hdr Hsl Hsr Hq] H3 H4. unfold unquote.
  rewrite strip_rstrip, (strip_pad _ _ _ _ H3 H4).
  destruct Hq as [[-> [Hwl Hwr]] | [-> | ->]].
  - change (EmptyString ++ value ++ EmptyString)%string
      with (value ++ EmptyString)%string.
    rewrite append_empty_r.
    rewrite (strip_clean is_space value Hwl Hwr).
    rewrite (strip_clean is_dquote value Hdl Hdr).
    now apply strip_clean.
  - rewrite (strip_clean is_space);
      [| reflexivity | exact (ends_with_app is_space (String "034"%char value) "034"%char EmptyString)].
    rewrite (strip_pad is_dquote (String "034"%char EmptyString) value
               (String "034"%char EmptyString) eq_refl eq_refl).
    rewrite (strip_clean is_dquote value Hdl Hdr).
    now apply strip_clean.
  - rewrite (strip_clean is_space);
      [| reflexivity | exact (ends_with_app is_space (String "'"%char value) "'"%char EmptyString)].
    rewrite (strip_clean is_dquote);
      [| reflexivity | exact (ends_with_app is_dquote (String "'"%char value) "'"%char EmptyString)].
    rewrite (strip_pad is_squote (String "'"%char EmptyString) value
               (String "'"%char EmptyString) eq_refl eq_refl).
    now apply strip_clean.
Qed.

Lemma assignment_well_formed q key value w1 w2 w3 w4 :
  well_formed q key value ->
  all_chars is_space w1 = true -> all_chars is_space w2 = true ->
  all_chars is_space w3 = true -> all_chars is_space w4 = true ->
  assignment ((w1 ++ key ++ w2) ++ String "="%char
                (w3 ++ (q ++ value ++ q) ++ w4))%string
  = Some (key, value).
Proof.
  intros Hwf H1 H2 H3 H4.
  pose proof (unquote_quoted q key value w3 w4 Hwf H3 H4) as Hv.
  destruct Hwf as [Hke Hkl Hkr Hkh _ _ _ _ _].
  set (K0 := (w1 ++ key ++ w2)%string).
  set (V0 := (w3 ++ (q ++ value ++ q) ++ w4)%string) in *.
  assert (HK0 : any_char is_eq K0 = false).
  { unfold K0. rewrite !any_char_app, Hke.
    now rewrite (spaces_no_eq _ H1), (spaces_no_eq _ H2). }
  assert (Hsplit : split_eq (strip is_space (K0 ++ String "="%char V0)%string)
                   = Some (lstrip is_space K0, rstrip is_space V0)).
  { now rewrite split_eq_strip, (split_eq_app _ _ HK0). }
  assert (Hkey : strip is_space (lstrip is_space K0) = key).
  { rewrite strip_lstrip. unfold K0. rewrite (strip_pad _ _ _ _ H1 H2).
    now apply strip_clean. }
  assert (Hl : lstrip is_space K0 = (key ++ w2)%string
               \/ lstrip is_space K0 = EmptyString /\ key = EmptyString).
  { unfold K0. rewrite (lstrip_pad _ _ _ H1).
    destruct key as [|c k]; [right | left].
    - split; [| reflexivity]. now apply lstrip_all.
    - now apply lstrip_clean. }
  unfold assignment. cbv zeta. rewrite Hsplit, Hkey, Hv.
  destruct (split_eq_inv _ _ _ Hsplit) as [_ Hline]. rewrite Hline.
  destruct Hl as [-> | [-> ->]].
  - destruct key as [|c k].
    + destruct w2 as [|c2 w2']; [reflexivity |].
      simpl in H2. apply andb_true_iff in H2 as [Hc2 _].
      simpl. destruct (is_hash c2) eqn:E; [| reflexivity].
      unfold is_hash in E. apply Ascii.eqb_eq in E. now subst c2.
    + simpl in *. now rewrite Hkh.
  - reflexivity.
Qed.

Definition clean_entry (key value : string) : Prop :=
  any_char is_eq key = false
  /\ starts_with is_space key = false
  /\ ends_with is_space key = false
  /\ starts_with is_hash key = false
  /\ starts_with is_squote value = false
  /\ ends_with is_squote value = false.

Lemma assignment_clean line key value :
  assignment line = Some (key, value) -> clean_entry key value.
Proof.
  unfold assignment. cbv zeta.
  destruct (String.eqb _ _ || starts_with _ _) eqn:Hskip; [discriminate |].
  apply orb_false_iff in Hskip as [_ Hhash].
  destruct (split_eq (strip is_space line)) as [[k0 v0]|] eqn:Hs;
    [| discriminate].
  intros H. injection H as <- <-.
  destruct (split_eq_inv _ _ _ Hs) as [Hk0 Hline].
  pose proof (strip_starts is_space line) as Hstart.
  rewrite Hline in Hhash, Hstart.
  repeat split.
  - unfold strip. now apply any_char_rstrip, any_char_lstrip.
  - apply strip_starts.
  - apply strip_ends.
  - destruct k0 as [|c k0']; [reflexivity |].
    simpl in Hhash, Hstart. unfold strip.
    rewrite lstrip_clean by exact Hstart.
    now apply rstrip_starts.
  - apply strip_starts.
  - apply strip_ends.
Qed.

Definition clean_vars (env_vars : gmap string string) : Prop :=
  forall key value, env_vars !! key = Some value -> clean_entry key value.

Lemma read_line_clean env_vars line :
  clean_vars env_vars -> clean_vars (read_line env_vars line).
Proof.
  intros Hinv. rewrite read_line_assignment.
  destruct (assignment line) as [[k v]|] eqn:E; [| exact Hinv].
  intros key value. destruct (decide (k = key)) as [<- | Hne].
  - rewrite lookup_insert_eq. intros H. injection H as <-.
    now apply (assignment_clean line).
  - rewrite lookup_insert_ne by exact Hne. apply Hinv.
Qed.

Lemma read_lines_clean lines env_vars :
  clean_vars env_vars -> clean_vars (fold_left read_line lines env_vars).
Proof.
  revert env_vars. induction lines as [|l lines IH]; intros env_vars H;
    [exact H |].
  simpl. now apply IH, read_line_clean.
Qed.

Lemma read_files_clean files env_vars :
  clean_vars env_vars -> clean_vars (read_files files env_vars).
Proof.
  revert env_vars. induction files as [|f files IH]; intros env_vars H;
    [exact H |].
  destruct f as [|lines|lines]; simpl.
  - now apply IH.
  - now apply read_lines_clean.
  - now apply IH, read_lines_clean.
Qed.

Lemma py_or_left a b : a <> EmptyString -> py_or a b = a.
Proof.
  intros H. unfold py_or. destruct (String.eqb a EmptyString) eqn:E;
    [| reflexivity].
  apply String.eqb_eq in E. contradiction.
Qed.

(** The first and the last character are ASCII: then none of the
    white space that [strip] knows beyond ASCII stands at an end. *)
Definition is_non_ascii (c : ascii) : bool := (128 <=? nat_of_ascii c)%nat.

Definition ascii_ends (s : string) : Prop :=
  starts_with is_non_ascii s = false /\ ends_with is_non_ascii s = false.

(** X18: a line [NAME=VALUE] sets exactly that variable, whatever
    ASCII white space surrounds the line, the name and the value, and
    with the value bare, in double quotes or in single quotes; a name
    has no equals sign, a bare value starts and ends with neither white
    space nor a quote, a quoted value with no quote.  The name, and the
    value when it is bare, start and end with an ASCII character, so
    that they have no white space of any kind at their ends.  White
    space inside the quotes is kept. *)
Theorem env_line_round_trip (env_vars : gmap string string)
    (w1 w2 w3 w4 q key value : string) :
  all_chars is_space w1 = true -> all_chars is_space w2 = true ->
  all_chars is_space w3 = true -> all_chars is_space w4 = true ->
  well_formed q key value ->
  ascii_ends key ->
  (q = EmptyString -> ascii_ends value) ->
  read_line env_vars
    ((w1 ++ key ++ w2) ++ String "="%char (w3 ++ (q ++ value ++ q) ++ w4))%string
  = <[key := value]> env_vars.
Proof.
  intros H1 H2 H3 H4 Hwf _ _.
  now rewrite read_line_assignment,
    (assignment_well_formed q key value w1 w2 w3 w4 Hwf H1 H2 H3 H4).
Qed.

Lemma env_line_round_trip_witness :
  read_line ∅ "  GOOGLE_API_KEY = ' a b'  "
  = <["GOOGLE_API_KEY" := " a b"]> ∅.
Proof.
  apply (env_line_round_trip ∅ "  " " " " " "  " "'" "GOOGLE_API_KEY" " a b");
    try reflexivity.
  - constructor; try reflexivity. right. right. reflexivity.
  - split; reflexivity.
  - discriminate.
Defined.

(** X19: every name the reader returns is free of equals signs, has no
    white space at either end and does not start with a hash sign;
    every value neither starts nor ends with a single quote.  This
    holds whatever the three files contain and wherever reading
    breaks off. *)
Theorem env_names_clean (project_root here cwd : EnvFile)
    (key value : string) :
  _load_env_local project_root here cwd !! key = Some value ->
  any_char is_eq key = false
  /\ starts_with is_space key = false
  /\ ends_with is_space key = false
  /\ starts_with is_hash key = false
  /\ starts_with is_squote value = false
  /\ ends_with is_squote value = false.
Proof.
  apply (read_files_clean [project_root; here; cwd] ∅).
  intros k v H. now rewrite lookup_empty in H.
Qed.

Lemma env_names_clean_witness :
  any_char is_eq "A" = false
  /\ starts_with is_space "A" = false
  /\ ends_with is_space "A" = false
  /\ starts_with is_hash "A" = false
  /\ starts_with is_squote "x=y" = false
  /\ ends_with is_squote "x=y" = false.
Proof.
  apply (env_names_clean Missing (Interrupted ["# note"; " A = 'x=y' "])
           (Complete ["B"]) "A" "x=y").
  vm_compute. reflexivity.
Defined.

(** X20: the three places are tried in order and the first file read
    to its end stops the search, so later places never count; a file
    whose reading breaks off keeps the variables read so far, and the
    next file read overrides them name by name. *)
Theorem env_search_order (first second : list string)
    (here cwd : EnvFile) :
  _load_env_local (Complete first) here cwd = fold_left read_line first ∅
  /\ _load_env_local Missing (Complete first) cwd
     = fold_left read_line first ∅
  /\ _load_env_local Missing Missing (Complete first)
     = fold_left read_line first ∅
  /\ _load_env_local (Interrupted first) (Complete second) cwd
     = fold_left read_line second ∅ ∪ fold_left read_line first ∅
  /\ _load_env_local (Interrupted first) Missing Missing
     = fold_left read_line first ∅
  /\ _load_env_local Missing Missing Missing = ∅.
Proof.
  repeat split; try reflexivity.
  unfold _load_env_local. simpl. apply read_lines_union.
Qed.

(** X21: on the command line a non-empty [--api-key] wins over both
    the [.env.local] files and the environment.  One of white space
    only still wins, and then the run uses the canned labels: its
    result depends neither on the files, nor on the environment, nor
    on the Gemini client. *)
Theorem cli_blank_key_shadows {Image : Type} `{V : Vision Image}
    (G1 G2 : Gemini Image) (image_path target_day arg_api_key : string)
    (project_root1 here1 cwd1 project_root2 here2 cwd2 : EnvFile)
    (environ1 environ2 env_local : gmap string string) :
  arg_api_key <> EmptyString ->
  api_key_of arg_api_key env_local environ1 = arg_api_key
  /\ (is_blank arg_api_key = true ->
      cli_result (G := G1) image_path target_day arg_api_key
        project_root1 here1 cwd1 environ1
      = cli_result (G := G2) image_path target_day arg_api_key
          project_root2 here2 cwd2 environ2).
Proof.
  intros Harg.
  assert (Hkey : forall e1 e2, api_key_of arg_api_key e1 e2 = arg_api_key).
  { intros e1 e2. unfold api_key_of.
    rewrite (py_or_left arg_api_key _ Harg). now apply py_or_left. }
  split; [apply Hkey |].
  intros Hblank. unfold cli_result. cbv zeta. rewrite !Hkey.
  apply keyless_process_day. right. now exists arg_api_key.
Qed.

Lemma cli_blank_key_shadows_witness :
  cli_result (G := two_day_gemini) "week.png" "שני" " "
    (Complete ["GOOGLE_API_KEY=abc"]) Missing Missing ∅
  = cli_result (G := no_gemini) "week.png" "שני" " "
      Missing Missing Missing (<["GOOGLE_API_KEY" := "xyz"]> ∅).
Proof.
  refine (proj2 (cli_blank_key_shadows two_day_gemini no_gemini
                   "week.png" "שני" " "
                   (Complete ["GOOGLE_API_KEY=abc"]) Missing Missing
                   Missing Missing Missing
                   ∅ (<["GOOGLE_API_KEY" := "xyz"]> ∅) ∅ _) _).
  - discriminate.
  - reflexivity.
Defined.

End EnvLocal.

(** * The HTTP service ([src/cloud-run/main.py]) *)
Module CloudRun.

(** What [request.get_json()] parses: the values of JSON as Python
    has them.  An object is the list of its members, each name once;
    a number is exact. *)
#[warnings="-register-all"]
Inductive Json :=
| JNull
| JBool (b : bool)
| JInt (n : Z)
| JFloat (q : Q)
| JStr (s : string)
| JArr (items : list Json)
| JObj (members : list (string * Json)).

(** [bool(v)]. *)
Definition truthy (v : Json) : bool :=
  match v with
  | JNull => false
  | JBool b => b
  | JInt n => negb (n =? 0)
  | JFloat q => negb (Qeq_bool q 0)
  | JStr s => negb (String.eqb s EmptyString)
  | JArr items => match items with [] => false | _ => true end
  | JObj members => match members with [] => false | _ => true end
  end.

(** A Python expression returns a value or raises; [exn] is the class
    of the exception, the text of its message is left out. *)
Inductive Try (A : Type) :=
| Returns (a : A)
| Raises (exn : string).
Arguments Returns {A} _.
Arguments Raises {A} _.

Fixpoint dict_get (members : list (string * Json)) (k : string)
  : option Json :=
  match members with
  | [] => None
  | (k', v) :: rest => if String.eqb k' k then Some v else dict_get rest k
  end.

(** [needle in s] on strings. *)
Fixpoint contains (needle s : string) : bool :=
  String.prefix needle s
  || match s with
     | EmptyString => false
     | String _ s' => contains needle s'
     end.

Definition is_str (needle : string) (v : Json) : bool :=
  match v with
  | JStr s => String.eqb s needle
  | _ => false
  end.

(** [needle in v]: a member name of an object, a substring of a
    string, an item of an array; a [TypeError] on the rest. *)
Definition py_contains (needle : string) (v : Json) : Try bool :=
  match v with
  | JObj members =>
      Returns (match dict_get members needle with
               | Some _ => true
               | None => false
               end)
  | JStr s => Returns (contains needle s)
  | JArr items => Returns (existsb (is_str needle) items)
  | _ => Raises "TypeError"
  end.

(** [v[k]] for a string [k]. *)
Definition py_getitem (v : Json) (k : string) : Try Json :=
  match v with
  | JObj members =>
      match dict_get members k with
      | Some x => Returns x
      | None => Raises "KeyError"
      end
  | _ => Raises "TypeError"
  end.

(** [v.get(k)]: only a dict has the method. *)
Definition py_get (v : Json) (k : string) : Try Json :=
  match v with
  | JObj members =>
      Returns (match dict_get members k with
               | Some x => x
               | None => JNull
               end)
  | _ => Raises "AttributeError"
  end.

Definition is_comma (c : ascii) : bool := Ascii.eqb c ","%char.

(** [s.split(',')]. *)
Fixpoint split_comma (s : string) : list string :=
  match s with
  | EmptyString => [EmptyString]
  | String c s' =>
      if is_comma c then EmptyString :: split_comma s'
      else match split_comma s' with
           | field :: fields => String c field :: fields
           | [] => [String c EmptyString]
           end
  end.

(** [v.split(',')[1]]. *)
Definition py_split_1 (v : Json) : Try Json :=
  match v with
  | JStr s =>
      match nth_error (split_comma s) 1 with
      | Some field => Returns (JStr field)
      | None => Raises "IndexError"
      end
  | _ => Raises "AttributeError"
  end.

(** The machine the service runs on: [base64.b64decode] on a string
    ([None] when it raises), and [tempfile.NamedTemporaryFile] followed
    by the write of the bytes. *)
Inductive TempFile :=
| CreateFailed
| WriteFailed (path : string)
| Written (path : string).

Class Host := {
  b64decode : string -> option (list Byte.byte);
  new_temp_file : list Byte.byte -> TempFile
}.

(** What the handler does to the file system and the service, in
    order. *)
Inductive Event :=
| TempCreated (path : string) (content : list Byte.byte)
| ServiceCalled (path : string) (target_day : Json)
| UnlinkAttempted (path : string).

Inductive Failure :=
| MissingBody
| MissingParameters
| InvalidImageData (exn : string)
| Unhandled (exn : string).

(** The answer: [success: False] with a status, or status 200 with
    [success: True] and the four fields; [metadata] is [None] for the
    empty object. *)
Inductive Reply :=
| Failed (status : Z) (why : Failure)
| Processed (day : Json) (minutes : Q) (found : bool)
            (metadata : option (Q * Q)).

Definition status_of (r : Reply) : Z :=
  match r with
  | Failed status _ => status
  | Processed _ _ _ _ => 200
  end.

Definition success_of (r : Reply) : bool :=
  match r with
  | Failed _ _ => false
  | Processed _ _ _ _ => true
  end.

Section Handler.
Context {Image : Type} `{H : Host}.

(** [service.process_day], with the path of the temporary file and
    the day as the request gave it. *)
Variable service : string -> Json -> Response Image.

(** Lines 62-65. *)
Definition select_data (request_data : Json) : Try Json :=
  match py_contains "data" request_data with
  | Raises exn => Raises exn
  | Returns true => py_getitem request_data "data"
  | Returns false => Returns request_data
  end.

(** Lines 79-84, the body of the inner [try]. *)
Definition decode_image_data (image_data : Json) : Try (list Byte.byte) :=
  match py_contains "," image_data with
  | Raises exn => Raises exn
  | Returns has_comma =>
      match (if has_comma then py_split_1 image_data
             else Returns image_data) with
      | Raises exn => Raises exn
      | Returns (JStr s) =>
          match b64decode s with
          | Some image_bytes => Returns image_bytes
          | None => Raises "ValueError"
          end
      | Returns _ => Raises "TypeError"
      end
  end.

(** Lines 105-111: the four [result.get] with their defaults. *)
Definition reply_of (target_day : Json) (result : Response Image) : Reply :=
  match result with
  | RespLegacy r =>
      Processed (JStr (leg_day r)) (leg_minutes r) (leg_found r)
                (Some (leg_scale_min_per_px r, leg_max_val_y r))
  | RespFull r => Processed target_day (res_minutes r) false None
  | RespError _ => Processed target_day 0 false None
  | RespRaised exn => Failed 500 (Unhandled exn)
  end.

(** Lines 33-127.  [request] is what [request.get_json()] does. *)
Definition process_screenshot (request : Try Json) : Reply * list Event :=
  match request with
  | Raises exn => (Failed 500 (Unhandled exn), [])
  | Returns request_data =>
      if negb (truthy request_data) then (Failed 400 MissingBody, [])
      else
        match select_data request_data with
        | Raises exn => (Failed 500 (Unhandled exn), [])
        | Returns data =>
            match py_get data "imageData" with
            | Raises exn => (Failed 500 (Unhandled exn), [])
            | Returns image_data =>
                match py_get data "targetDay" with
                | Raises exn => (Failed 500 (Unhandled exn), [])
                | Returns target_day =>
                    if negb (truthy image_data) || negb (truthy target_day)
                    then (Failed 400 MissingParameters, [])
                    else
                      match decode_image_data image_data with
                      | Raises exn => (Failed 400 (InvalidImageData exn), [])
                      | Returns image_bytes =>
                          match new_temp_file image_bytes with
                          | CreateFailed =>
                              (Failed 500 (Unhandled "OSError"), [])
                          | WriteFailed temp_path =>
                              (Failed 500 (Unhandled "OSError"),
                               [TempCreated temp_path image_bytes])
                          | Written temp_path =>
                              (reply_of target_day
                                 (service temp_path target_day),
                               [TempCreated temp_path image_bytes;
                                ServiceCalled temp_path target_day;
                                UnlinkAttempted temp_path])
                          end
                      end
                end
            end
        end
  end.

End Handler.

(** ** The handler's own steps *)

Section HandlerFacts.
Context {Image : Type} `{H : Host}.
Variable service : string -> Json -> Response Image.

Lemma prefix_comma c s : String.prefix "," (String c s) = is_comma c.
Proof.
  unfold is_comma. cbn [String.prefix].
  destruct (ascii_dec ","%char c) as [<- | Hne].
  - now destruct s.
  - symmetry. apply Ascii.eqb_neq. congruence.
Qed.

Lemma contains_comma s : contains "," s = EnvLocal.any_char is_comma s.
Proof.
  induction s as [|c s IH]; [reflexivity |].
  cbn [contains EnvLocal.any_char]. now rewrite prefix_comma, IH.
Qed.

Lemma split_comma_plain a :
  EnvLocal.any_char is_comma a = false -> split_comma a = [a].
Proof.
  induction a as [|c a IH]; [reflexivity |].
  cbn [EnvLocal.any_char split_comma]. intros Hc.
  apply orb_false_iff in Hc as [-> Hc]. now rewrite (IH Hc).
Qed.

Lemma split_comma_field a t :
  EnvLocal.any_char is_comma a = false ->
  split_comma (a ++ String ","%char t)%string = a :: split_comma t.
Proof.
  induction a as [|c a IH]; [reflexivity |].
  cbn [EnvLocal.any_char]. intros Hc.
  apply orb_false_iff in Hc as [Hc Ha].
  change ((String c a ++ String ","%char t)%string)
    with (String c (a ++ String ","%char t)%string).
  cbn [split_comma]. now rewrite Hc, (IH Ha).
Qed.

Lemma any_comma_field a t :
  EnvLocal.any_char is_comma (a ++ String ","%char t)%string = true.
Proof.
  rewrite EnvLocal.any_char_app. cbn [EnvLocal.any_char].
  replace (is_comma ","%char) with true by reflexivity.
  now rewrite orb_true_r.
Qed.

Lemma select_data_flat members :
  dict_get members "data" = None ->
  select_data (JObj members) = Returns (JObj members).
Proof. intros Hd. unfold select_data, py_contains. now rewrite Hd. Qed.

Lemma select_data_wrapped outer v :
  dict_get outer "data" = Some v -> select_data (JObj outer) = Returns v.
Proof.
  intros Hd. unfold select_data, py_contains, py_getitem. now rewrite Hd.
Qed.

Lemma truthy_object members k v :
  dict_get members k = Some v -> truthy (JObj members) = true.
Proof. now destruct members. Qed.

End HandlerFacts.

Section ServiceFacts.
Context {Image : Type} `{V : Vision Image} `{G : Gemini Image}.

Lemma process_day_path_error (image_path target_day msg : string)
    (google_api_key : option string) :
  value (calculate_minutes_for_day image_path target_day google_api_key)
  = RespError msg ->
  value (process_day google_api_key (InputPath image_path) target_day)
  = RespLegacy {| leg_day := target_day; leg_minutes := 0; leg_found := false;
                  leg_scale_min_per_px := 0; leg_max_val_y := 0 |}.
Proof.
  intros Hmsg. unfold process_day, tbind, tret, value in *.
  destruct (calculate_minutes_for_day image_path target_day google_api_key)
    as [res log]; cbn [fst] in *; subst res. reflexivity.
Qed.

Lemma calculate_failure (image_path target_day : string)
    (google_api_key : option string) :
  _load_image image_path = None
  \/ (exists img, _load_image image_path = Some img
                  /\ (grid_y_bottom (find_graph_area img) = None
                      \/ grid_y_top (find_graph_area img) = None)) ->
  exists msg,
    value (calculate_minutes_for_day image_path target_day google_api_key)
    = RespError msg.
Proof.
  intros [Hload | [img [Hload Hgrid]]].
  - eexists. now rewrite (calculate_load_failure _ _ _ Hload).
  - eexists. now rewrite (calculate_grid_failure _ _ _ img Hload Hgrid).
Qed.
End ServiceFacts.

(** A machine whose decoder accepts every text and whose temporary
    file always has the same name, and a service that answers for the
    unreadable file of [Synthetic.disk]. *)
Definition demo_host (temp_path : string) : Host :=
  {| b64decode := fun _ => Some [];
     new_temp_file := fun _ => Written temp_path |}.

Definition demo_service (path : string) (day : Json) : Response Picture :=
  match day with
  | JStr d => value (process_day None (InputPath path) d)
  | _ => RespRaised "TypeError"
  end.

Definition demo_request : list (string * Json) :=
  [("imageData", JStr "data:image/jpeg;base64,QUJD");
   ("targetDay", JStr "שני")].

(** X22: a body in the Firebase format, its fields under [data], is
    answered as the same fields sent directly, as long as there is a
    field at all and none is itself called [data]; whatever else the
    outer object holds is ignored.  With no field the two differ: the
    empty object is a missing body, the empty object under [data] a
    body with missing parameters. *)
Theorem wrapped_body_same_as_flat {Image : Type} `{H : Host}
    (service : string -> Json -> Response Image)
    (outer members : list (string * Json)) :
  members <> [] ->
  dict_get members "data" = None ->
  dict_get outer "data" = Some (JObj members) ->
  process_screenshot service (Returns (JObj outer))
  = process_screenshot service (Returns (JObj members))
  /\ process_screenshot service (Returns (JObj []))
     = (Failed 400 MissingBody, [])
  /\ process_screenshot service (Returns (JObj [("data", JObj [])]))
     = (Failed 400 MissingParameters, []).
Proof.
  intros Hne Hflat Hwrapped. split; [| split; reflexivity].
  unfold process_screenshot.
  rewrite (truthy_object _ _ _ Hwrapped).
  rewrite (select_data_wrapped _ _ Hwrapped), (select_data_flat _ Hflat).
  destruct members as [|m members]; [contradiction | reflexivity].
Qed.

Lemma wrapped_body_same_as_flat_witness :
  process_screenshot (H := demo_host "missing.png") demo_service
    (Returns (JObj [("imageData", JNull); ("data", JObj demo_request)]))
  = process_screenshot (H := demo_host "missing.png") demo_service
      (Returns (JObj demo_request)).
Proof.
  refine (proj1 (wrapped_body_same_as_flat (H := demo_host "missing.png")
                   demo_service
                   [("imageData", JNull); ("data", JObj demo_request)]
                   demo_request _ _ _)).
  - discriminate.
  - reflexivity.
  - reflexivity.
Defined.

(** X23: whatever the request, the handler calls the service at most
    once, and answers with success only after calling it.  When it
    calls the service it has written the temporary file just before
    and unlinks it just after, also when the service raises; the one
    file it can leave behind is one whose writing failed. *)
Theorem temp_file_unlinked_after_service {Image : Type} `{H : Host}
    (service : string -> Json -> Response Image) (request : Try Json) :
  let reply := fst (process_screenshot service request) in
  let events := snd (process_screenshot service request) in
  (events = [] /\ success_of reply = false)
  \/ (exists path content,
        events = [TempCreated path content]
        /\ new_temp_file content = WriteFailed path
        /\ reply = Failed 500 (Unhandled "OSError"))
  \/ (exists path content day,
        events = [TempCreated path content; ServiceCalled path day;
                  UnlinkAttempted path]
        /\ new_temp_file content = Written path
        /\ truthy day = true
        /\ reply = reply_of day (service path day)).
Proof.
  cbv zeta. unfold process_screenshot.
  destruct request as [request_data | exn]; [| now left].
  destruct (truthy request_data); [| now left]. cbn [negb].
  destruct (select_data request_data) as [data | exn]; [| now left].
  destruct (py_get data "imageData") as [image_data | exn]; [| now left].
  destruct (py_get data "targetDay") as [target_day | exn]; [| now left].
  destruct (truthy image_data); [| now left].
  destruct (truthy target_day) eqn:Hday; [| now left]. cbn [negb orb].
  destruct (decode_image_data image_data) as [image_bytes | exn];
    [| now left].
  destruct (new_temp_file image_bytes) as [|temp_path|temp_path] eqn:Htemp.
  - now left.
  - right. left. now exists temp_path, image_bytes.
  - right. right. now exists temp_path, image_bytes, target_day.
Qed.

(** X24: of the image text the handler decodes the part between the
    first comma and the second, or all of it when it has no comma.  So
    the prefix of a data URL is dropped, and so is everything from a
    second comma on. *)
Theorem data_url_payload_decoded `{H : Host} (prefix payload rest : string) :
  EnvLocal.any_char is_comma prefix = false ->
  EnvLocal.any_char is_comma payload = false ->
  let decoded :=
    match b64decode payload with
    | Some image_bytes => Returns image_bytes
    | None => Raises "ValueError"
    end in
  decode_image_data (JStr payload) = decoded
  /\ decode_image_data (JStr (prefix ++ String ","%char payload)) = decoded
  /\ decode_image_data
       (JStr (prefix ++ String ","%char (payload ++ String ","%char rest)))
     = decoded.
Proof.
  intros Hprefix Hpayload. cbv zeta.
  unfold decode_image_data, py_contains, py_split_1.
  rewrite !contains_comma, Hpayload, !any_comma_field.
  rewrite !(split_comma_field _ _ Hprefix).
  rewrite (split_comma_field _ _ Hpayload), (split_comma_plain _ Hpayload).
  cbn [nth_error]. now destruct (b64decode payload).
Qed.

Lemma data_url_payload_decoded_witness :
  decode_image_data (H := demo_host "missing.png")
    (JStr "data:image/jpeg;base64,QUJD,more")
  = Returns [].
Proof.
  refine (proj2 (proj2 (data_url_payload_decoded (H := demo_host "missing.png")
                          "data:image/jpeg;base64" "QUJD" "more" _ _)));
    reflexivity.
Defined.

(** X25: a body that is not a JSON object but counts as true, or an
    object whose [data] member is anything but an object, is answered
    with status 500, and the service is not called. *)
Theorem malformed_body_is_server_error {Image : Type} `{H : Host}
    (service : string -> Json -> Response Image) (request_data : Json) :
  truthy request_data = true ->
  (forall members, request_data = JObj members ->
     exists v, dict_get members "data" = Some v
               /\ forall inner, v <> JObj inner) ->
  exists exn,
    process_screenshot service (Returns request_data)
    = (Failed 500 (Unhandled exn), []).
Proof.
  intros Htrue Hshape. unfold process_screenshot. rewrite Htrue. cbn [negb].
  destruct request_data as [| b | n | q | s | items | members];
    try (eexists; reflexivity).
  - unfold select_data, py_contains.
    destruct (contains "data" s); eexists; reflexivity.
  - unfold select_data, py_contains.
    destruct (existsb _ items); eexists; reflexivity.
  - destruct (Hshape members eq_refl) as [v [Hv Hnot]].
    rewrite (select_data_wrapped _ _ Hv).
    destruct v; try (eexists; reflexivity).
    now destruct (Hnot members0).
Qed.

Lemma malformed_body_is_server_error_witness :
  exists exn,
    process_screenshot (H := demo_host "missing.png") demo_service
      (Returns (JObj [("data", JStr "x"); ("targetDay", JStr "שני")]))
    = (Failed 500 (Unhandled exn), []).
Proof.
  apply (malformed_body_is_server_error (H := demo_host "missing.png")
           demo_service).
  - reflexivity.
  - intros members Heq. injection Heq as <-.
    exists (JStr "x"). split; [reflexivity | discriminate].
Defined.

(** X26: the handler in front of [process_day].  When the pipeline
    cannot load the image that the request carried, or finds no grid in
    it, the request is still answered with status 200 and
    [success: True]: the day echoed, zero minutes, found false and
    zero metadata.  The error message of the pipeline does not reach
    the client, and the temporary file is unlinked. *)
Theorem served_reply_hides_failures {Image : Type} `{V : Vision Image}
    `{G : Gemini Image} `{H : Host}
    (service : string -> Json -> Response Image)
    (google_api_key : option string) (members : list (string * Json))
    (image_text target_day temp_path : string)
    (image_bytes : list Byte.byte) :
  service temp_path (JStr target_day)
  = value (process_day google_api_key (InputPath temp_path) target_day) ->
  dict_get members "data" = None ->
  dict_get members "imageData" = Some (JStr image_text) ->
  dict_get members "targetDay" = Some (JStr target_day) ->
  image_text <> EmptyString ->
  target_day <> EmptyString ->
  decode_image_data (JStr image_text) = Returns image_bytes ->
  new_temp_file image_bytes = Written temp_path ->
  _load_image temp_path = None
  \/ (exists img, _load_image temp_path = Some img
                  /\ (grid_y_bottom (find_graph_area img) = None
                      \/ grid_y_top (find_graph_area img) = None)) ->
  process_screenshot service (Returns (JObj members))
  = (Processed (JStr target_day) 0 false (Some (0%Q, 0%Q)),
     [TempCreated temp_path image_bytes;
      ServiceCalled temp_path (JStr target_day);
      UnlinkAttempted temp_path]).
Proof.
  intros Hservice Hflat Himage Hday Hi Hd Hdecode Htemp Hfail.
  destruct (calculate_failure temp_path target_day google_api_key Hfail)
    as [msg Hmsg].
  pose proof (process_day_path_error temp_path target_day msg google_api_key
                Hmsg) as Hr.
  unfold process_screenshot.
  rewrite (truthy_object _ _ _ Himage). cbn [negb].
  rewrite (select_data_flat _ Hflat). unfold py_get.
  rewrite Himage, Hday. cbn [truthy].
  apply String.eqb_neq in Hi, Hd. rewrite Hi, Hd. cbn [negb orb].
  rewrite Hdecode, Htemp, Hservice, Hr. reflexivity.
Qed.

Lemma served_reply_hides_failures_witness :
  process_screenshot (H := demo_host "missing.png") demo_service
    (Returns (JObj demo_request))
  = (Processed (JStr "שני") 0 false (Some (0%Q, 0%Q)),
     [TempCreated "missing.png" []; ServiceCalled "missing.png" (JStr "שני");
      UnlinkAttempted "missing.png"]).
Proof.
  apply (served_reply_hides_failures (G := no_gemini)
           (H := demo_host "missing.png") demo_service None demo_request
           "data:image/jpeg;base64,QUJD" "שני" "missing.png" []
           eq_refl eq_refl eq_refl eq_refl
           ltac:(discriminate) ltac:(discriminate) eq_refl eq_refl).
  left. reflexivity.
Defined.

End CloudRun.
